(** * Jobflare: the session controller and its link-validation worker

    A shallow embedding of [job_search/jobflare.py]: the URL normalizer
    and list reader, the validation worker with its shared counters, the
    number prompt of the tab-opening screen, and the screen handlers of
    the interactive state machine. *)

From Stdlib Require Import ZArith NArith List Bool Lia String Ascii Decimal DecimalString QArith Sorted DecimalNat.
From stdpp Require Import gmap list fin_maps.
Import ListNotations.

Local Open Scope Z_scope.

(** ** Python values

    A Python [str] is a sequence of Unicode code points.  Literals of the
    source are written [lit "..."]; they are ASCII throughout. *)

Abbreviation char := N (only parsing).
Abbreviation str := (list N) (only parsing).

Fixpoint lit (s : string) : str :=
  match s with
  | EmptyString => []
  | String a s' => N_of_ascii a :: lit s'
  end.

Arguments lit : simpl never.

(** [a == b] on strings *)
Fixpoint str_eqb (a b : str) : bool :=
  match a, b with
  | [], [] => true
  | x :: a, y :: b => (x =? y)%N && str_eqb a b
  | _, _ => false
  end.

(** The exceptions that the modelled code can meet. [HTTPError] stands for
    [httpx.HTTPError] and its subclasses, [OtherError] for any exception
    outside the classes named here. *)
Inductive exn : Type :=
| ValueError (msg : str)
| IndexError (msg : str)
| AttributeError (msg : str)
| OSError (msg : str)
| HTTPError (msg : str)
| OtherError (msg : str).

(** [str(exc)]. *)
Definition exn_str (e : exn) : str :=
  match e with
  | ValueError m | IndexError m | AttributeError m
  | OSError m | HTTPError m | OtherError m => m
  end.

(** A computation that returns or raises. *)
Inductive Exc (A : Type) : Type :=
| Ok (a : A)
| Raise (e : exn).
Arguments Ok {A} a.
Arguments Raise {A} e.

Definition bind {A B : Type} (m : Exc A) (k : A -> Exc B) : Exc B :=
  match m with
  | Ok a => k a
  | Raise e => Raise e
  end.

Notation "'let*' x ':=' m 'in' k" := (bind m (fun x => k))
  (at level 10, x name, m at level 100, k at level 200).

(** *** Character classes of the Python runtime *)

(** [str.isspace] on one code point: the table behind
    [_PyUnicode_IsWhitespace]. *)
Definition isspace (c : char) : bool :=
  ((9 <=? c) && (c <=? 13) || (28 <=? c) && (c <=? 32)
   || (c =? 133) || (c =? 160) || (c =? 5760)
   || (8192 <=? c) && (c <=? 8202)
   || (c =? 8232) || (c =? 8233) || (c =? 8239) || (c =? 8287)
   || (c =? 12288))%N.

(** Line boundaries of [str.splitlines] ([_PyUnicode_IsLinebreak]). *)
Definition is_linebreak (c : char) : bool :=
  ((10 <=? c) && (c <=? 13) || (28 <=? c) && (c <=? 30)
   || (c =? 133) || (c =? 8232) || (c =? 8233))%N.

Definition is_ascii_digit (c : char) : bool := ((48 <=? c) && (c <=? 57))%N.
Definition is_ascii_upper (c : char) : bool := ((65 <=? c) && (c <=? 90))%N.
Definition is_ascii_lower (c : char) : bool := ((97 <=? c) && (c <=? 122))%N.
Definition is_ascii_alpha (c : char) : bool := is_ascii_upper c || is_ascii_lower c.

(** [c.lower()] on the ASCII range. *)
Definition ascii_lower (c : char) : char :=
  if is_ascii_upper c then (c + 32)%N else c.

(** *** String methods *)

Fixpoint lstrip_with (p : char -> bool) (s : str) : str :=
  match s with
  | [] => []
  | c :: s' => if p c then lstrip_with p s' else s
  end.

Definition rstrip_with (p : char -> bool) (s : str) : str :=
  rev (lstrip_with p (rev s)).

(** [s.strip()]. *)
Definition strip (s : str) : str := rstrip_with isspace (lstrip_with isspace s).

(** [s.replace(c, "")] for a one-character [c]. *)
Definition remove_char (c : char) (s : str) : str :=
  List.filter (fun x => negb (x =? c)%N) s.

Definition startswith_char (c : char) (s : str) : bool :=
  match s with
  | x :: _ => (x =? c)%N
  | [] => false
  end.

(** [c in s]. *)
Definition contains (c : char) (s : str) : bool := existsb (N.eqb c) s.

(** [s.find(c)], [None] for [-1]. *)
Fixpoint find_char (c : char) (s : str) : option nat :=
  match s with
  | [] => None
  | x :: s' => if (x =? c)%N then Some O else option_map S (find_char c s')
  end.

(** [sep.join(parts)]. *)
Fixpoint join (sep : str) (parts : list str) : str :=
  match parts with
  | [] => []
  | [p] => p
  | p :: rest => p ++ sep ++ join sep rest
  end.

(** [s.splitlines()]: a line ends at each line boundary, a carriage return
    directly followed by a line feed counts as one boundary, and a boundary
    at the very end opens no further line. [cur] is the current line,
    reversed; [after_cr] tells that the previous character was a carriage
    return that closed a line. *)
Fixpoint splitlines_from (cur : str) (after_cr : bool) (s : str) : list str :=
  match s with
  | [] => match cur with [] => [] | _ => [rev cur] end
  | c :: s' =>
      if after_cr && (c =? 10)%N then splitlines_from [] false s'
      else if is_linebreak c then rev cur :: splitlines_from [] (c =? 13)%N s'
      else splitlines_from (c :: cur) false s'
  end.

Definition splitlines (s : str) : list str := splitlines_from [] false s.

(** [str(n)] for a non-negative integer. *)
Definition str_of_nat (n : nat) : str :=
  lit (NilEmpty.string_of_uint (Nat.to_uint n)).

Definition is_empty (s : str) : bool :=
  match s with [] => true | _ => false end.

Definition is_empty_list {A : Type} (l : list A) : bool :=
  match l with [] => true | _ => false end.

Fixpoint take_until (p : char -> bool) (s : str) : str :=
  match s with
  | [] => []
  | c :: s' => if p c then [] else c :: take_until p s'
  end.

(** ** [urllib.parse.urlparse]

    Of the parse result the source reads [scheme] and [netloc] only; the
    model follows [urlsplit] of CPython up to these two fields, and raises
    where [urlsplit] raises. *)

Record ParseResult : Type := { scheme : str; netloc : str }.

Section UrlParse.

(** Two validators of [urlsplit] stay parameters: [_check_bracketed_netloc]
    (an address parser, called when the netloc holds both brackets) and the
    NFKC test of [_checknetloc] (a Unicode table, consulted when the netloc
    has a non-ASCII character). Each returns or raises [ValueError]. *)
Variable check_bracketed_netloc : str -> Exc unit.
Variable checknetloc_nfkc : str -> Exc unit.

(** [_WHATWG_C0_CONTROL_OR_SPACE] *)
Definition c0_control_or_space (c : char) : bool := (c <=? 32)%N.

(** [scheme_chars]: ASCII letters, digits and [+-.] *)
Definition in_scheme_chars (c : char) : bool :=
  is_ascii_alpha c || is_ascii_digit c
  || (c =? 43)%N || (c =? 45)%N || (c =? 46)%N.

(** The scheme, when the text before the first colon is one, and the rest. *)
Definition split_scheme (url : str) : str * str :=
  match find_char 58 url, url with
  | Some (S i), c0 :: _ =>
      if is_ascii_alpha c0 && forallb in_scheme_chars (firstn (S i) url)
      then (map ascii_lower (firstn (S i) url), skipn (S (S i)) url)
      else ([], url)
  | _, _ => ([], url)
  end.

Definition is_netloc_delim (c : char) : bool :=
  ((c =? 47) || (c =? 63) || (c =? 35))%N.

Definition checknetloc (netloc : str) : Exc unit :=
  if is_empty netloc || forallb (fun c => c <? 128)%N netloc then Ok tt
  else checknetloc_nfkc netloc.

Definition urlsplit (url : str) : Exc ParseResult :=
  let url := lstrip_with c0_control_or_space url in
  let url := remove_char 10 (remove_char 13 (remove_char 9 url)) in
  let '(scheme, url) := split_scheme url in
  match url with
  | 47 :: 47 :: rest =>
      let netloc := take_until is_netloc_delim rest in
      let lb := contains 91 netloc in
      let rb := contains 93 netloc in
      if lb && negb rb || rb && negb lb
      then Raise (ValueError (lit "Invalid IPv6 URL"))
      else
        let* _ := (if lb && rb then check_bracketed_netloc netloc else Ok tt) in
        let* _ := checknetloc netloc in
        Ok {| scheme := scheme; netloc := netloc |}
  | _ =>
      let* _ := checknetloc [] in
      Ok {| scheme := scheme; netloc := [] |}
  end%N.

Definition urlparse (url : str) : Exc ParseResult := urlsplit url.

(** ** URL handling *)

Definition normalize_url (raw : str) : Exc (option str) :=
  let line := remove_char 13 (strip raw) in
  if is_empty line || startswith_char 35 line then Ok None
  else if existsb isspace line then Ok None
  else
    let* parsed := urlparse line in
    let* lp := (if is_empty (scheme parsed)
                then let line' := lit "https://" ++ line in
                     let* parsed' := urlparse line' in Ok (line', parsed')
                else Ok (line, parsed)) in
    let '(line, parsed) := lp in
    if negb (str_eqb (scheme parsed) (lit "http")
             || str_eqb (scheme parsed) (lit "https")) then Ok None
    else if is_empty (netloc parsed) then Ok None
    else Ok (Some line).

(** A path is a directory and a file name; the file system maps the paths
    of existing files to their text. *)
Definition with_name (p : str * str) (name : str) : str * str := (fst p, name).

Fixpoint read_urls_loop (lines : list str) (urls : list str) (skipped total : Z)
  : Exc (list str * Z * Z) :=
  match lines with
  | [] => Ok (urls, skipped, total)
  | raw :: rest =>
      let total := total + 1 in
      let* url := normalize_url raw in
      match url with
      | None =>
          let skipped := if negb (is_empty (strip raw)) then skipped + 1 else skipped in
          read_urls_loop rest urls skipped total
      | Some u => read_urls_loop rest (urls ++ [u]) skipped total
      end
  end.

Definition read_urls (fs : gmap (str * str) str) (jobs_file : str * str)
  : Exc (list str * Z * Z) :=
  match fs !! jobs_file with
  | None => Ok ([], 0, 0)
  | Some text => read_urls_loop (splitlines text) [] 0 0
  end.

End UrlParse.

(** ** State machine *)

Inductive Screen : Type :=
| MAIN_MENU | PROFILE_SELECT | OPEN_SETTINGS | OPENING | VALIDATING | FETCHING
| AI_PROMPT_KEYWORDS | AI_PROMPT_LOCATIONS | AI_PROMPT_COMPANIES
| AI_PROMPT_DISPLAY | QUIT.

Definition DEFAULT_TAB_LIMIT : Z := 10.
Definition DEFAULT_DELAY : Q := 15 # 100.

Definition DEFAULT_COMPANIES : list str := map lit [
  "Anduril"; "Palantir"; "CrowdStrike"; "Palo Alto Networks"; "Fortinet";
  "Splunk"; "Elastic"; "Cloudflare"; "Zscaler"; "SentinelOne";
  "Lockheed Martin"; "Northrop Grumman"; "Raytheon (RTX)"; "Boeing"; "BAE Systems";
  "L3Harris"; "General Dynamics"; "Leidos"; "SAIC"; "Booz Allen";
  "MITRE"; "Peraton"; "ManTech"; "Parsons"; "CACI";
  "Microsoft"; "Google"; "Amazon (AWS)"; "Apple"; "Meta";
  "Netflix"; "Cisco"; "IBM"; "Oracle"; "VMware";
  "BlueHalo"; "Bluestaq"; "True Anomaly"; "Sierra Space"; "Auria Space";
  "Delta Sands"; "Pryon"; "Trellix"; "Mandiant"; "Recorded Future"
]%string.

Definition COMPANY_BATCH_SIZE : Z := 10.

(** [len(l)] *)
Definition len {A : Type} (l : list A) : Z := Z.of_nat (length l).

(** [l[i]]: a negative index counts from the end, an index outside the list
    raises [IndexError]. *)
Definition index_position {A : Type} (l : list A) (i : Z) : option nat :=
  if (0 <=? i) && (i <? len l) then Some (Z.to_nat i)
  else if (- len l <=? i) && (i <? 0) then Some (Z.to_nat (len l + i))
  else None.

Definition getitem {A : Type} (l : list A) (i : Z) : Exc A :=
  match index_position l i with
  | Some n => match l !! n with
              | Some x => Ok x
              | None => Raise (IndexError (lit "list index out of range"))
              end
  | None => Raise (IndexError (lit "list index out of range"))
  end.

(** [l[i] = x] *)
Definition setitem {A : Type} (l : list A) (i : Z) (x : A) : Exc (list A) :=
  match index_position l i with
  | Some n => Ok (<[n := x]> l)
  | None => Raise (IndexError (lit "list assignment index out of range"))
  end.

(** A profile directory. [search_specs] is the path of the configuration
    file when it exists. *)
Record Profile : Type := {
  name : str;
  path : str;
  jobs_file : str * str;
  search_specs : option (str * str);
  urls : list str;
  url_count : Z
}.

(** The session record. [validation_thread] holds the profile that the
    thread was started on, [validation_cancel] the flag of the
    [threading.Event]. The attributes
    [ai_company_batch_idx] and [ai_input_buffer] are not fields of the
    dataclass: [init_ai_prompt_builder] creates them, and [None] stands for an
    attribute that does not exist yet. [ai_company_selected] is declared a
    dict and holds a list of flags from [init_ai_prompt_builder] on. *)
Record AppState : Type := {
  screen : Screen;
  prev_screen : Screen;
  profiles : list Profile;
  profile_idx : Z;
  selection_idx : Z;
  message : str;
  tab_limit : Z;
  delay : Q;
  validation_thread : option Profile;
  validation_cancel : bool;
  validation_status : str;
  validation_total : Z;
  validation_completed : Z;
  validation_valid : Z;
  validation_failed : Z;
  validation_error : str;
  ai_prompt : str;
  ai_keywords : list str;
  ai_locations : list str;
  ai_companies : list str;
  ai_company_selected : list bool;
  ai_company_filter : str;
  ai_filtered_companies : list str;
  ai_company_batch_idx : option Z;
  ai_input_buffer : option str
}.

Definition set_screen (v : Screen) (s : AppState) : AppState :=
  Build_AppState v (prev_screen s) (profiles s) (profile_idx s) (selection_idx
  s) (message s) (tab_limit s) (delay s) (validation_thread s)
  (validation_cancel s) (validation_status s) (validation_total s)
  (validation_completed s) (validation_valid s) (validation_failed s)
  (validation_error s) (ai_prompt s) (ai_keywords s) (ai_locations s)
  (ai_companies s) (ai_company_selected s) (ai_company_filter s)
  (ai_filtered_companies s) (ai_company_batch_idx s) (ai_input_buffer s).

Definition set_prev_screen (v : Screen) (s : AppState) : AppState :=
  Build_AppState (screen s) v (profiles s) (profile_idx s) (selection_idx s)
  (message s) (tab_limit s) (delay s) (validation_thread s) (validation_cancel
  s) (validation_status s) (validation_total s) (validation_completed s)
  (validation_valid s) (validation_failed s) (validation_error s) (ai_prompt
  s) (ai_keywords s) (ai_locations s) (ai_companies s) (ai_company_selected s)
  (ai_company_filter s) (ai_filtered_companies s) (ai_company_batch_idx s)
  (ai_input_buffer s).

Definition set_profiles (v : list Profile) (s : AppState) : AppState :=
  Build_AppState (screen s) (prev_screen s) v (profile_idx s) (selection_idx
  s) (message s) (tab_limit s) (delay s) (validation_thread s)
  (validation_cancel s) (validation_status s) (validation_total s)
  (validation_completed s) (validation_valid s) (validation_failed s)
  (validation_error s) (ai_prompt s) (ai_keywords s) (ai_locations s)
  (ai_companies s) (ai_company_selected s) (ai_company_filter s)
  (ai_filtered_companies s) (ai_company_batch_idx s) (ai_input_buffer s).

Definition set_profile_idx (v : Z) (s : AppState) : AppState :=
  Build_AppState (screen s) (prev_screen s) (profiles s) v (selection_idx s)
  (message s) (tab_limit s) (delay s) (validation_thread s) (validation_cancel
  s) (validation_status s) (validation_total s) (validation_completed s)
  (validation_valid s) (validation_failed s) (validation_error s) (ai_prompt
  s) (ai_keywords s) (ai_locations s) (ai_companies s) (ai_company_selected s)
  (ai_company_filter s) (ai_filtered_companies s) (ai_company_batch_idx s)
  (ai_input_buffer s).

Definition set_selection_idx (v : Z) (s : AppState) : AppState :=
  Build_AppState (screen s) (prev_screen s) (profiles s) (profile_idx s) v
  (message s) (tab_limit s) (delay s) (validation_thread s) (validation_cancel
  s) (validation_status s) (validation_total s) (validation_completed s)
  (validation_valid s) (validation_failed s) (validation_error s) (ai_prompt
  s) (ai_keywords s) (ai_locations s) (ai_companies s) (ai_company_selected s)
  (ai_company_filter s) (ai_filtered_companies s) (ai_company_batch_idx s)
  (ai_input_buffer s).

Definition set_message (v : str) (s : AppState) : AppState :=
  Build_AppState (screen s) (prev_screen s) (profiles s) (profile_idx s)
  (selection_idx s) v (tab_limit s) (delay s) (validation_thread s)
  (validation_cancel s) (validation_status s) (validation_total s)
  (validation_completed s) (validation_valid s) (validation_failed s)
  (validation_error s) (ai_prompt s) (ai_keywords s) (ai_locations s)
  (ai_companies s) (ai_company_selected s) (ai_company_filter s)
  (ai_filtered_companies s) (ai_company_batch_idx s) (ai_input_buffer s).

Definition set_tab_limit (v : Z) (s : AppState) : AppState :=
  Build_AppState (screen s) (prev_screen s) (profiles s) (profile_idx s)
  (selection_idx s) (message s) v (delay s) (validation_thread s)
  (validation_cancel s) (validation_status s) (validation_total s)
  (validation_completed s) (validation_valid s) (validation_failed s)
  (validation_error s) (ai_prompt s) (ai_keywords s) (ai_locations s)
  (ai_companies s) (ai_company_selected s) (ai_company_filter s)
  (ai_filtered_companies s) (ai_company_batch_idx s) (ai_input_buffer s).

Definition set_delay (v : Q) (s : AppState) : AppState :=
  Build_AppState (screen s) (prev_screen s) (profiles s) (profile_idx s)
  (selection_idx s) (message s) (tab_limit s) v (validation_thread s)
  (validation_cancel s) (validation_status s) (validation_total s)
  (validation_completed s) (validation_valid s) (validation_failed s)
  (validation_error s) (ai_prompt s) (ai_keywords s) (ai_locations s)
  (ai_companies s) (ai_company_selected s) (ai_company_filter s)
  (ai_filtered_companies s) (ai_company_batch_idx s) (ai_input_buffer s).

Definition set_validation_thread (v : option Profile) (s : AppState) : AppState :=
  Build_AppState (screen s) (prev_screen s) (profiles s) (profile_idx s)
  (selection_idx s) (message s) (tab_limit s) (delay s) v (validation_cancel
  s) (validation_status s) (validation_total s) (validation_completed s)
  (validation_valid s) (validation_failed s) (validation_error s) (ai_prompt
  s) (ai_keywords s) (ai_locations s) (ai_companies s) (ai_company_selected s)
  (ai_company_filter s) (ai_filtered_companies s) (ai_company_batch_idx s)
  (ai_input_buffer s).

Definition set_validation_cancel (v : bool) (s : AppState) : AppState :=
  Build_AppState (screen s) (prev_screen s) (profiles s) (profile_idx s)
  (selection_idx s) (message s) (tab_limit s) (delay s) (validation_thread s)
  v (validation_status s) (validation_total s) (validation_completed s)
  (validation_valid s) (validation_failed s) (validation_error s) (ai_prompt
  s) (ai_keywords s) (ai_locations s) (ai_companies s) (ai_company_selected s)
  (ai_company_filter s) (ai_filtered_companies s) (ai_company_batch_idx s)
  (ai_input_buffer s).

Definition set_validation_status (v : str) (s : AppState) : AppState :=
  Build_AppState (screen s) (prev_screen s) (profiles s) (profile_idx s)
  (selection_idx s) (message s) (tab_limit s) (delay s) (validation_thread s)
  (validation_cancel s) v (validation_total s) (validation_completed s)
  (validation_valid s) (validation_failed s) (validation_error s) (ai_prompt
  s) (ai_keywords s) (ai_locations s) (ai_companies s) (ai_company_selected s)
  (ai_company_filter s) (ai_filtered_companies s) (ai_company_batch_idx s)
  (ai_input_buffer s).

Definition set_validation_total (v : Z) (s : AppState) : AppState :=
  Build_AppState (screen s) (prev_screen s) (profiles s) (profile_idx s)
  (selection_idx s) (message s) (tab_limit s) (delay s) (validation_thread s)
  (validation_cancel s) (validation_status s) v (validation_completed s)
  (validation_valid s) (validation_failed s) (validation_error s) (ai_prompt
  s) (ai_keywords s) (ai_locations s) (ai_companies s) (ai_company_selected s)
  (ai_company_filter s) (ai_filtered_companies s) (ai_company_batch_idx s)
  (ai_input_buffer s).

Definition set_validation_completed (v : Z) (s : AppState) : AppState :=
  Build_AppState (screen s) (prev_screen s) (profiles s) (profile_idx s)
  (selection_idx s) (message s) (tab_limit s) (delay s) (validation_thread s)
  (validation_cancel s) (validation_status s) (validation_total s) v
  (validation_valid s) (validation_failed s) (validation_error s) (ai_prompt
  s) (ai_keywords s) (ai_locations s) (ai_companies s) (ai_company_selected s)
  (ai_company_filter s) (ai_filtered_companies s) (ai_company_batch_idx s)
  (ai_input_buffer s).

Definition set_validation_valid (v : Z) (s : AppState) : AppState :=
  Build_AppState (screen s) (prev_screen s) (profiles s) (profile_idx s)
  (selection_idx s) (message s) (tab_limit s) (delay s) (validation_thread s)
  (validation_cancel s) (validation_status s) (validation_total s)
  (validation_completed s) v (validation_failed s) (validation_error s)
  (ai_prompt s) (ai_keywords s) (ai_locations s) (ai_companies s)
  (ai_company_selected s) (ai_company_filter s) (ai_filtered_companies s)
  (ai_company_batch_idx s) (ai_input_buffer s).

Definition set_validation_failed (v : Z) (s : AppState) : AppState :=
  Build_AppState (screen s) (prev_screen s) (profiles s) (profile_idx s)
  (selection_idx s) (message s) (tab_limit s) (delay s) (validation_thread s)
  (validation_cancel s) (validation_status s) (validation_total s)
  (validation_completed s) (validation_valid s) v (validation_error s)
  (ai_prompt s) (ai_keywords s) (ai_locations s) (ai_companies s)
  (ai_company_selected s) (ai_company_filter s) (ai_filtered_companies s)
  (ai_company_batch_idx s) (ai_input_buffer s).

Definition set_validation_error (v : str) (s : AppState) : AppState :=
  Build_AppState (screen s) (prev_screen s) (profiles s) (profile_idx s)
  (selection_idx s) (message s) (tab_limit s) (delay s) (validation_thread s)
  (validation_cancel s) (validation_status s) (validation_total s)
  (validation_completed s) (validation_valid s) (validation_failed s) v
  (ai_prompt s) (ai_keywords s) (ai_locations s) (ai_companies s)
  (ai_company_selected s) (ai_company_filter s) (ai_filtered_companies s)
  (ai_company_batch_idx s) (ai_input_buffer s).

Definition set_ai_prompt (v : str) (s : AppState) : AppState :=
  Build_AppState (screen s) (prev_screen s) (profiles s) (profile_idx s)
  (selection_idx s) (message s) (tab_limit s) (delay s) (validation_thread s)
  (validation_cancel s) (validation_status s) (validation_total s)
  (validation_completed s) (validation_valid s) (validation_failed s)
  (validation_error s) v (ai_keywords s) (ai_locations s) (ai_companies s)
  (ai_company_selected s) (ai_company_filter s) (ai_filtered_companies s)
  (ai_company_batch_idx s) (ai_input_buffer s).

Definition set_ai_keywords (v : list str) (s : AppState) : AppState :=
  Build_AppState (screen s) (prev_screen s) (profiles s) (profile_idx s)
  (selection_idx s) (message s) (tab_limit s) (delay s) (validation_thread s)
  (validation_cancel s) (validation_status s) (validation_total s)
  (validation_completed s) (validation_valid s) (validation_failed s)
  (validation_error s) (ai_prompt s) v (ai_locations s) (ai_companies s)
  (ai_company_selected s) (ai_company_filter s) (ai_filtered_companies s)
  (ai_company_batch_idx s) (ai_input_buffer s).

Definition set_ai_locations (v : list str) (s : AppState) : AppState :=
  Build_AppState (screen s) (prev_screen s) (profiles s) (profile_idx s)
  (selection_idx s) (message s) (tab_limit s) (delay s) (validation_thread s)
  (validation_cancel s) (validation_status s) (validation_total s)
  (validation_completed s) (validation_valid s) (validation_failed s)
  (validation_error s) (ai_prompt s) (ai_keywords s) v (ai_companies s)
  (ai_company_selected s) (ai_company_filter s) (ai_filtered_companies s)
  (ai_company_batch_idx s) (ai_input_buffer s).

Definition set_ai_companies (v : list str) (s : AppState) : AppState :=
  Build_AppState (screen s) (prev_screen s) (profiles s) (profile_idx s)
  (selection_idx s) (message s) (tab_limit s) (delay s) (validation_thread s)
  (validation_cancel s) (validation_status s) (validation_total s)
  (validation_completed s) (validation_valid s) (validation_failed s)
  (validation_error s) (ai_prompt s) (ai_keywords s) (ai_locations s) v
  (ai_company_selected s) (ai_company_filter s) (ai_filtered_companies s)
  (ai_company_batch_idx s) (ai_input_buffer s).

Definition set_ai_company_selected (v : list bool) (s : AppState) : AppState :=
  Build_AppState (screen s) (prev_screen s) (profiles s) (profile_idx s)
  (selection_idx s) (message s) (tab_limit s) (delay s) (validation_thread s)
  (validation_cancel s) (validation_status s) (validation_total s)
  (validation_completed s) (validation_valid s) (validation_failed s)
  (validation_error s) (ai_prompt s) (ai_keywords s) (ai_locations s)
  (ai_companies s) v (ai_company_filter s) (ai_filtered_companies s)
  (ai_company_batch_idx s) (ai_input_buffer s).

Definition set_ai_company_filter (v : str) (s : AppState) : AppState :=
  Build_AppState (screen s) (prev_screen s) (profiles s) (profile_idx s)
  (selection_idx s) (message s) (tab_limit s) (delay s) (validation_thread s)
  (validation_cancel s) (validation_status s) (validation_total s)
  (validation_completed s) (validation_valid s) (validation_failed s)
  (validation_error s) (ai_prompt s) (ai_keywords s) (ai_locations s)
  (ai_companies s) (ai_company_selected s) v (ai_filtered_companies s)
  (ai_company_batch_idx s) (ai_input_buffer s).

Definition set_ai_filtered_companies (v : list str) (s : AppState) : AppState :=
  Build_AppState (screen s) (prev_screen s) (profiles s) (profile_idx s)
  (selection_idx s) (message s) (tab_limit s) (delay s) (validation_thread s)
  (validation_cancel s) (validation_status s) (validation_total s)
  (validation_completed s) (validation_valid s) (validation_failed s)
  (validation_error s) (ai_prompt s) (ai_keywords s) (ai_locations s)
  (ai_companies s) (ai_company_selected s) (ai_company_filter s) v
  (ai_company_batch_idx s) (ai_input_buffer s).

Definition set_ai_company_batch_idx (v : option Z) (s : AppState) : AppState :=
  Build_AppState (screen s) (prev_screen s) (profiles s) (profile_idx s)
  (selection_idx s) (message s) (tab_limit s) (delay s) (validation_thread s)
  (validation_cancel s) (validation_status s) (validation_total s)
  (validation_completed s) (validation_valid s) (validation_failed s)
  (validation_error s) (ai_prompt s) (ai_keywords s) (ai_locations s)
  (ai_companies s) (ai_company_selected s) (ai_company_filter s)
  (ai_filtered_companies s) v (ai_input_buffer s).

Definition set_ai_input_buffer (v : option str) (s : AppState) : AppState :=
  Build_AppState (screen s) (prev_screen s) (profiles s) (profile_idx s)
  (selection_idx s) (message s) (tab_limit s) (delay s) (validation_thread s)
  (validation_cancel s) (validation_status s) (validation_total s)
  (validation_completed s) (validation_valid s) (validation_failed s)
  (validation_error s) (ai_prompt s) (ai_keywords s) (ai_locations s)
  (ai_companies s) (ai_company_selected s) (ai_company_filter s)
  (ai_filtered_companies s) (ai_company_batch_idx s) v.

(** [AppState.current_profile] *)
Definition current_profile (s : AppState) : Exc (option Profile) :=
  match profiles s with
  | [] => Ok None
  | _ => let* p := getitem (profiles s) (profile_idx s) in Ok (Some p)
  end.

(** ** Validation

    The worker thread runs [run_validation] while the interactive thread
    renders the counters. The worker's surroundings are the oracles of an
    [Env]:
    - [cancel_is_set i] is what [state.validation_cancel.is_set()] reads at
      the check before the URL at position [i] (the interactive thread sets
      the flag at a moment of its own choice);
    - [client_head i url] and [client_get i url] are the outcomes of the two
      requests for the URL at position [i]: a response, [HTTPError], or an
      exception of another class;
    - [write_text_fails path text] is [None] when [path.write_text(text)]
      succeeds, and otherwise the exception it raises together with what the
      failed call leaves in the file.
    The HTTP client itself is taken to open and to close without an
    exception. *)

Module Response.
Record t : Type := { status_code : Z; url : str }.
End Response.

Record Env : Type := {
  cancel_is_set : nat -> bool;
  client_head : nat -> str -> Exc Response.t;
  client_get : nat -> str -> Exc Response.t;
  write_text_fails : str * str -> str -> option (exn * option str)
}.

(** The program points at which the worker has just written the shared
    record; [AtStart] is the record as the thread finds it. *)
Inductive Point : Type :=
| AtStart
| SetCancelled      (* state.validation_status = "cancelled" *)
| SetCompleted      (* state.validation_completed += 1 *)
| SetValid          (* state.validation_valid = len(validated) *)
| SetFailed         (* state.validation_failed = len(failed) *)
| SetDone           (* state.validation_status = "done" *)
| SetError          (* state.validation_status = "error" *)
| SetErrorMessage.  (* state.validation_error = str(exc) *)

(** What the worker acts on: the shared record and the file system; and, in
    the order of time, every value of the record that the interactive thread
    can find (the value at the start and the value after each assignment of
    the worker), the URLs whose probe was started, and the [write_text] calls
    made. The worker takes no lock, so the other thread may look at the
    record between any two of its assignments: an observation is the value
    of the whole record at one such moment. *)
Record World : Type := {
  state : AppState;
  fs : gmap (str * str) str;
  observed : list (Point * AppState);
  probed : list str;
  writes : list ((str * str) * str)
}.

(** One assignment to the shared record. *)
Definition assign (pt : Point) (f : AppState -> AppState) (w : World) : World :=
  let s := f (state w) in
  {| state := s; fs := fs w; observed := observed w ++ [(pt, s)];
     probed := probed w; writes := writes w |}.

(** The worker turns to the network for [url]. *)
Definition start_probe (url : str) (w : World) : World :=
  {| state := state w; fs := fs w; observed := observed w;
     probed := probed w ++ [url]; writes := writes w |}.

(** [path.write_text(text)] *)
Definition write_text (env : Env) (p : str * str) (text : str) (w : World)
  : option exn * World :=
  match write_text_fails env p text with
  | None =>
      (None, {| state := state w; fs := <[p := text]> (fs w);
                observed := observed w; probed := probed w;
                writes := writes w ++ [(p, text)] |})
  | Some (e, remains) =>
      (Some e, {| state := state w;
                  fs := match remains with
                        | Some t => <[p := t]> (fs w)
                        | None => delete p (fs w)
                        end;
                  observed := observed w; probed := probed w;
                  writes := writes w ++ [(p, text)] |})
  end.

(** The body of the inner [try]: [Some] final URL, or [None]. An
    [httpx.HTTPError] is caught, any other exception leaves the loop. *)
Definition probe (env : Env) (i : nat) (url : str) : Exc (option str) :=
  let attempt :=
    let* resp := client_head env i url in
    let* resp := (if Response.status_code resp >=? 400
                  then client_get env i url else Ok resp) in
    Ok (if Response.status_code resp <? 400
        then Some (Response.url resp) else None) in
  match attempt with
  | Raise (HTTPError _) => Ok None
  | r => r
  end.

(** [if ok_url: validated.append(ok_url) else: failed.append(url)]; the
    empty string counts as false. *)
Definition classify (ok_url : option str) (url : str) (validated failed : list str)
  : list str * list str :=
  match ok_url with
  | Some u => if is_empty u then (validated, failed ++ [url])
              else (validated ++ [u], failed)
  | None => (validated, failed ++ [url])
  end.

(** How the [for] loop is left. *)
Inductive LoopExit : Type :=
| Cancelled
| Exhausted (validated failed : list str)
| Raised (e : exn).

Fixpoint validation_loop (env : Env) (i : nat) (urls validated failed : list str)
    (w : World) : LoopExit * World :=
  match urls with
  | [] => (Exhausted validated failed, w)
  | url :: rest =>
      if cancel_is_set env i
      then (Cancelled, assign SetCancelled (set_validation_status (lit "cancelled")) w)
      else
        let w := start_probe url w in
        match probe env i url with
        | Raise e => (Raised e, w)
        | Ok ok_url =>
            let '(validated, failed) := classify ok_url url validated failed in
            let w := assign SetCompleted
                       (fun s => set_validation_completed (validation_completed s + 1) s) w in
            let w := assign SetValid (set_validation_valid (len validated)) w in
            let w := assign SetFailed (set_validation_failed (len failed)) w in
            validation_loop env (S i) rest validated failed w
        end
  end.

Definition nl : str := [10%N].

Definition validated_text (validated : list str) : str := join nl validated ++ nl.

Definition report_lines (validated failed : list str) : list str :=
  [ lit "Validated: " ++ str_of_nat (length validated);
    lit "Failed: " ++ str_of_nat (length failed);
    [];
    lit "Failed URLs:" ] ++ failed.

Definition report_text (validated failed : list str) : str :=
  strip (join nl (report_lines validated failed)) ++ nl.

(** The [except Exception] clause. *)
Definition on_exception (e : exn) (w : World) : World :=
  let w := assign SetError (set_validation_status (lit "error")) w in
  assign SetErrorMessage (set_validation_error (exn_str e)) w.

Definition validated_path (profile : Profile) : str * str :=
  with_name (jobs_file profile) (lit "jobs_validated.txt").

Definition report_path (profile : Profile) : str * str :=
  with_name (jobs_file profile) (lit "jobs_report.txt").

Definition run_validation (env : Env) (profile : Profile) (w : World) : World :=
  match validation_loop env 0 (urls profile) [] [] w with
  | (Cancelled, w) => w
  | (Raised e, w) => on_exception e w
  | (Exhausted validated failed, w) =>
      let validated_path := validated_path profile in
      let report_path := report_path profile in
      match write_text env validated_path (validated_text validated) w with
      | (Some e, w) => on_exception e w
      | (None, w) =>
          match write_text env report_path (report_text validated failed) w with
          | (Some e, w) => on_exception e w
          | (None, w) => assign SetDone (set_validation_status (lit "done")) w
          end
      end
  end.

Definition start_validation (s : AppState) : Exc AppState :=
  let* cp := current_profile s in
  match cp with
  | None => Ok (set_message (lit "No URLs to validate") s)
  | Some profile =>
      if is_empty_list (urls profile)
      then Ok (set_message (lit "No URLs to validate") s)
      else
        let s := set_validation_cancel false s in
        let s := set_validation_status (lit "running") s in
        let s := set_validation_total (len (urls profile)) s in
        let s := set_validation_completed 0 s in
        let s := set_validation_valid 0 s in
        let s := set_validation_failed 0 s in
        let s := set_validation_error [] s in
        Ok (set_validation_thread (Some profile) s)
  end.

(** ** Input handling

    [read_key] returns one key name or one lower-cased character per call;
    the keys that the user types are a list of such values. A function that
    asks for a key when none is left waits: it yields [None]. *)

Definition backspace : str := [127%N].

Section Input.

(** The character tables of the runtime beyond ASCII stay parameters:
    [str.isdigit] and [str.isprintable] on a non-ASCII code point, and
    [int] on a string that is not a run of at most 4300 ASCII digits. *)
Variable isdigit_other : char -> bool.
Variable isprintable_other : char -> bool.
Variable int_other : str -> option Z.

Definition isdigit_char (c : char) : bool :=
  if (c <? 128)%N then is_ascii_digit c else isdigit_other c.

(** [s.isdigit()] *)
Definition isdigit (s : str) : bool :=
  negb (is_empty s) && forallb isdigit_char s.

(** [len(ch) == 1 and ch.isprintable()] *)
Definition is_printable_char (ch : str) : bool :=
  match ch with
  | [c] => if (c <? 128)%N then (32 <=? c)%N && (c <? 127)%N else isprintable_other c
  | _ => false
  end.

Definition decimal_value (s : str) : Z :=
  fold_left (fun acc c => 10 * acc + (Z.of_N c - 48)) s 0.

(** [int(s)]; [None] stands for [ValueError]. *)
Definition int (s : str) : option Z :=
  if negb (is_empty s) && forallb is_ascii_digit s && (length s <=? 4300)%nat
  then Some (decimal_value s)
  else int_other s.

(** The loop of [read_number]. *)
Fixpoint read_number_loop (default max_val : Z) (buffer : str) (keys : list str)
  : option (Z * list str) :=
  match keys with
  | [] => None
  | ch :: keys =>
      if str_eqb ch (lit "enter") then
        if is_empty buffer then Some (default, keys)
        else match int buffer with
             | Some val => Some (Z.min (Z.max 1 val) max_val, keys)
             | None => Some (default, keys)
             end
      else if str_eqb ch (lit "b") || str_eqb ch (lit "esc") then Some (-1, keys)
      else if isdigit ch then read_number_loop default max_val (buffer ++ ch) keys
      else if str_eqb ch backspace then read_number_loop default max_val (removelast buffer) keys
      else read_number_loop default max_val buffer keys
  end.

Definition read_number (default max_val : Z) (keys : list str)
  : option (Z * list str) :=
  read_number_loop default max_val [] keys.

(** The loop of [read_text_input]: the text and the cancelled flag. *)
Fixpoint read_text_input_loop (buffer : str) (keys : list str)
  : option ((str * bool) * list str) :=
  match keys with
  | [] => None
  | ch :: keys =>
      if str_eqb ch (lit "enter") then Some ((strip buffer, false), keys)
      else if str_eqb ch (lit "esc") then Some (([], true), keys)
      else if str_eqb ch backspace then read_text_input_loop (removelast buffer) keys
      else if is_printable_char ch then read_text_input_loop (buffer ++ ch) keys
      else read_text_input_loop buffer keys
  end.

Definition read_text_input (existing : str) (keys : list str)
  : option ((str * bool) * list str) :=
  read_text_input_loop existing keys.

End Input.

(** ** AI prompt generation *)

(** One entry of ["sources"] in [search_specs.json]: the lists under its
    ["keywords"] and ["locations"] keys, when it has them. *)
Record Source : Type := {
  keywords : option (list str);
  locations : option (list str)
}.

Definition generate_ai_prompt (keywords locations companies : list str) : str :=
  let comma := lit ", " in
  let prompt_parts := map lit [
    "# Job URL Search Request";
    "";
    "Find job posting URLs matching my criteria. Return ONLY valid, working URLs to active job listings.";
    "";
    "## Search Criteria";
    ""
  ]%string in
  let prompt_parts :=
    if is_empty_list keywords then prompt_parts
    else prompt_parts ++ [lit "**Keywords:** " ++ join comma keywords] in
  let prompt_parts :=
    if is_empty_list locations then prompt_parts
    else prompt_parts ++ [lit "**Locations:** " ++ join comma locations] in
  let prompt_parts :=
    if is_empty_list companies then prompt_parts
    else prompt_parts ++ [lit "**Target Companies:** " ++ join comma companies] in
  let prompt_parts := prompt_parts ++ map lit [
    "";
    "## Instructions";
    "";
    "1. Search for job postings matching the criteria above";
    "2. Find direct links to individual job postings (not search results pages)";
    "3. Prioritize jobs from company career pages, Greenhouse, Lever, Workday, and iCIMS";
    "4. Verify each URL points to an active job posting";
    "";
    "## Output Format";
    "";
    "Return URLs with work-type tags. Use this EXACT format:";
    "";
    "```";
    "[REMOTE] https://example.com/jobs/12345";
    "[HYBRID] https://company.greenhouse.io/jobs/67890";
    "[ON-SITE: Denver, CO] https://jobs.lever.co/company/abcdef";
    "[REMOTE] https://careers.company.com/jobs/99999";
    "```";
    "";
    "## Tag Definitions";
    "";
    "- `[REMOTE]` - Fully remote position";
    "- `[HYBRID]` - Mix of remote and on-site";
    "- `[ON-SITE: Location]` - Must work at specific location";
    "- If work type is unclear, use `[UNKNOWN]`";
    "";
    "## Requirements";
    "";
    "- Return 20-50 unique job URLs";
    "- Each URL must be a direct link to a specific job posting";
    "- URLs must start with https:// or http://";
    "- No duplicate URLs";
    "- No expired or closed job postings";
    "- No general career page URLs (must be specific job listings)";
    "";
    "## Example Valid URLs";
    "";
    "- `https://boards.greenhouse.io/company/jobs/123456`";
    "- `https://jobs.lever.co/company/abc-def-123`";
    "- `https://company.wd5.myworkdayjobs.com/careers/job/Location/Title_ID`";
    "- `https://careers.company.com/jobs/12345`";
    "";
    "Provide the tagged job URLs now, one per line."
  ]%string in
  join nl prompt_parts.

(** [x in l] on strings *)
Definition str_in (x : str) (l : list str) : bool := existsb (str_eqb x) l.

(** Append the items that the list does not hold yet, in order. *)
Definition append_new (items acc : list str) : list str :=
  fold_left (fun acc x => if str_in x acc then acc else acc ++ [x]) items acc.

(** [s.split(",")] *)
Fixpoint split_from (sep : char) (cur : str) (s : str) : list str :=
  match s with
  | [] => [rev cur]
  | c :: s' => if (c =? sep)%N then rev cur :: split_from sep [] s'
               else split_from sep (c :: cur) s'
  end.

Definition split (sep : char) (s : str) : list str := split_from sep [] s.

(** The loop shared by the keyword and the location prompt: each piece
    between commas, stripped, joins the list when it is non-empty and new. *)
Definition add_pieces (text : str) (acc : list str) : list str :=
  fold_left (fun acc piece =>
               let piece := strip piece in
               if negb (is_empty piece) && negb (str_in piece acc)
               then acc ++ [piece] else acc)
            (split 44 text) acc.

(** The run of the worker thread that [start_validation] has started on
    [profile], from the record [s0] and the files [files]. *)
Definition validation_run (env : Env) (profile : Profile)
    (files : gmap (str * str) str) (s0 : AppState) : World :=
  run_validation env profile
    {| state := s0; fs := files; observed := [(AtStart, s0)];
       probed := []; writes := [] |}.

(** [AppState()] *)
Definition initial_state : AppState := {|
  screen := MAIN_MENU; prev_screen := MAIN_MENU; profiles := []; profile_idx := 0;
  selection_idx := 0; message := []; tab_limit := DEFAULT_TAB_LIMIT;
  delay := DEFAULT_DELAY; validation_thread := None; validation_cancel := false;
  validation_status := lit "idle"; validation_total := 0;
  validation_completed := 0; validation_valid := 0; validation_failed := 0;
  validation_error := []; ai_prompt := []; ai_keywords := []; ai_locations := [];
  ai_companies := []; ai_company_selected := []; ai_company_filter := [];
  ai_filtered_companies := []; ai_company_batch_idx := None;
  ai_input_buffer := None
|}.

(** What one call of an input-reading handler comes to: the next state and
    the keys left, an exception that ends the program, or a wait for a key
    that is not there. *)
Inductive Step : Type :=
| Next (s : AppState) (keys : list str)
| Crash (e : exn)
| Waiting.

Definition step_of (r : Exc AppState) (keys : list str) : Step :=
  match r with
  | Ok s => Next s keys
  | Raise e => Crash e
  end.

Definition no_attribute (attr : string) : exn :=
  AttributeError (lit "'NoneType' object has no attribute '" ++ lit attr ++ lit "'").

Section Session.

Variable check_bracketed_netloc : str -> Exc unit.
Variable checknetloc_nfkc : str -> Exc unit.
Variable isdigit_other : char -> bool.
Variable isprintable_other : char -> bool.
Variable int_other : str -> option Z.

(** [load_search_specs profile], reduced to what its callers read: the
    entries of ["sources"], [None] when the file is absent or unreadable or
    has no such key. The entries are objects whose ["keywords"] and
    ["locations"], where present, are lists of strings. On a file of
    another form [init_ai_prompt_builder] raises [TypeError] or takes in
    entries that are not strings; such files are outside this model. *)
Variable load_search_specs : Profile -> option (list Source).

(** [copy_to_clipboard text] *)
Variable copy_to_clipboard : str -> bool.

(** [fetch_jobs_for_profile profile]: the count and the error text, and the
    files as the fetch script leaves them. *)
Variable fetch_jobs_for_profile :
  Profile -> gmap (str * str) str -> (Z * str) * gmap (str * str) str.

(** [Profile.reload_urls] *)
Definition reload_urls (fs : gmap (str * str) str) (p : Profile) : Exc Profile :=
  let* r := read_urls check_bracketed_netloc checknetloc_nfkc fs (jobs_file p) in
  let '(new_urls, _, _) := r in
  Ok {| name := name p; path := path p; jobs_file := jobs_file p;
        search_specs := search_specs p; urls := new_urls;
        url_count := len new_urls |}.

Definition init_ai_prompt_builder (s : AppState) : Exc AppState :=
  let* cp := current_profile s in
  let specs := match cp with
               | Some p => load_search_specs p
               | None => None
               end in
  let sources := match specs with Some l => l | None => [] end in
  let s := set_ai_keywords [] s in
  let s := set_ai_locations [] s in
  let s := set_ai_companies DEFAULT_COMPANIES s in
  let s := set_ai_company_selected (repeat false (length DEFAULT_COMPANIES)) s in
  let s := set_ai_company_batch_idx (Some 0) s in
  let s := set_ai_input_buffer (Some []) s in
  let s := set_ai_keywords
             (fold_left (fun acc src => match keywords src with
                                        | Some kws => append_new kws acc
                                        | None => acc
                                        end) sources (ai_keywords s)) s in
  let s := set_ai_locations
             (fold_left (fun acc src => match locations src with
                                        | Some locs => append_new locs acc
                                        | None => acc
                                        end) sources (ai_locations s)) s in
  Ok s.

Definition handle_ai_keywords (s : AppState) (key : str) (keys : list str) : Step :=
  if str_eqb key (lit "a") then
    match read_text_input isprintable_other [] keys with
    | None => Waiting
    | Some ((text, cancelled), keys) =>
        if negb cancelled && negb (is_empty text)
        then Next (set_ai_keywords (add_pieces text (ai_keywords s)) s) keys
        else Next s keys
    end
  else if str_eqb key (lit "c") then Next (set_ai_keywords [] s) keys
  else if str_eqb key (lit "n") then Next (set_screen AI_PROMPT_LOCATIONS s) keys
  else if str_eqb key (lit "b") || str_eqb key (lit "esc")
  then Next (set_screen MAIN_MENU s) keys
  else Next s keys.

Definition handle_ai_locations (s : AppState) (key : str) (keys : list str) : Step :=
  if str_eqb key (lit "a") then
    match read_text_input isprintable_other [] keys with
    | None => Waiting
    | Some ((text, cancelled), keys) =>
        if negb cancelled && negb (is_empty text)
        then Next (set_ai_locations (add_pieces text (ai_locations s)) s) keys
        else Next s keys
    end
  else if str_eqb key (lit "c") then Next (set_ai_locations [] s) keys
  else if str_eqb key (lit "n") then Next (set_screen AI_PROMPT_COMPANIES s) keys
  else if str_eqb key (lit "b") || str_eqb key (lit "esc")
  then Next (set_screen AI_PROMPT_KEYWORDS s) keys
  else Next s keys.

(** [l[i] = not l[i]] *)
Definition toggle (l : list bool) (i : Z) : Exc (list bool) :=
  let* b := getitem l i in setitem l i (negb b).

(** [[companies[i] for i in range(total) if selected[i]]] *)
Definition selected_companies (companies : list str) (selected : list bool)
    (total : Z) : Exc (list str) :=
  fold_left (fun acc i =>
               let* acc := acc in
               let* b := getitem selected (Z.of_nat i) in
               if b : bool
               then let* c := getitem companies (Z.of_nat i) in Ok (acc ++ [c])
               else Ok acc)
            (seq 0 (Z.to_nat total)) (Ok []).

Definition handle_ai_companies (s : AppState) (key : str) : Exc AppState :=
  let total := len (ai_companies s) in
  let* batch_idx := match ai_company_batch_idx s with
                    | Some b => Ok b
                    | None => Raise (AttributeError
                        (lit "'AppState' object has no attribute 'ai_company_batch_idx'"))
                    end in
  let start := batch_idx * COMPANY_BATCH_SIZE in
  let end_ := Z.min (start + COMPANY_BATCH_SIZE) total in
  let total_batches := (total + COMPANY_BATCH_SIZE - 1) / COMPANY_BATCH_SIZE in
  if str_eqb key (lit "j") || str_eqb key (lit "down") then
    if selection_idx s <? end_ - 1
    then Ok (set_selection_idx (selection_idx s + 1) s)
    else if batch_idx <? total_batches - 1
    then let s := set_ai_company_batch_idx (Some (batch_idx + 1)) s in
         Ok (set_selection_idx ((batch_idx + 1) * COMPANY_BATCH_SIZE) s)
    else Ok s
  else if str_eqb key (lit "k") || str_eqb key (lit "up") then
    if selection_idx s >? start
    then Ok (set_selection_idx (selection_idx s - 1) s)
    else if batch_idx >? 0
    then let s := set_ai_company_batch_idx (Some (batch_idx - 1)) s in
         let new_start := (batch_idx - 1) * COMPANY_BATCH_SIZE in
         Ok (set_selection_idx (Z.min (new_start + COMPANY_BATCH_SIZE - 1) (total - 1)) s)
    else Ok s
  else if str_eqb key (lit "<") || str_eqb key (lit ",") || str_eqb key (lit "left") then
    if batch_idx >? 0
    then let s := set_ai_company_batch_idx (Some (batch_idx - 1)) s in
         Ok (set_selection_idx ((batch_idx - 1) * COMPANY_BATCH_SIZE) s)
    else Ok s
  else if str_eqb key (lit ">") || str_eqb key (lit ".") || str_eqb key (lit "right") then
    if batch_idx <? total_batches - 1
    then let s := set_ai_company_batch_idx (Some (batch_idx + 1)) s in
         Ok (set_selection_idx ((batch_idx + 1) * COMPANY_BATCH_SIZE) s)
    else Ok s
  else if str_eqb key (lit " ") then
    if (start <=? selection_idx s) && (selection_idx s <? end_)
    then let* sel := toggle (ai_company_selected s) (selection_idx s) in
         Ok (set_ai_company_selected sel s)
    else Ok s
  else if isdigit isdigit_other key then
    match int int_other key with
    | None => Raise (ValueError (lit "invalid literal for int() with base 10"))
    | Some num =>
        let num := if num =? 0 then 10 else num in
        let idx := start + num - 1 in
        if idx <? end_
        then let* sel := toggle (ai_company_selected s) idx in
             Ok (set_ai_company_selected sel s)
        else Ok s
    end
  else if str_eqb key (lit "a")
  then Ok (set_ai_company_selected (repeat true (Z.to_nat total)) s)
  else if str_eqb key (lit "c")
  then Ok (set_ai_company_selected (repeat false (Z.to_nat total)) s)
  else if str_eqb key (lit "n") then
    let* chosen := selected_companies (ai_companies s) (ai_company_selected s) total in
    let s := set_ai_prompt (generate_ai_prompt (ai_keywords s) (ai_locations s) chosen) s in
    Ok (set_screen AI_PROMPT_DISPLAY s)
  else if str_eqb key (lit "b") || str_eqb key (lit "esc")
  then Ok (set_screen AI_PROMPT_LOCATIONS s)
  else Ok s.

Definition handle_ai_prompt_display (s : AppState) (key : str) : AppState :=
  if str_eqb key (lit "c") then
    if copy_to_clipboard (ai_prompt s)
    then set_message (lit "Prompt copied to clipboard!") s
    else set_message (lit "Failed to copy - manually select and copy") s
  else if str_eqb key (lit "e") then set_screen AI_PROMPT_KEYWORDS s
  else if str_eqb key (lit "b") || str_eqb key (lit "esc") || str_eqb key (lit "enter")
  then set_screen MAIN_MENU s
  else s.

(** ** Main loop *)

(** [not state.current_profile or not state.current_profile.urls] *)
Definition no_urls (s : AppState) : Exc bool :=
  let* cp := current_profile s in
  Ok match cp with
     | None => true
     | Some p => is_empty_list (urls p)
     end.

Definition handle_main_menu (s : AppState) (key : str) : Exc AppState :=
  if str_eqb key (lit "o") then
    let* none := no_urls s in
    if none : bool then Ok (set_message (lit "No URLs to open") s)
    else Ok (set_screen OPEN_SETTINGS (set_prev_screen MAIN_MENU s))
  else if str_eqb key (lit "f") then
    let* cp := current_profile s in
    match cp with
    | None => Ok (set_message (lit "No profile selected") s)
    | Some p =>
        match search_specs p with
        | None => Ok (set_message (lit "No search_specs.json in profile") s)
        | Some _ => Ok (set_screen FETCHING (set_prev_screen MAIN_MENU s))
        end
    end
  else if str_eqb key (lit "g") then
    let* cp := current_profile s in
    match cp with
    | None => Ok (set_message (lit "No profile selected") s)
    | Some _ =>
        let* s := init_ai_prompt_builder s in
        Ok (set_screen AI_PROMPT_KEYWORDS (set_prev_screen MAIN_MENU s))
    end
  else if str_eqb key (lit "v") then
    let* none := no_urls s in
    if none : bool then Ok (set_message (lit "No URLs to validate") s)
    else start_validation (set_screen VALIDATING (set_prev_screen MAIN_MENU s))
  else if str_eqb key (lit "p") then
    if is_empty_list (profiles s)
    then Ok (set_message (lit "No profiles available") s)
    else
      let s := set_selection_idx (profile_idx s) s in
      Ok (set_screen PROFILE_SELECT (set_prev_screen MAIN_MENU s))
  else if str_eqb key (lit "q") then Ok (set_screen QUIT s)
  else Ok s.

Definition handle_profile_select (fs : gmap (str * str) str) (s : AppState)
    (key : str) : Exc AppState :=
  if str_eqb key (lit "j") || str_eqb key (lit "down")
  then Ok (set_selection_idx (Z.min (selection_idx s + 1) (len (profiles s) - 1)) s)
  else if str_eqb key (lit "k") || str_eqb key (lit "up")
  then Ok (set_selection_idx (Z.max (selection_idx s - 1) 0) s)
  else if str_eqb key (lit "enter") then
    let s := set_profile_idx (selection_idx s) s in
    let* cp := current_profile s in
    match cp with
    | None => Raise (no_attribute "reload_urls")
    | Some p =>
        let* p := reload_urls fs p in
        let* ps := setitem (profiles s) (profile_idx s) p in
        Ok (set_screen MAIN_MENU (set_profiles ps s))
    end
  else if str_eqb key (lit "b") || str_eqb key (lit "esc")
  then Ok (set_screen MAIN_MENU s)
  else if str_eqb key (lit "q") then Ok (set_screen QUIT s)
  else Ok s.

Definition handle_open_settings (s : AppState) (keys : list str) : Step :=
  match current_profile s with
  | Raise e => Crash e
  | Ok None => Crash (no_attribute "urls")
  | Ok (Some profile) =>
      let max_urls := len (urls profile) in
      match read_number isdigit_other int_other
              (Z.min DEFAULT_TAB_LIMIT max_urls) max_urls keys with
      | None => Waiting
      | Some (tab_limit, keys) =>
          if tab_limit =? -1 then Next (set_screen MAIN_MENU s) keys
          else
            let s := set_tab_limit tab_limit s in
            match read_number isdigit_other int_other 150 5000 keys with
            | None => Waiting
            | Some (delay_raw, keys) =>
                if delay_raw =? -1 then Next (set_screen MAIN_MENU s) keys
                else
                  let s := set_delay (Qmake delay_raw 1000) s in
                  Next (set_screen OPENING s) keys
            end
      end
  end.

(** [l[:n]] *)
Definition slice_to {A : Type} (l : list A) (n : Z) : list A :=
  if 0 <=? n then firstn (Z.to_nat n) l
  else firstn (length l - Z.to_nat (- n)) l.

(** The URLs that [handle_opening] hands to the browser, in order. *)
Definition opening_urls (s : AppState) (profile : Profile) : list str :=
  slice_to (urls profile) (tab_limit s).

(** [handle_opening] as the record sees it when the browser starts and no
    call of [osascript] raises anything but [CalledProcessError], which the
    loop catches. The commands run, and the exceptions that end the session
    when one of them cannot be started, are in [handle_opening_run]. *)
Definition handle_opening (s : AppState) : Exc AppState :=
  let* cp := current_profile s in
  match cp with
  | None => Raise (no_attribute "urls")
  | Some profile =>
      let opened := opening_urls s profile in
      let s := set_message (lit "Opened " ++ str_of_nat (length opened) ++ lit " tabs") s in
      Ok (set_screen MAIN_MENU s)
  end.

Definition handle_validating (s : AppState) (key : str) : AppState :=
  if str_eqb (validation_status s) (lit "running") then
    if str_eqb key (lit "c") then set_validation_cancel true s else s
  else
    if str_eqb key (lit "b") || str_eqb key (lit "esc") || str_eqb key (lit "enter")
    then set_screen MAIN_MENU s
    else s.

(** [str(n)] for an integer *)
Definition str_of_int (n : Z) : str :=
  if n <? 0 then lit "-" ++ str_of_nat (Z.to_nat (- n)) else str_of_nat (Z.to_nat n).

Definition handle_fetching (fs : gmap (str * str) str) (s : AppState)
  : Exc AppState * gmap (str * str) str :=
  match current_profile s with
  | Raise e => (Raise e, fs)
  | Ok None => (Raise (no_attribute "search_specs"), fs)
  | Ok (Some profile) =>
      match search_specs profile with
      | None => (Raise (no_attribute "name"), fs)
      | Some _ =>
          let '((count, error), fs) := fetch_jobs_for_profile profile fs in
          if negb (is_empty error)
          then (Ok (set_screen MAIN_MENU
                      (set_message (lit "Fetch failed: " ++ error) s)), fs)
          else
            (let* p := reload_urls fs profile in
             let* ps := setitem (profiles s) (profile_idx s) p in
             let s := set_profiles ps s in
             let s := set_message (lit "Fetched " ++ str_of_int count ++ lit " jobs") s in
             Ok (set_screen MAIN_MENU s), fs)
      end
  end.

(** [render_message]: the message is shown once and cleared. *)
Definition render_message (s : AppState) : AppState := set_message [] s.

(** One turn of the [while] loop of [main] on a screen other than [QUIT].
    Rendering changes the record only through [render_message]. *)
Definition main_iteration (fs : gmap (str * str) str) (s : AppState)
    (keys : list str) : Step * gmap (str * str) str :=
  let with_key (s : AppState) (handle : str -> list str -> Step) : Step :=
    match keys with
    | [] => Waiting
    | key :: keys => handle key keys
    end in
  match screen s with
  | MAIN_MENU =>
      let s := render_message s in
      (with_key s (fun key keys => step_of (handle_main_menu s key) keys), fs)
  | PROFILE_SELECT =>
      let s := render_message s in
      (with_key s (fun key keys => step_of (handle_profile_select fs s key) keys), fs)
  | OPEN_SETTINGS => (handle_open_settings s keys, fs)
  | OPENING => (step_of (handle_opening s) keys, fs)
  | VALIDATING =>
      (with_key s (fun key keys => Next (handle_validating s key) keys), fs)
  | FETCHING =>
      let '(r, fs) := handle_fetching fs s in (step_of r keys, fs)
  | AI_PROMPT_KEYWORDS => (with_key s (handle_ai_keywords s), fs)
  | AI_PROMPT_LOCATIONS => (with_key s (handle_ai_locations s), fs)
  | AI_PROMPT_COMPANIES =>
      (with_key s (fun key keys => step_of (handle_ai_companies s key) keys), fs)
  | AI_PROMPT_DISPLAY =>
      (with_key s (fun key keys => Next (handle_ai_prompt_display s key) keys), fs)
  | QUIT => (Next s keys, fs)
  end.

(** The [while] loop, for at most [fuel] turns: the record when the loop
    ends, or when it stops to wait for a key that has not been typed yet. *)
Fixpoint main_loop (fuel : nat) (fs : gmap (str * str) str) (s : AppState)
    (keys : list str) : Exc AppState :=
  match fuel with
  | O => Ok s
  | S fuel =>
      match screen s with
      | QUIT => Ok s
      | _ =>
          match main_iteration fs s keys with
          | (Next s' keys', fs') => main_loop fuel fs' s' keys'
          | (Crash e, _) => Raise e
          | (Waiting, _) => Ok s
          end
      end
  end.

End Session.

(** ** Vocabulary of the properties *)

(** The list file of the scenario on reading a profile. *)
Definition scenario_text : str :=
  lit "https://a.com/job/1" ++ nl ++ nl ++ lit "example.com" ++ nl
  ++ lit "  bad line" ++ nl ++ lit "#comment" ++ nl.

Definition jobs_txt : str * str := (lit "profiles/default", lit "jobs.txt").

Definition scenario_fs : gmap (str * str) str := {[ jobs_txt := scenario_text ]}.

Definition scenario_urls : list str :=
  [lit "https://a.com/job/1"; lit "https://example.com"].

(** A point between two URLs: none of the three counter assignments of a URL
    is still due. *)
Definition between_urls (pt : Point) : bool :=
  match pt with
  | SetCompleted | SetValid => false
  | _ => true
  end.

(** What the counters of one observation satisfy in a run over [N] URLs. The
    sum of [valid] and [failed] lags at most one behind [completed], and is
    equal to it at every point between two URLs. *)
Definition counters_consistent (N : Z) (o : Point * AppState) : Prop :=
  let st := snd o in
  validation_total st = N /\
  validation_completed st <= validation_total st /\
  validation_valid st + validation_failed st <= validation_completed st /\
  validation_completed st <= validation_valid st + validation_failed st + 1 /\
  (between_urls (fst o) = true ->
   validation_valid st + validation_failed st = validation_completed st).

(** No counter of [a] exceeds its value in [b]. *)
Definition counters_le (a b : AppState) : Prop :=
  validation_completed a <= validation_completed b /\
  validation_valid a <= validation_valid b /\
  validation_failed a <= validation_failed b.

(** The claim on the counters as the specification words it, at one
    observation. *)
Definition counters_exact (N : Z) (o : Point * AppState) : Prop :=
  let st := snd o in
  validation_valid st + validation_failed st = validation_completed st /\
  validation_completed st <= validation_total st /\
  validation_total st = N.

(** What the worker's history satisfies while its record is [state w]:
    every observation is consistent, the observations do not decrease, and
    none of them is beyond the present record. *)
Record history_ok (N : Z) (w : World) : Prop := {
  hist_consistent : Forall (counters_consistent N) (observed w);
  hist_sorted : StronglySorted counters_le (map snd (observed w));
  hist_below : Forall (fun st => counters_le st (state w)) (map snd (observed w))
}.

(** The counters of the record between two URLs, [rest] being the number of
    URLs still to come. *)
Definition settled (N : Z) (validated failed : list str) (rest : Z) (st : AppState) : Prop :=
  validation_total st = N /\
  validation_valid st = len validated /\
  validation_failed st = len failed /\
  validation_completed st = len validated + len failed /\
  len validated + len failed + rest = N.

(** What the probe of the URL at position [i] establishes: the final URL
    of a valid link, or [None] for a failed one. *)
Definition probe_valid (env : Env) (i : nat) (url : str) : option str :=
  match probe env i url with
  | Ok (Some u) => if is_empty u then None else Some u
  | _ => None
  end.

(** The final URLs of the valid links among [urls], in probe order; [i] is
    the position of the first of them. *)
Fixpoint valid_urls (env : Env) (i : nat) (urls : list str) : list str :=
  match urls with
  | [] => []
  | url :: rest =>
      match probe_valid env i url with
      | Some u => u :: valid_urls env (S i) rest
      | None => valid_urls env (S i) rest
      end
  end.

(** The requested URLs of the failed links among [urls], in probe order. *)
Fixpoint failed_urls (env : Env) (i : nat) (urls : list str) : list str :=
  match urls with
  | [] => []
  | url :: rest =>
      match probe_valid env i url with
      | Some _ => failed_urls env (S i) rest
      | None => url :: failed_urls env (S i) rest
      end
  end.

(** What the files of the worker need of a URL: at least one character and
    no whitespace. Every canonical URL has both. *)
Definition canonical (u : str) : bool :=
  negb (is_empty u) && negb (existsb isspace u).

(** A canonical URL: an absolute [http] or [https] URL with a non-empty
    authority. It is a text without whitespace that [urlparse] takes
    apart into one of the two schemes and a [netloc] that is not empty. *)
Definition canonical_url (check_bracketed_netloc checknetloc_nfkc : str -> Exc unit)
    (u : str) : Prop :=
  canonical u = true /\
  exists parsed,
    urlparse check_bracketed_netloc checknetloc_nfkc u = Ok parsed /\
    (scheme parsed = lit "http" \/ scheme parsed = lit "https") /\
    netloc parsed <> [].

(** ** Sample runs *)

Definition sample_profile (urls : list str) : Profile := {|
  name := lit "default"; path := lit "profiles/default"; jobs_file := jobs_txt;
  search_specs := None; urls := urls; url_count := len urls |}.

Definition sample_state (urls : list str) : AppState :=
  set_profiles [sample_profile urls] initial_state.

Definition one_url : list str := [lit "https://a.com/job/1"].
Definition two_urls : list str := [lit "https://a.com/job/1"; lit "https://b.org/2"].

(** The record with which the thread starts on the sample profile. *)
Definition sample_running (urls : list str) : AppState :=
  match start_validation (sample_state urls) with
  | Ok s => s
  | Raise _ => sample_state urls
  end.

(** Every link answers 200 at its own address, nobody cancels, the disk
    takes every write. *)
Definition env_all_valid : Env := {|
  cancel_is_set := fun _ => false;
  client_head := fun _ url => Ok {| Response.status_code := 200; Response.url := url |};
  client_get := fun _ url => Ok {| Response.status_code := 200; Response.url := url |};
  write_text_fails := fun _ _ => None
|}.

(** Every link times out. *)
Definition env_all_failed : Env := {|
  cancel_is_set := fun _ => false;
  client_head := fun _ _ => Raise (HTTPError (lit "timed out"));
  client_get := fun _ _ => Raise (HTTPError (lit "timed out"));
  write_text_fails := fun _ _ => None
|}.


(** The disk takes the list of valid links and refuses to create the
    report. *)
Definition env_report_refused : Env := {|
  cancel_is_set := fun _ => false;
  client_head := client_head env_all_valid;
  client_get := client_get env_all_valid;
  write_text_fails := fun p _ =>
    if bool_decide (p = report_path (sample_profile one_url))
    then Some (OSError (lit "Permission denied"), None)
    else None
|}.

(** The files of the sample profile after an earlier run. *)
Definition sample_files : gmap (str * str) str :=
  {[ validated_path (sample_profile one_url) := lit "https://old.example/job" ++ nl ]}.

(** ** Vocabulary of the screens *)

(** The keys that move the cursor or the page of the company screen. *)
Definition is_navigation_key (key : str) : bool :=
  str_in key (map lit ["j"; "down"; "k"; "up"; "<"; ","; "left"; ">"; "."; "right"]%string).

(** A handler applied to one key after the other. *)
Fixpoint press_keys (handle : AppState -> str -> Exc AppState) (s : AppState)
    (keys : list str) : Exc AppState :=
  match keys with
  | [] => Ok s
  | key :: keys => let* s := handle s key in press_keys handle s keys
  end.

(** The cursor of the company screen lies on a candidate of the page that
    is displayed. *)
Definition cursor_on_page (s : AppState) : Prop :=
  match ai_company_batch_idx s with
  | Some b =>
      0 <= b /\
      b * COMPANY_BATCH_SIZE <= selection_idx s /\
      selection_idx s < b * COMPANY_BATCH_SIZE + COMPANY_BATCH_SIZE /\
      selection_idx s < len (ai_companies s)
  | None => False
  end.

(** The cursor and the page of the company screen lie inside the list of
    candidates. *)
Definition cursor_in_list (s : AppState) : Prop :=
  match ai_company_batch_idx s with
  | Some b =>
      0 <= b /\ b * COMPANY_BATCH_SIZE < len (ai_companies s) /\
      0 <= selection_idx s < len (ai_companies s)
  | None => False
  end.

(** The session with one profile of one link, as [main] enters its loop. *)
Definition session_start : AppState := sample_state one_url.

(** The keys that lead from the main menu to the company screen. *)
Definition to_companies : list str := map lit ["g"; "n"; "n"]%string.

(** To the company screen, on to its second page, back to the main menu and
    to the company screen again. *)
Definition companies_twice : list str :=
  map lit ["g"; "n"; "n"; ">"; "b"; "b"; "b"; "g"; "n"; "n"]%string.

(** A profile directory with an empty list file and no configuration
    file, named after its number. *)
Definition numbered_profile (i : nat) : Profile := {|
  name := lit "profile" ++ str_of_nat i;
  path := lit "profiles/profile" ++ str_of_nat i;
  jobs_file := (lit "profiles/profile" ++ str_of_nat i, lit "jobs.txt");
  search_specs := None; urls := []; url_count := 0 |}.

(** The session with 46 profiles, as [main] enters its loop, and the files
    of the profiles. The numbers start at 10, so that the names are in order
    as [load_profiles] sorts them. *)
Definition many_profiles : list Profile := map numbered_profile (seq 10 46).

Definition many_profiles_start : AppState := set_profiles many_profiles initial_state.

Definition many_profiles_files : gmap (str * str) str :=
  list_to_map (map (fun p => (jobs_file p, [])) many_profiles).

(** To the profile screen, down to the last of the 46 profiles, which Enter
    selects, and through the prompt builder to the company screen. *)
Definition last_profile_to_companies : list str :=
  lit "p" :: repeat (lit "j") 45 ++ map lit ["enter"; "g"; "n"; "n"]%string.

(** The main loop in surroundings without surprises: no validator of the
    URL parser objects, the character tables end with ASCII, the profile has
    no configuration file, the clipboard is out of reach and the fetch script
    changes nothing. *)
Definition plain_main_loop (fuel : nat) (s : AppState) (keys : list str) : Exc AppState :=
  main_loop (fun _ => Ok tt) (fun _ => Ok tt) (fun _ => false) (fun _ => false)
            (fun _ => None) (fun _ => None) (fun _ => false)
            (fun _ files => ((0, lit "Fetch failed"), files))
            fuel ∅ s keys.

(** The record on the first visit of the company screen. *)
Definition companies_entered : AppState :=
  match plain_main_loop 10 session_start to_companies with
  | Ok s => s
  | Raise _ => session_start
  end.

(** Down across the first page and one step up again. *)
Definition down_and_up : list str :=
  repeat (lit "down") 10 ++ [lit "k"].


(** ** Vocabulary of the worker's reach *)

(** The fields of the session record that [run_validation] never assigns:
    everything but the status, the three counters it moves and the error
    text. *)
Definition session_part (s : AppState) :=
  ((screen s, prev_screen s, profiles s, profile_idx s, selection_idx s),
   (message s, tab_limit s, delay s, validation_thread s, validation_cancel s),
   validation_total s,
   (ai_prompt s, ai_keywords s, ai_locations s, ai_companies s),
   (ai_company_selected s, ai_company_filter s, ai_filtered_companies s,
    ai_company_batch_idx s, ai_input_buffer s)).

(** The second link of the run cannot even be put on the wire. *)
Definition env_second_invalid : Env := {|
  cancel_is_set := fun _ => false;
  client_head := fun i url =>
    match i with
    | 1%nat => Raise (OtherError (lit "Invalid URL"))
    | _ => Ok {| Response.status_code := 200; Response.url := url |}
    end;
  client_get := client_get env_all_valid;
  write_text_fails := fun _ _ => None
|}.

(** Every value that the worker has left in the record, and the present one,
    agree with [s0] outside the worker's own fields. *)
Definition within_reach (s0 : AppState) (w : World) : Prop :=
  Forall (fun o => session_part (snd o) = session_part s0) (observed w) /\
  session_part (state w) = session_part s0.

(** Every [write_text] call so far went to one of the two artifacts of
    [profile], and the files other than these two are those of [files]. *)
Definition artifacts_only (profile : Profile) (files : gmap (str * str) str)
    (w : World) : Prop :=
  Forall (fun c => fst c = validated_path profile \/ fst c = report_path profile)
         (writes w) /\
  delete (report_path profile) (delete (validated_path profile) (fs w))
  = delete (report_path profile) (delete (validated_path profile) files).

(** ** Vocabulary of the list reader *)

(** A line that [strip] empties. *)
Definition is_blank (raw : str) : bool := is_empty (strip raw).

(** The text in which a list of URLs is written to a file: one URL a line. *)
Definition url_lines (urls : list str) : str := join nl urls ++ nl.

(** A text that [urlsplit] takes for a scheme when a colon follows it: an
    ASCII letter first, then letters, digits, [+], [-] and [.] only. *)
Definition scheme_like (host : str) : bool :=
  match host with
  | c :: _ => is_ascii_alpha c && forallb in_scheme_chars host
  | [] => false
  end.

(** A printable ASCII character other than the blank. *)
Definition is_plain (c : char) : bool := ((32 <? c) && (c <? 127))%N.

(** The file to which the URLs of the scenario are written back. *)
Definition written_back : gmap (str * str) str :=
  {[ (lit "profiles/default", lit "jobs_validated.txt") := url_lines scenario_urls ]}.

(** ** The keyboard

    [read_key] puts the terminal in raw mode and reads it one character per
    [sys.stdin.read(1)]. Each call sets raw mode anew, with [tty.setraw],
    which discards what was typed and not yet read: what the user types
    ahead of a call can be lost. The list [input] is therefore not what the
    user types but what the reads return, one character per
    [sys.stdin.read(1)], in the order of the reads; a read for which nothing
    is there waits, which is [None]. *)

Section Keyboard.

(** [ch.lower()] on one character outside ASCII stays a parameter. *)
Variable lower_other : char -> str.

Definition lower_char (c : char) : str :=
  if (c <? 128)%N then [ascii_lower c] else lower_other c.

(** [read_key]: the key, and the characters that later reads return. *)
Definition read_key (input : list char) : option (str * list char) :=
  match input with
  | [] => None
  | ch :: input =>
      if (ch =? 27)%N then
        match input with
        | [] => None
        | ch2 :: input =>
            if (ch2 =? 91)%N then
              match input with
              | [] => None
              | ch3 :: input =>
                  if (ch3 =? 65)%N then Some (lit "up", input)
                  else if (ch3 =? 66)%N then Some (lit "down", input)
                  else if (ch3 =? 67)%N then Some (lit "right", input)
                  else if (ch3 =? 68)%N then Some (lit "left", input)
                  else Some (lit "esc", input)
              end
            else Some (lit "esc", input)
        end
      else if (ch =? 13)%N || (ch =? 10)%N then Some (lit "enter", input)
      else if (ch =? 3)%N then Some (lit "q", input)
      else Some (lower_char ch, input)
  end.

(** The keys that successive calls of [read_key] return, up to the call
    that waits. No call reads fewer than one character, so the length of
    the input bounds the number of calls. *)
Fixpoint read_keys_upto (calls : nat) (input : list char) : list str :=
  match calls with
  | O => []
  | S calls =>
      match read_key input with
      | Some (key, input) => key :: read_keys_upto calls input
      | None => []
      end
  end.

Definition read_keys (input : list char) : list str :=
  read_keys_upto (length input) input.

End Keyboard.

(** A printable ASCII character, the blank among them. *)
Definition is_printable_ascii (c : char) : bool := ((32 <=? c) && (c <? 127))%N.

(** ** Vocabulary of the session *)

(** The four screens of the prompt builder. *)
Definition on_prompt_builder (sc : Screen) : bool :=
  match sc with
  | AI_PROMPT_KEYWORDS | AI_PROMPT_LOCATIONS | AI_PROMPT_COMPANIES
  | AI_PROMPT_DISPLAY => true
  | _ => false
  end.

(** What [main] establishes before its loop and what the handlers rely on:
    the index of the current profile is a position of the profile list; on
    the profile screen the cursor is one too; the fetch screen is entered
    for a profile with a configuration file only; and the prompt-builder
    screens are entered only once [init_ai_prompt_builder] has run, from
    where on the page index is not negative and the company list has one
    flag per company. *)
Definition session_ok (s : AppState) : Prop :=
  0 <= profile_idx s < len (profiles s) /\
  (screen s = PROFILE_SELECT -> 0 <= selection_idx s < len (profiles s)) /\
  (screen s = FETCHING ->
   exists p, current_profile s = Ok (Some p) /\ search_specs p <> None) /\
  match ai_company_batch_idx s with
  | Some b => 0 <= b /\ len (ai_company_selected s) = len (ai_companies s)
  | None => on_prompt_builder (screen s) = false
  end.

(** The record that a handler returns is in order; of a handler that
    raises nothing is said. *)
Definition in_order (r : Exc AppState) : Prop :=
  match r with
  | Ok s => session_ok s
  | Raise _ => True
  end.

Definition step_in_order (st : Step) : Prop :=
  match st with
  | Next s _ => session_ok s
  | Crash _ => True
  | Waiting => True
  end.

(** ** Vocabulary of the prompt builder *)

(** Neither list of the prompt builder holds an entry twice. *)
Definition lists_distinct (s : AppState) : Prop :=
  NoDup (ai_keywords s) /\ NoDup (ai_locations s).

(** An entry as the text prompt leaves it: not empty, no white space at
    either end, no comma. *)
Definition is_clean_entry (x : str) : Prop :=
  is_empty x = false /\ strip x = x /\ contains 44 x = false.

Definition step_distinct (st : Step) : Prop :=
  match st with
  | Next s _ => lists_distinct s
  | _ => True
  end.

(** ** The fetch script

    [fetch_jobs.py], which the session runs as a child process. Of a job
    that an API returns, the script reads three entries; a job is modelled
    by what [dict.get] finds for them, [None] for a key that is absent. The
    values are strings, as both APIs send them. *)

Module Greenhouse.
(** [location] is the object under ["location"], reduced to its ["name"]
    entry: [None] without the object, [Some None] for an object without a
    name. *)
Record job : Type := {
  title : option str;
  location : option (option str);
  absolute_url : option str
}.
End Greenhouse.

Module Lever.
(** [location] is the entry ["location"] of the object under
    ["categories"]. *)
Record job : Type := {
  text : option str;
  categories : option (option str);
  hostedUrl : option str
}.
End Lever.

(** [d.get(key, "")] *)
Definition get_str (v : option str) : str :=
  match v with Some s => s | None => [] end.

(** [d.get(key, {}).get(name, "")] *)
Definition get_nested (v : option (option str)) : str :=
  match v with Some (Some s) => s | _ => [] end.

(** [sub in s] on strings: [sub] occurs in [s] as a run of consecutive
    characters. *)
Fixpoint startswith (sub s : str) : bool :=
  match sub, s with
  | [], _ => true
  | c :: sub, x :: s => (c =? x)%N && startswith sub s
  | _ :: _, [] => false
  end.

Fixpoint substring_in (sub s : str) : bool :=
  startswith sub s ||
  match s with
  | [] => false
  | _ :: s' => substring_in sub s'
  end.

Section FetchScript.

(** [str.lower] of the runtime; it is not a map over the characters (the
    Greek capital sigma is lowered by its position in the word). *)
Variable lower : str -> str.

(** An absent or empty list gives no terms. *)
Definition normalize_terms (terms : option (list str)) : list str :=
  match terms with
  | None => []
  | Some terms =>
      map (fun t => lower (strip t))
          (List.filter (fun t => negb (is_empty (strip t))) terms)
  end.

Definition matches_terms (text : str) (terms : list str) : bool :=
  if is_empty_list terms then true
  else
    let lowered := lower text in
    existsb (fun term => substring_in term lowered) terms.

Definition matches_job (title location : str) (keywords locations : list str) : bool :=
  if negb (is_empty_list keywords)
     && negb (matches_terms title keywords || matches_terms location keywords)
  then false
  else if negb (is_empty_list locations) && negb (matches_terms location locations)
  then false
  else true.

(** [max_results and len(results) >= max_results]: an absent limit and the
    limit 0 count as false. *)
Definition limit_reached (max_results : option Z) (results : list str) : bool :=
  match max_results with
  | None => false
  | Some m => negb (m =? 0) && (len results >=? m)
  end.

(** The loop of [extract_greenhouse_jobs] from [results] on. A job without
    URL takes the [continue], past the test of the limit. *)
Fixpoint extract_greenhouse_from (jobs : list Greenhouse.job)
    (keywords locations : list str) (max_results : option Z) (results : list str)
  : list str :=
  match jobs with
  | [] => results
  | job :: jobs =>
      let title := get_str (Greenhouse.title job) in
      let location := get_nested (Greenhouse.location job) in
      let url := get_str (Greenhouse.absolute_url job) in
      if is_empty url
      then extract_greenhouse_from jobs keywords locations max_results results
      else
        let results := if matches_job title location keywords locations
                       then results ++ [url] else results in
        if limit_reached max_results results then results
        else extract_greenhouse_from jobs keywords locations max_results results
  end.

Definition extract_greenhouse_jobs (jobs : list Greenhouse.job)
    (keywords locations : list str) (max_results : option Z) : list str :=
  extract_greenhouse_from jobs keywords locations max_results [].

Fixpoint extract_lever_from (jobs : list Lever.job)
    (keywords locations : list str) (max_results : option Z) (results : list str)
  : list str :=
  match jobs with
  | [] => results
  | job :: jobs =>
      let title := get_str (Lever.text job) in
      let location := get_nested (Lever.categories job) in
      let url := get_str (Lever.hostedUrl job) in
      if is_empty url
      then extract_lever_from jobs keywords locations max_results results
      else
        let results := if matches_job title location keywords locations
                       then results ++ [url] else results in
        if limit_reached max_results results then results
        else extract_lever_from jobs keywords locations max_results results
  end.

Definition extract_lever_jobs (jobs : list Lever.job)
    (keywords locations : list str) (max_results : option Z) : list str :=
  extract_lever_from jobs keywords locations max_results [].

End FetchScript.

(** [unique_preserve_order]: the set of the URLs seen and the list built. *)
Definition unique_step (acc : gset (list N) * list str) (url : str)
  : gset (list N) * list str :=
  let '(seen, ordered) := acc in
  if decide (url ∈ seen) then (seen, ordered)
  else ({[ url ]} ∪ seen, ordered ++ [url]).

Definition unique_preserve_order (urls : list str) : list str :=
  snd (fold_left unique_step urls (∅, [])).

(** What [main] prints after it has written the URLs to [output_path]. *)
Definition wrote_line (all_urls : list str) (output_path : str) : str :=
  lit "Wrote " ++ str_of_nat (length all_urls) ++ lit " URLs to " ++ output_path.

(** ** The fetch as the session runs it

    [fetch_jobs_for_profile] runs the fetch script as a child process and
    reads the count of URLs off its output. *)

(** What [subprocess.run] comes to: a finished process, the time-out, or
    another exception. *)
Inductive RunOutcome : Type :=
| Completed (returncode : Z) (stdout stderr : str)
| TimeoutExpired
| RunError (e : exn).

(** [s.split()]: the runs of characters between white space. *)
Fixpoint split_whitespace_from (cur : str) (s : str) : list str :=
  match s with
  | [] => match cur with [] => [] | _ => [rev cur] end
  | c :: s' =>
      if isspace c
      then match cur with
           | [] => split_whitespace_from [] s'
           | _ => rev cur :: split_whitespace_from [] s'
           end
      else split_whitespace_from (c :: cur) s'
  end.

Definition split_whitespace (s : str) : list str := split_whitespace_from [] s.

Module Fetch.
Section Fetch.

Variable int_other : str -> option Z.

(** The loop over the lines of the output: the count of the first line
    that names one. A line whose second word is missing or is no number is
    passed over. *)
Fixpoint wrote_count (lines : list str) : option Z :=
  match lines with
  | [] => None
  | line :: lines =>
      if substring_in (lit "Wrote") line && substring_in (lit "URLs") line
      then match split_whitespace line !! 1%nat with
           | Some word =>
               match int int_other word with
               | Some count => Some count
               | None => wrote_count lines
               end
           | None => wrote_count lines
           end
      else wrote_count lines
  end.

Definition fetch_jobs_for_profile (profile : Profile) (run : RunOutcome) : Z * str :=
  match search_specs profile with
  | None => (0, lit "No search_specs.json in profile")
  | Some _ =>
      match run with
      | Completed returncode stdout stderr =>
          if negb (returncode =? 0)
          then (0, if is_empty (strip stderr) then lit "Fetch failed" else strip stderr)
          else
            let output := strip stdout in
            match wrote_count (splitlines output) with
            | Some count => (count, [])
            | None => (0, output)
            end
      | TimeoutExpired => (0, lit "Fetch timed out")
      | RunError e => (0, exn_str e)
      end
  end.

End Fetch.
End Fetch.

(** The end of [main] of the fetch script, from the URLs that the sources
    gave: the file system and the lines printed. [shown] is [str(output_path)]. *)
Definition write_fetched (all_urls : list str) (output_path : str * str) (shown : str)
    (fs : gmap (str * str) str) : gmap (str * str) str * list str :=
  let all_urls := unique_preserve_order all_urls in
  if is_empty_list all_urls then (fs, [lit "No URLs found."])
  else (<[output_path := url_lines all_urls]> fs, [wrote_line all_urls shown]).

(** The standard output of a process that has printed [lines]. *)
Definition printed (lines : list str) : str :=
  flat_map (fun line => line ++ nl) lines.

(** A line that the script prints for a source it passes over, when the
    text it quotes brings neither a line break nor the word of the last
    line. *)
Definition plain_warning (line : str) : bool :=
  startswith (lit "WARN: ") line
  && negb (existsb is_linebreak line)
  && negb (substring_in (lit "Wrote") line).

(** A profile with a configuration file, and the session on its fetch
    screen. *)
Definition fetch_profile : Profile := {|
  name := lit "default"; path := lit "profiles/default"; jobs_file := jobs_txt;
  search_specs := Some (lit "profiles/default", lit "search_specs.json");
  urls := []; url_count := 0 |}.

Definition fetching_state : AppState :=
  set_screen FETCHING (set_profiles [fetch_profile] initial_state).

(** What two sources have found, one URL twice. *)
Definition found_twice : list str :=
  [lit "https://a.com/job/1"; lit "https://example.com"; lit "https://a.com/job/1"].

(** ** Opening a tab *)

(** [s.replace(c, rep)] for a one-character [c]. *)
Definition replace_char (c : char) (rep : str) (s : str) : str :=
  flat_map (fun x => if (x =? c)%N then rep else [x]) s.

(** Backslashes first, then double quotes. *)
Definition escape_applescript_string (value : str) : str :=
  replace_char 34 [92; 34]%N (replace_char 92 [92; 92]%N value).

(** The script that [open_in_chrome] hands to [osascript]. *)
Definition open_in_chrome_script (url : str) : str :=
  let safe_url := escape_applescript_string url in
  lit "tell application " ++ [34%N] ++ lit "Google Chrome" ++ [34%N]
  ++ lit " to open location " ++ [34%N] ++ safe_url ++ [34%N].

(** How a quoted text is read back, from behind its opening quote: a
    backslash stands with the backslash or the quote behind it for that
    character, and the first quote that is not taken this way closes the
    text. The text read and what follows the closing quote; [None] when no
    quote closes the text or a backslash precedes another character. *)
Fixpoint read_quoted (s : str) : option (str * str) :=
  match s with
  | [] => None
  | c :: s' =>
      if (c =? 34)%N then Some ([], s')
      else if (c =? 92)%N then
        match s' with
        | [] => None
        | d :: s'' =>
            if (d =? 92)%N || (d =? 34)%N
            then match read_quoted s'' with
                 | Some (v, rest) => Some (d :: v, rest)
                 | None => None
                 end
            else None
        end
      else match read_quoted s' with
           | Some (v, rest) => Some (c :: v, rest)
           | None => None
           end
  end.

(** ** Opening the tabs *)

(** What a call of [subprocess.run] with [check=True] does: it returns, it
    raises [CalledProcessError] when the command has failed, or it raises
    another exception, as it does when the command cannot be started. *)
Inductive CallOutcome : Type :=
| Returned
| CalledProcessError
| CallRaised (e : exn).

(** The commands that the tab-opening screen runs and the pauses it makes. *)
Inductive BrowserCall : Type :=
| OpenChrome
| Osascript (script : str)
| Sleep (seconds : Q).

(** The scripts among the calls, in their order. *)
Definition scripts_run (calls : list BrowserCall) : list str :=
  flat_map (fun c => match c with Osascript script => [script] | _ => [] end) calls.

(** [open_in_chrome url]. [osascript script] is what the call of
    [subprocess.run] on [osascript -e script] does. *)
Definition open_in_chrome (osascript : str -> CallOutcome) (url : str) : CallOutcome :=
  osascript (open_in_chrome_script url).

(** The loop of [handle_opening] from its [i]-th URL on: the exception that
    ends it, if one does, and the calls made. [CalledProcessError] is
    caught and the loop goes on; the pause is made when the delay is not
    zero. *)
Fixpoint open_tabs (osascript : nat -> str -> CallOutcome) (delay : Q) (i : nat)
    (urls : list str) : option exn * list BrowserCall :=
  match urls with
  | [] => (None, [])
  | url :: rest =>
      let call := Osascript (open_in_chrome_script url) in
      match open_in_chrome (osascript i) url with
      | CallRaised e => (Some e, [call])
      | Returned | CalledProcessError =>
          let pause := if Qeq_bool delay 0 then [] else [Sleep delay] in
          let '(r, calls) := open_tabs osascript delay (S i) rest in
          (r, call :: pause ++ calls)
      end
  end.

(** [handle_opening] with the commands it runs. [open_chrome] is what the
    call of [subprocess.run] on [open -a "Google Chrome"] does: with
    [check=False] it returns whatever the command does, or raises the
    exception given. [osascript i] is what the [i]-th call of [osascript]
    does. The record is assigned to only after the loop. *)
Definition handle_opening_run (open_chrome : option exn)
    (osascript : nat -> str -> CallOutcome) (s : AppState)
  : Exc AppState * list BrowserCall :=
  match current_profile s with
  | Raise e => (Raise e, [])
  | Ok None => (Raise (no_attribute "urls"), [])
  | Ok (Some profile) =>
      let urls := opening_urls s profile in
      match open_chrome with
      | Some e => (Raise e, [OpenChrome])
      | None =>
          let '(r, calls) := open_tabs osascript (delay s) 0 urls in
          match r with
          | Some e => (Raise e, OpenChrome :: calls)
          | None =>
              let s := set_message
                         (lit "Opened " ++ str_of_nat (length urls) ++ lit " tabs") s in
              (Ok (set_screen MAIN_MENU s), OpenChrome :: calls)
          end
      end
  end.

(** No call of [osascript] raises anything but [CalledProcessError]. *)
Definition osascript_starts (osascript : nat -> str -> CallOutcome) : Prop :=
  forall i script, match osascript i script with
                   | CallRaised _ => False
                   | _ => True
                   end.

(** The first call of [osascript] fails, the others return. *)
Definition first_call_fails (i : nat) (script : str) : CallOutcome :=
  match i with
  | O => CalledProcessError
  | S _ => Returned
  end.

(** * Properties *)

(** ** Strings *)

Lemma str_eqb_eq (a b : str) : str_eqb a b = true <-> a = b.
Proof.
  revert b. induction a as [|x a IH]; intros [|y b]; simpl; split;
    try discriminate; try reflexivity.
  - intros H. apply andb_prop in H as [Hx Hab].
    apply N.eqb_eq in Hx. apply IH in Hab. congruence.
  - intros H. injection H as -> ->. rewrite N.eqb_refl. simpl. apply IH. reflexivity.
Qed.

(** ** Stripping *)

Lemma lstrip_with_app_all (p : char -> bool) (pre s : str) :
  forallb p pre = true -> lstrip_with p (pre ++ s) = lstrip_with p s.
Proof.
  induction pre as [|c pre IH]; simpl; [reflexivity|].
  intros H. apply andb_prop in H as [Hc Hpre]. rewrite Hc. auto.
Qed.

Lemma lstrip_with_all (p : char -> bool) (s : str) :
  forallb p s = true -> lstrip_with p s = [].
Proof.
  intros H. rewrite <- (app_nil_r s), lstrip_with_app_all by assumption. reflexivity.
Qed.

Lemma lstrip_with_nil (p : char -> bool) (s : str) :
  lstrip_with p s = [] -> forallb p s = true.
Proof.
  induction s as [|c s IH]; simpl; [reflexivity|].
  destruct (p c); [exact IH | discriminate].
Qed.

Lemma lstrip_with_app_keep (p : char -> bool) (s t : str) :
  lstrip_with p s <> [] -> lstrip_with p (s ++ t) = lstrip_with p s ++ t.
Proof.
  induction s as [|c s IH]; simpl; [congruence|].
  destruct (p c); [exact IH | reflexivity].
Qed.

Lemma forallb_rev {A : Type} (p : A -> bool) (l : list A) :
  forallb p (rev l) = forallb p l.
Proof.
  induction l as [|x l IH]; simpl; [reflexivity|].
  rewrite forallb_app, IH. simpl. rewrite andb_true_r. apply andb_comm.
Qed.

Lemma rstrip_with_app_all (p : char -> bool) (s post : str) :
  forallb p post = true -> rstrip_with p (s ++ post) = rstrip_with p s.
Proof.
  intros H. unfold rstrip_with.
  rewrite rev_app_distr, lstrip_with_app_all; [reflexivity|].
  rewrite forallb_rev. exact H.
Qed.

(** Whitespace around a line does not reach the text that [strip] returns. *)
Lemma strip_surrounded (pre raw post : str) :
  forallb isspace pre = true -> forallb isspace post = true ->
  strip (pre ++ raw ++ post) = strip raw.
Proof.
  intros Hpre Hpost. unfold strip.
  rewrite lstrip_with_app_all by assumption.
  destruct (lstrip_with isspace raw) as [|c r] eqn:E.
  - apply lstrip_with_nil in E.
    rewrite lstrip_with_app_all by assumption.
    rewrite (lstrip_with_all _ _ Hpost). reflexivity.
  - rewrite lstrip_with_app_keep by (rewrite E; discriminate).
    rewrite E. apply rstrip_with_app_all. exact Hpost.
Qed.

Lemma lstrip_with_none (p : char -> bool) (s : str) :
  existsb p s = false -> lstrip_with p s = s.
Proof.
  destruct s as [|c s]; simpl; [reflexivity|].
  intros H. apply orb_false_elim in H as [Hc _]. rewrite Hc. reflexivity.
Qed.

Lemma existsb_rev {A : Type} (p : A -> bool) (l : list A) :
  existsb p (rev l) = existsb p l.
Proof.
  induction l as [|x l IH]; simpl; [reflexivity|].
  rewrite existsb_app, IH. simpl. rewrite orb_false_r. apply orb_comm.
Qed.

(** A text without whitespace is its own [strip]. *)
Lemma strip_none (s : str) : existsb isspace s = false -> strip s = s.
Proof.
  intros H. unfold strip, rstrip_with.
  rewrite (lstrip_with_none _ _ H).
  rewrite lstrip_with_none by (rewrite existsb_rev; exact H).
  apply rev_involutive.
Qed.

Lemma remove_char_absent (c : char) (s : str) :
  contains c s = false -> remove_char c s = s.
Proof.
  unfold contains, remove_char.
  induction s as [|x s IH]; simpl; [reflexivity|].
  intros H. apply orb_false_elim in H as [Hx Hs].
  rewrite N.eqb_sym, Hx. simpl. f_equal. auto.
Qed.

Lemma no_space_no_char (c : char) (s : str) :
  isspace c = true -> existsb isspace s = false -> contains c s = false.
Proof.
  intros Hc. unfold contains.
  induction s as [|x s IH]; simpl; [reflexivity|].
  intros H. apply orb_false_elim in H as [Hx Hs].
  rewrite (IH Hs), orb_false_r.
  destruct (N.eqb_spec c x) as [->|]; [congruence | reflexivity].
Qed.

(** The first two steps of the normalizer leave a line without whitespace
    as it is. *)
Lemma clean_none (s : str) :
  existsb isspace s = false -> remove_char 13 (strip s) = s.
Proof.
  intros H. rewrite (strip_none _ H).
  apply remove_char_absent, no_space_no_char; [reflexivity | exact H].
Qed.

(** ** The URL normalizer *)

Section NormalizerFacts.

Variable check_bracketed_netloc : str -> Exc unit.
Variable checknetloc_nfkc : str -> Exc unit.

Let normalize := normalize_url check_bracketed_netloc checknetloc_nfkc.
Let parse := urlparse check_bracketed_netloc checknetloc_nfkc.

(** C4, as the code has it. On the list file of the scenario [read_urls]
    returns the two normalized URLs and a skipped count of 2 out of 5 lines:
    the line with inner whitespace and the comment line are both counted,
    only the blank line is not. *)
Theorem read_urls_scenario :
  read_urls check_bracketed_netloc checknetloc_nfkc scenario_fs jobs_txt
  = Ok (scenario_urls, 2, 5).
Proof. vm_compute. reflexivity. Qed.

(** C7, the failing input. An opening bracket without its closing bracket in
    the authority makes [urlparse] raise, and [normalize_url] lets the
    [ValueError] through: it returns neither a URL nor [None]. *)
Theorem normalize_url_raises :
  normalize_url check_bracketed_netloc checknetloc_nfkc (lit "http://[")
  = Raise (ValueError (lit "Invalid IPv6 URL")).
Proof. vm_compute. reflexivity. Qed.

(** The same happens on a line without a scheme, at the second parse. *)
Lemma schemeless_bracket_raises :
  normalize (lit "[") = Raise (ValueError (lit "Invalid IPv6 URL")).
Proof. vm_compute. reflexivity. Qed.

(** What an accepted line looks like. *)
Lemma normalize_url_some (raw y : str) :
  normalize raw = Ok (Some y) ->
  let line := remove_char 13 (strip raw) in
  existsb isspace line = false /\
  is_empty line || startswith_char 35 line = false /\
  exists parsed,
    parse y = Ok parsed /\
    (str_eqb (scheme parsed) (lit "http") || str_eqb (scheme parsed) (lit "https")) = true /\
    is_empty (netloc parsed) = false /\
    (y = line \/ y = lit "https://" ++ line).
Proof.
  unfold normalize, normalize_url. fold parse.
  set (line := remove_char 13 (strip raw)). intros H.
  destruct (is_empty line || startswith_char 35 line); [discriminate|].
  destruct (existsb isspace line) eqn:Hsp; [discriminate|].
  split; [reflexivity|]. split; [reflexivity|].
  destruct (parse line) as [parsed|e] eqn:Hp; cbn [bind] in H; [|discriminate].
  destruct (is_empty (scheme parsed)) eqn:Hs; cbn [bind] in H.
  - destruct (parse (lit "https://" ++ line)) as [parsed'|e] eqn:Hp';
      cbn [bind] in H; [|discriminate].
    destruct (str_eqb (scheme parsed') (lit "http") || str_eqb (scheme parsed') (lit "https")) eqn:Hk;
      cbn [bind] in H; [|discriminate].
    destruct (is_empty (netloc parsed')) eqn:Hn; [discriminate|].
    injection H as <-. exists parsed'. auto.
  - destruct (str_eqb (scheme parsed) (lit "http") || str_eqb (scheme parsed) (lit "https")) eqn:Hk;
      cbn [bind] in H; [|discriminate].
    destruct (is_empty (netloc parsed)) eqn:Hn; [discriminate|].
    injection H as <-. exists parsed. auto.
Qed.

Lemma known_scheme_not_empty (s : str) :
  (str_eqb s (lit "http") || str_eqb s (lit "https")) = true -> is_empty s = false.
Proof.
  destruct s; [|reflexivity]. vm_compute. discriminate.
Qed.

(** X9. Where [normalize_url] returns a URL, it returns that URL again when
    applied to it: the normalizer is idempotent on what it accepts. *)
Theorem normalize_url_idempotent (raw y : str) :
  normalize raw = Ok (Some y) -> normalize y = Ok (Some y).
Proof.
  intros H. apply normalize_url_some in H as (Hsp & Hne & parsed & Hp & Hk & Hn & Hy).
  assert (Hy_sp : existsb isspace y = false).
  { destruct Hy as [->| ->]; [exact Hsp|].
    rewrite existsb_app, Hsp. reflexivity. }
  assert (Hy_ne : is_empty y || startswith_char 35 y = false).
  { destruct Hy as [->| ->]; [exact Hne | reflexivity]. }
  unfold normalize, normalize_url. fold parse.
  rewrite (clean_none _ Hy_sp), Hy_ne, Hy_sp, Hp. cbn [bind].
  rewrite (known_scheme_not_empty _ Hk). cbn [bind negb]. rewrite Hk, Hn. reflexivity.
Qed.

(** What the normalizer accepts is canonical: not empty and free of
    whitespace. *)
Lemma normalize_url_canonical (raw y : str) :
  normalize raw = Ok (Some y) -> canonical y = true.
Proof.
  intros H. apply normalize_url_some in H as (Hsp & Hne & _ & _ & _ & _ & Hy).
  unfold canonical. destruct Hy as [-> | ->].
  - rewrite Hsp. apply orb_false_elim in Hne as [-> _]. reflexivity.
  - rewrite existsb_app, Hsp. reflexivity.
Qed.

(** So is every URL of a list that [read_urls] returns. *)
Lemma read_urls_loop_canonical (lines : list str) :
  forall (urls out : list str) (skipped total skipped' total' : Z),
    read_urls_loop check_bracketed_netloc checknetloc_nfkc lines urls skipped total
    = Ok (out, skipped', total') ->
    forallb canonical urls = true -> forallb canonical out = true.
Proof.
  induction lines as [|raw lines IH]; intros urls out skipped total skipped' total' H Hc;
    simpl in H.
  - injection H as <- _ _. exact Hc.
  - fold normalize in H. destruct (normalize raw) as [[y|]|e] eqn:Hn; cbn [bind] in H.
    + apply IH in H; [exact H|]. rewrite forallb_app, Hc. simpl.
      rewrite (normalize_url_canonical _ _ Hn). reflexivity.
    + apply IH in H; [exact H | exact Hc].
    + discriminate.
Qed.

(** What the normalizer accepts is a canonical URL. *)
Lemma normalize_url_canonical_url (raw y : str) :
  normalize raw = Ok (Some y) ->
  canonical_url check_bracketed_netloc checknetloc_nfkc y.
Proof.
  intros H. split; [exact (normalize_url_canonical _ _ H)|].
  apply normalize_url_some in H as (_ & _ & parsed & Hp & Hk & Hn & _).
  exists parsed. split; [exact Hp|]. split.
  - apply orb_prop in Hk as [Hk|Hk]; apply str_eqb_eq in Hk; auto.
  - destruct (netloc parsed); [discriminate | discriminate].
Qed.

Lemma read_urls_loop_canonical_url (lines : list str) :
  forall (urls out : list str) (skipped total skipped' total' : Z),
    read_urls_loop check_bracketed_netloc checknetloc_nfkc lines urls skipped total
    = Ok (out, skipped', total') ->
    Forall (canonical_url check_bracketed_netloc checknetloc_nfkc) urls ->
    Forall (canonical_url check_bracketed_netloc checknetloc_nfkc) out.
Proof.
  induction lines as [|raw lines IH]; intros urls out skipped total skipped' total' H Hc;
    simpl in H.
  - injection H as <- _ _. exact Hc.
  - fold normalize in H. destruct (normalize raw) as [[y|]|e] eqn:Hn; cbn [bind] in H.
    + apply IH in H; [exact H|]. apply Forall_app. split; [exact Hc|].
      constructor; [exact (normalize_url_canonical_url _ _ Hn) | constructor].
    + apply IH in H; [exact H | exact Hc].
    + discriminate.
Qed.

(** X10. Every URL of a list that [read_urls] returns is a canonical URL,
    whatever the file holds: it has at least one character and no
    whitespace, and [urlparse] finds in it the scheme [http] or [https]
    and an authority that is not empty. *)
Lemma read_urls_canonical (fs : gmap (str * str) str) (jobs_file : str * str)
    (out : list str) (skipped total : Z) :
  read_urls check_bracketed_netloc checknetloc_nfkc fs jobs_file = Ok (out, skipped, total) ->
  Forall (canonical_url check_bracketed_netloc checknetloc_nfkc) out.
Proof.
  unfold read_urls. destruct (fs !! jobs_file) as [text|].
  - intros H. apply read_urls_loop_canonical_url in H; [exact H | constructor].
  - intros H. injection H as <- _ _. constructor.
Qed.

End NormalizerFacts.

(** ** Lines of a text *)

Lemma linebreak_is_space (c : char) : is_linebreak c = true -> isspace c = true.
Proof.
  unfold is_linebreak, isspace.
  rewrite !orb_true_iff, !andb_true_iff, !N.leb_le, !N.eqb_eq. lia.
Qed.

Lemma no_space_no_linebreak (s : str) :
  existsb isspace s = false -> existsb is_linebreak s = false.
Proof.
  induction s as [|c s IH]; simpl; [reflexivity|].
  intros H. apply orb_false_elim in H as [Hc Hs]. rewrite (IH Hs), orb_false_r.
  destruct (is_linebreak c) eqn:E; [|reflexivity].
  apply linebreak_is_space in E. congruence.
Qed.

(** A line without a boundary in it, then a line feed: [splitlines] closes
    the line there and goes on with the rest. *)
Lemma splitlines_from_line (l : str) :
  forall (cur rest : str),
    existsb is_linebreak l = false ->
    splitlines_from cur false (l ++ nl ++ rest)
    = (rev cur ++ l) :: splitlines_from [] false rest.
Proof.
  induction l as [|c l IH]; intros cur rest H.
  - simpl. rewrite app_nil_r. reflexivity.
  - simpl in H. apply orb_false_elim in H as [Hc Hl].
    cbn [app splitlines_from andb].
    rewrite Hc, IH by exact Hl. simpl. rewrite <- app_assoc. reflexivity.
Qed.

(** The lines of a text that was joined with line feeds and closed with one
    are the lines that were joined. *)
Lemma splitlines_join (ls : list str) :
  ls <> [] ->
  Forall (fun l => existsb is_linebreak l = false) ls ->
  splitlines (join nl ls ++ nl) = ls.
Proof.
  unfold splitlines. intros Hne Hall.
  induction Hall as [|l ls Hl Hls IH]; [congruence|].
  destruct ls as [|l2 ls].
  - change (join nl [l]) with l.
    replace (l ++ nl) with (l ++ nl ++ []) by (rewrite app_nil_r; reflexivity).
    rewrite splitlines_from_line by exact Hl. reflexivity.
  - change (join nl (l :: l2 :: ls)) with (l ++ nl ++ join nl (l2 :: ls)).
    replace ((l ++ nl ++ join nl (l2 :: ls)) ++ nl)
      with (l ++ nl ++ (join nl (l2 :: ls) ++ nl))
      by (rewrite <- !app_assoc; reflexivity).
    rewrite splitlines_from_line by exact Hl.
    change (rev [] ++ l) with l. f_equal. apply IH. discriminate.
Qed.

Lemma join_snoc (ls : list str) (l : str) :
  exists pre, join nl (ls ++ [l]) = pre ++ l.
Proof.
  induction ls as [|x ls [pre IH]].
  - exists []. reflexivity.
  - exists (x ++ nl ++ pre). simpl.
    destruct (ls ++ [l]) as [|y r] eqn:E.
    + destruct ls; discriminate.
    + rewrite IH, <- !app_assoc. reflexivity.
Qed.

Lemma rstrip_with_app_keep (p : char -> bool) (s t : str) :
  rstrip_with p t <> [] -> rstrip_with p (s ++ t) = s ++ rstrip_with p t.
Proof.
  unfold rstrip_with. intros H.
  rewrite rev_app_distr, lstrip_with_app_keep.
  - rewrite rev_app_distr, rev_involutive. reflexivity.
  - intros E. apply H. rewrite E. reflexivity.
Qed.

(** [strip] leaves a text alone that starts with a character other than
    whitespace and whose last line is not empty and ends with one. *)
Lemma strip_joined (c : char) (first : str) (ls : list str) (l : str) :
  isspace c = false ->
  rstrip_with isspace l = l -> l <> [] ->
  strip (join nl (((c :: first) :: ls) ++ [l])) = join nl (((c :: first) :: ls) ++ [l]).
Proof.
  intros Hc Hl Hne. unfold strip.
  assert (E : lstrip_with isspace (join nl (((c :: first) :: ls) ++ [l]))
              = join nl (((c :: first) :: ls) ++ [l])).
  { simpl. destruct (ls ++ [l]); simpl; rewrite Hc; reflexivity. }
  rewrite E. destruct (join_snoc ((c :: first) :: ls) l) as [pre ->].
  rewrite rstrip_with_app_keep; rewrite Hl; [reflexivity | exact Hne].
Qed.

Lemma rstrip_with_none (s : str) : existsb isspace s = false -> rstrip_with isspace s = s.
Proof.
  intros H. unfold rstrip_with.
  rewrite lstrip_with_none by (rewrite existsb_rev; exact H). apply rev_involutive.
Qed.

(** The decimal digits of a number hold no line boundary. *)
Lemma str_of_nat_no_linebreak (n : nat) : existsb is_linebreak (str_of_nat n) = false.
Proof.
  unfold str_of_nat. generalize (Nat.to_uint n). intros d.
  induction d; unfold lit; simpl; fold lit; auto.
Qed.

(** ** The validation worker *)

Lemma counters_le_refl (a : AppState) : counters_le a a.
Proof. unfold counters_le. lia. Qed.

Lemma counters_le_trans (a b c : AppState) :
  counters_le a b -> counters_le b c -> counters_le a c.
Proof. unfold counters_le. lia. Qed.

Lemma StronglySorted_snoc {A : Type} (R : A -> A -> Prop) (l : list A) (y : A) :
  StronglySorted R l -> Forall (fun x => R x y) l -> StronglySorted R (l ++ [y]).
Proof.
  induction 1 as [|x l Hl IH Hx]; intros Hy; simpl.
  - constructor; constructor.
  - inversion Hy as [|? ? Hxy Hly]; subst. constructor; [auto|].
    apply Forall_app. split; [exact Hx | constructor; [exact Hxy | constructor]].
Qed.

(** An assignment that moves no counter down and lands on a consistent
    observation keeps the history in order. *)
Lemma assign_history (N : Z) (pt : Point) (f : AppState -> AppState) (w : World) :
  history_ok N w ->
  counters_le (state w) (f (state w)) ->
  counters_consistent N (pt, f (state w)) ->
  history_ok N (assign pt f w).
Proof.
  intros [Hc Hs Hb] Hle Hnew. unfold assign. split; simpl.
  - apply Forall_app. split; [exact Hc | constructor; [exact Hnew | constructor]].
  - rewrite map_app. simpl. apply StronglySorted_snoc; [exact Hs|].
    eapply Forall_impl; [exact Hb|]. simpl. intros a Ha.
    eapply counters_le_trans; eassumption.
  - rewrite map_app. apply Forall_app. split.
    + eapply Forall_impl; [exact Hb|]. simpl. intros a Ha.
      eapply counters_le_trans; eassumption.
    + constructor; [apply counters_le_refl | constructor].
Qed.

Lemma start_probe_history (N : Z) (url : str) (w : World) :
  history_ok N w -> history_ok N (start_probe url w).
Proof. intros [Hc Hs Hb]. split; assumption. Qed.

Lemma len_app {A : Type} (l : list A) (x : A) : len (l ++ [x]) = len l + 1.
Proof. unfold len. rewrite length_app. simpl. lia. Qed.

Lemma len_cons {A : Type} (x : A) (l : list A) : len (x :: l) = len l + 1.
Proof. unfold len. simpl. lia. Qed.

Lemma len_nonneg {A : Type} (l : list A) : 0 <= len l.
Proof. unfold len. lia. Qed.

Lemma classify_len (ok_url : option str) (url : str) (validated failed validated' failed' : list str) :
  classify ok_url url validated failed = (validated', failed') ->
  len validated <= len validated' /\ len failed <= len failed' /\
  len validated' + len failed' = len validated + len failed + 1.
Proof.
  unfold classify. intros H.
  destruct ok_url as [u|]; [destruct (is_empty u)|];
    injection H as <- <-; rewrite len_app; lia.
Qed.

(** Goals on the counters of a record that the setters have built. *)
Ltac counters :=
  unfold counters_le, counters_consistent, settled in *; simpl in *;
  repeat split; intros; try discriminate; try lia; auto.

Section ValidationFacts.

Variable env : Env.

(** The loop keeps the history in order and leaves the record settled. *)
Lemma validation_loop_history (N : Z) (urls : list str) :
  forall (i : nat) (validated failed : list str) (w w' : World) (exit : LoopExit),
    validation_loop env i urls validated failed w = (exit, w') ->
    history_ok N w ->
    settled N validated failed (len urls) (state w) ->
    history_ok N w' /\
    exists validated' failed' rest,
      settled N validated' failed' rest (state w') /\ 0 <= rest /\
      match exit with
      | Exhausted v f => v = validated' /\ f = failed' /\ rest = 0
      | _ => True
      end.
Proof.
  induction urls as [|url urls IH]; intros i validated failed w w' exit Hrun Hh Hs; simpl in Hrun.
  - injection Hrun as <- <-. split; [exact Hh|].
    exists validated, failed, 0. auto with zarith.
  - destruct Hs as (Ht & Hv & Hf & Hc & Hn). rewrite len_cons in Hn.
    pose proof (len_nonneg urls) as Hu.
    pose proof (len_nonneg validated) as Hv0. pose proof (len_nonneg failed) as Hf0.
    destruct (cancel_is_set env i).
    + injection Hrun as <- <-. split.
      * apply assign_history; [exact Hh | counters | counters].
      * exists validated, failed, (len urls + 1). counters.
    + destruct (probe env i url) as [ok_url|e].
      * destruct (classify ok_url url validated failed) as [validated1 failed1] eqn:Hcl.
        apply classify_len in Hcl as (Hv1 & Hf1 & Hsum).
        apply IH in Hrun; [exact Hrun | |].
        -- repeat apply assign_history; try (apply start_probe_history; exact Hh); counters.
        -- counters.
      * injection Hrun as <- <-. split; [apply start_probe_history; exact Hh|].
        exists validated, failed, (len urls + 1). counters.
Qed.

Lemma write_text_history (N : Z) (p : str * str) (text : str) (w w' : World)
    (r : option exn) :
  write_text env p text w = (r, w') ->
  state w' = state w /\ (history_ok N w -> history_ok N w').
Proof.
  unfold write_text. intros H.
  destruct (write_text_fails env p text) as [[e remains]|]; injection H as <- <-;
    (split; [reflexivity | intros [Hc Hs Hb]; split; assumption]).
Qed.

Lemma on_exception_history (N : Z) (e : exn) (validated failed : list str)
    (rest : Z) (w : World) :
  0 <= rest ->
  history_ok N w -> settled N validated failed rest (state w) ->
  history_ok N (on_exception e w).
Proof.
  intros Hr Hh Hs. unfold on_exception.
  pose proof (len_nonneg validated). pose proof (len_nonneg failed).
  repeat apply assign_history; try exact Hh; counters.
Qed.

Lemma run_validation_history (N : Z) (profile : Profile) (w : World) :
  history_ok N w ->
  settled N [] [] (len (urls profile)) (state w) ->
  history_ok N (run_validation env profile w).
Proof.
  intros Hh Hs. unfold run_validation.
  destruct (validation_loop env 0 (urls profile) [] [] w) as [exit w1] eqn:Hloop.
  apply (validation_loop_history N) in Hloop as (Hh1 & v & f & rest & Hs1 & Hrest & Hexit);
    [|assumption..].
  destruct exit as [|validated failed|e].
  - exact Hh1.
  - destruct Hexit as (-> & -> & ->).
    destruct (write_text env _ _ w1) as [r2 w2] eqn:Hw2.
    apply (write_text_history N) in Hw2 as [E2 Hh2]. specialize (Hh2 Hh1).
    destruct r2 as [e|].
    { eapply on_exception_history; [| exact Hh2 | rewrite E2; exact Hs1]. lia. }
    destruct (write_text env _ _ w2) as [r3 w3] eqn:Hw3.
    apply (write_text_history N) in Hw3 as [E3 Hh3]. specialize (Hh3 Hh2).
    destruct r3 as [e|].
    { eapply on_exception_history; [| exact Hh3 | rewrite E3, E2; exact Hs1]. lia. }
    pose proof (len_nonneg v). pose proof (len_nonneg f).
    apply assign_history; [exact Hh3 | |]; rewrite E3, E2; counters.
  - eapply on_exception_history; eassumption.
Qed.

(** The record that [start_validation] hands to the thread. *)
Lemma start_validation_started (s s0 : AppState) (profile : Profile) :
  current_profile s = Ok (Some profile) ->
  is_empty_list (urls profile) = false ->
  start_validation s = Ok s0 ->
  validation_status s0 = lit "running" /\
  validation_thread s0 = Some profile /\
  settled (len (urls profile)) [] [] (len (urls profile)) s0.
Proof.
  intros Hp Hu. unfold start_validation. rewrite Hp. cbn [bind]. rewrite Hu.
  intros H. injection H as <-. counters.
Qed.

(** C1, as the code has it. In a run over [N] URLs every observation has
    [total = N], [completed <= total] and
    [valid + failed <= completed <= valid + failed + 1], with
    [valid + failed = completed] at every point between two URLs (among
    them the start and the end of the run); and no counter ever decreases
    from one observation to a later one. *)
Theorem validation_counters (s s0 : AppState) (profile : Profile)
    (files : gmap (str * str) str) :
  current_profile s = Ok (Some profile) ->
  is_empty_list (urls profile) = false ->
  start_validation s = Ok s0 ->
  let obs := observed (validation_run env profile files s0) in
  Forall (counters_consistent (len (urls profile))) obs /\
  StronglySorted counters_le (map snd obs).
Proof.
  intros Hp Hu Hs obs.
  destruct (start_validation_started _ _ _ Hp Hu Hs) as (_ & _ & Hset).
  assert (Hh : history_ok (len (urls profile)) (validation_run env profile files s0)).
  { apply run_validation_history; [|exact Hset].
    split; simpl.
    - constructor; [|constructor]. pose proof (len_nonneg (urls profile)). counters.
    - constructor; constructor.
    - constructor; [apply counters_le_refl | constructor]. }
  destruct Hh as [Hc Hsorted _]. split; assumption.
Qed.

(** The loop never writes a file; it sets the status when it is cancelled
    and at no other exit. *)
Lemma validation_loop_frame (urls : list str) :
  forall (i : nat) (validated failed : list str) (w w' : World) (exit : LoopExit),
    validation_loop env i urls validated failed w = (exit, w') ->
    writes w' = writes w /\ fs w' = fs w /\
    validation_status (state w') =
      match exit with
      | Cancelled => lit "cancelled"
      | _ => validation_status (state w)
      end.
Proof.
  induction urls as [|url urls IH]; intros i validated failed w w' exit Hrun; simpl in Hrun.
  - injection Hrun as <- <-. auto.
  - destruct (cancel_is_set env i).
    + injection Hrun as <- <-. auto.
    + destruct (probe env i url) as [ok_url|e].
      * destruct (classify ok_url url validated failed) as [validated1 failed1].
        apply IH in Hrun. exact Hrun.
      * injection Hrun as <- <-. auto.
Qed.



Lemma artifact_paths_differ (profile : Profile) :
  validated_path profile <> report_path profile.
Proof.
  unfold validated_path, report_path, with_name. intros H.
  injection H as H. vm_compute in H. discriminate.
Qed.

Lemma status_names_differ :
  lit "error" <> lit "cancelled" /\ lit "done" <> lit "cancelled" /\
  lit "done" <> lit "error".
Proof. repeat split; vm_compute; discriminate. Qed.

Lemma on_exception_frame (e : exn) (w : World) :
  validation_status (state (on_exception e w)) = lit "error" /\
  writes (on_exception e w) = writes w /\ fs (on_exception e w) = fs w.
Proof. unfold on_exception. simpl. auto. Qed.

(** C5, as the code has it. A cancelled run has called [write_text] not
    once and leaves every file as it was; so does a run that ends in
    ["error"] before the write-back. A run that ends in ["error"] within the
    write-back has either failed on the list of valid links, and then the
    report was not touched, or has failed on the report, and then the list
    of valid links is already written. *)
Theorem unfinished_run_writes (profile : Profile) (files : gmap (str * str) str)
    (s0 : AppState) :
  let w := validation_run env profile files s0 in
  (validation_status (state w) = lit "cancelled" -> writes w = [] /\ fs w = files) /\
  (validation_status (state w) = lit "error" ->
   (writes w = [] /\ fs w = files)
   \/ (exists text e remains,
         writes w = [(validated_path profile, text)] /\
         write_text_fails env (validated_path profile) text = Some (e, remains) /\
         fs w !! report_path profile = files !! report_path profile)
   \/ (exists vtext rtext e remains,
         writes w = [(validated_path profile, vtext); (report_path profile, rtext)] /\
         write_text_fails env (validated_path profile) vtext = None /\
         write_text_fails env (report_path profile) rtext = Some (e, remains) /\
         fs w !! validated_path profile = Some vtext)).
Proof.
  intros w. unfold w, validation_run, run_validation.
  destruct status_names_differ as (Hec & Hdc & Hde).
  pose proof (artifact_paths_differ profile) as Hpaths.
  destruct (validation_loop env 0 (urls profile) [] [] _) as [exit w1] eqn:Hloop.
  apply validation_loop_frame in Hloop as (Hw1 & Hf1 & Hs1). simpl in Hw1, Hf1.
  destruct exit as [|validated failed|e].
  - rewrite Hs1, Hw1, Hf1. split; [auto|]. intros H. symmetry in H. contradiction.
  - unfold write_text.
    destruct (write_text_fails env (validated_path profile) _) as [[e remains]|] eqn:Hv.
    + destruct (on_exception_frame e
        {| state := state w1;
           fs := match remains with
                 | Some t => <[validated_path profile := t]> (fs w1)
                 | None => delete (validated_path profile) (fs w1)
                 end;
           observed := observed w1; probed := probed w1;
           writes := writes w1 ++ [(validated_path profile, validated_text validated)] |})
        as (Hs & Hw & Hf).
      rewrite Hs, Hw, Hf. simpl. rewrite Hw1, Hf1. split; [intros H; contradiction|].
      intros _. right. left. exists (validated_text validated), e, remains.
      split; [reflexivity|]. split; [exact Hv|].
      destruct remains; [rewrite lookup_insert_ne | rewrite lookup_delete_ne]; auto.
    + simpl.
      destruct (write_text_fails env (report_path profile) _) as [[e remains]|] eqn:Hr.
      * match goal with |- context [on_exception e ?w2] =>
          destruct (on_exception_frame e w2) as (Hs & Hw & Hf) end.
        rewrite Hs, Hw, Hf. simpl. rewrite Hw1, Hf1. split; [intros H; contradiction|].
        intros _. right. right.
        exists (validated_text validated), (report_text validated failed), e, remains.
        split; [reflexivity|]. split; [exact Hv|]. split; [exact Hr|].
        destruct remains; [rewrite lookup_insert_ne | rewrite lookup_delete_ne];
          auto; apply lookup_insert_eq.
      * simpl. split; intros H; [apply Hdc in H | apply Hde in H]; contradiction.
  - destruct (on_exception_frame e w1) as (Hs & Hw & Hf).
    rewrite Hs, Hw, Hf, Hw1, Hf1. split; [intros H; contradiction | auto].
Qed.

Lemma classify_probe_valid (i : nat) (url : str) (r : option str)
    (validated failed : list str) :
  probe env i url = Ok r ->
  classify r url validated failed =
    match probe_valid env i url with
    | Some u => (validated ++ [u], failed)
    | None => (validated, failed ++ [url])
    end.
Proof.
  unfold probe_valid, classify. intros ->.
  destruct r as [u|]; [destruct (is_empty u)|]; reflexivity.
Qed.

(** The loop when nobody cancels and every probe comes back: it runs to the
    end of the list, with the valid and the failed links in its two lists. *)
Lemma validation_loop_exhausted (urls : list str) :
  forall (i : nat) (validated failed : list str) (w : World),
    (forall m, (m < length urls)%nat -> cancel_is_set env (i + m) = false) ->
    (forall m url, urls !! m = Some url -> exists r, probe env (i + m) url = Ok r) ->
    exists w',
      validation_loop env i urls validated failed w
      = (Exhausted (validated ++ valid_urls env i urls)
                   (failed ++ failed_urls env i urls), w').
Proof.
  induction urls as [|url urls IH]; intros i validated failed w Hcancel Hprobe; simpl.
  - rewrite !app_nil_r. eexists. reflexivity.
  - pose proof (Hcancel 0%nat ltac:(simpl; lia)) as H0. rewrite Nat.add_0_r in H0.
    rewrite H0.
    destruct (Hprobe 0%nat url eq_refl) as [r Hr]. rewrite Nat.add_0_r in Hr.
    rewrite Hr, (classify_probe_valid _ _ _ _ _ Hr).
    destruct (probe_valid env i url) as [u|];
      (edestruct IH as [w' Hw'];
       [ intros m Hm; replace (S i + m)%nat with (i + S m)%nat by lia;
         apply Hcancel; simpl; lia
       | intros m u' Hu'; replace (S i + m)%nat with (i + S m)%nat by lia;
         apply Hprobe; exact Hu'
       | exists w'; rewrite Hw', <- !app_assoc; reflexivity ]).
Qed.

Lemma valid_urls_no_linebreak (urls : list str) :
  forall i,
    (forall m url u, urls !! m = Some url -> probe env (i + m) url = Ok (Some u) ->
                     existsb is_linebreak u = false) ->
    Forall (fun l => existsb is_linebreak l = false) (valid_urls env i urls).
Proof.
  induction urls as [|url urls IH]; intros i Hresp; simpl; [constructor|].
  assert (Hrest : Forall (fun l => existsb is_linebreak l = false)
                         (valid_urls env (S i) urls)).
  { apply IH. intros m url' u Hl Hp. apply (Hresp (S m) url' u Hl).
    replace (i + S m)%nat with (S i + m)%nat by lia. exact Hp. }
  unfold probe_valid.
  destruct (probe env i url) as [[u|]|e] eqn:Hp; auto.
  destruct (is_empty u); auto. constructor; [|exact Hrest].
  apply (Hresp 0%nat url u eq_refl). rewrite Nat.add_0_r. exact Hp.
Qed.

Lemma failed_urls_canonical (urls : list str) :
  forall i,
    forallb canonical urls = true ->
    Forall (fun u => canonical u = true) (failed_urls env i urls).
Proof.
  induction urls as [|url urls IH]; intros i H; simpl; [constructor|].
  simpl in H. apply andb_prop in H as [Hu Hrest].
  destruct (probe_valid env i url); [auto | constructor; auto].
Qed.

Lemma canonical_spec (u : str) :
  canonical u = true -> u <> [] /\ existsb isspace u = false.
Proof.
  unfold canonical. intros H. apply andb_prop in H as [Hne Hsp].
  split; [destruct u; [discriminate | discriminate] | now apply negb_true_iff].
Qed.

(** [strip] takes nothing away from the report. *)
Lemma report_strip (validated failed : list str) :
  Forall (fun u => canonical u = true) failed ->
  strip (join nl (report_lines validated failed))
  = join nl (report_lines validated failed).
Proof.
  intros Hf. unfold report_lines.
  set (h1 := tl (lit "Validated: ") ++ str_of_nat (length validated)).
  set (h2 := lit "Failed: " ++ str_of_nat (length failed)).
  induction failed as [|u init _] using rev_ind.
  - exact (strip_joined 86 h1 [h2; []] (lit "Failed URLs:")
             eq_refl eq_refl ltac:(discriminate)).
  - apply Forall_app in Hf as [_ Hu]. inversion Hu as [|? ? Hcu _]; subst.
    apply canonical_spec in Hcu as [Hne Hsp].
    exact (strip_joined 86 h1 ([h2; []; lit "Failed URLs:"] ++ init) u
             eq_refl (rstrip_with_none u Hsp) Hne).
Qed.

(** The lines of the report. *)
Lemma report_text_lines (validated failed : list str) :
  Forall (fun u => canonical u = true) failed ->
  splitlines (report_text validated failed) = report_lines validated failed.
Proof.
  intros Hf. unfold report_text. rewrite (report_strip _ _ Hf).
  apply splitlines_join; [discriminate|].
  unfold report_lines. apply Forall_app. split.
  - repeat constructor; rewrite ?existsb_app, ?str_of_nat_no_linebreak; reflexivity.
  - eapply Forall_impl; [exact Hf|]. simpl. intros u Hu.
    apply no_space_no_linebreak, (canonical_spec u Hu).
Qed.

(** The lines of the list of valid links. *)
Lemma validated_text_lines (validated : list str) :
  Forall (fun l => existsb is_linebreak l = false) validated ->
  splitlines (validated_text validated)
  = if is_empty_list validated then [[]] else validated.
Proof.
  intros H. destruct validated as [|u validated]; [reflexivity|].
  apply splitlines_join; [discriminate | exact H].
Qed.

(** C3, as the code has it. A run that nobody cancels, whose probes all come
    back and whose two writes succeed ends with the status ["done"] and both
    files written. [jobs_validated.txt] is the final URLs of the valid links
    in probe order, each closed by a line feed: [valid] lines when there is a
    valid link, and one empty line when there is none. [jobs_report.txt] has
    the lines [Validated: <valid>], [Failed: <failed>], an empty line,
    [Failed URLs:], and then the requested URLs of the failed links, one a
    line. *)
Theorem completed_run (s s0 : AppState) (profile : Profile)
    (files : gmap (str * str) str) :
  current_profile s = Ok (Some profile) ->
  is_empty_list (urls profile) = false ->
  start_validation s = Ok s0 ->
  forallb canonical (urls profile) = true ->
  (forall i, (i < length (urls profile))%nat -> cancel_is_set env i = false) ->
  (forall i url, urls profile !! i = Some url -> exists r, probe env i url = Ok r) ->
  (forall i url u, urls profile !! i = Some url -> probe env i url = Ok (Some u) ->
                   existsb is_linebreak u = false) ->
  (forall text, write_text_fails env (validated_path profile) text = None) ->
  (forall text, write_text_fails env (report_path profile) text = None) ->
  let w := validation_run env profile files s0 in
  let validated := valid_urls env 0 (urls profile) in
  let failed := failed_urls env 0 (urls profile) in
  validation_status (state w) = lit "done" /\
  validation_completed (state w) = len (urls profile) /\
  validation_valid (state w) = len validated /\
  validation_failed (state w) = len failed /\
  writes w = [(validated_path profile, validated_text validated);
              (report_path profile, report_text validated failed)] /\
  fs w !! validated_path profile = Some (validated_text validated) /\
  fs w !! report_path profile = Some (report_text validated failed) /\
  splitlines (validated_text validated)
    = (if is_empty_list validated then [[]] else validated) /\
  splitlines (report_text validated failed)
    = [ lit "Validated: " ++ str_of_nat (length validated);
        lit "Failed: " ++ str_of_nat (length failed);
        [];
        lit "Failed URLs:" ] ++ failed.
Proof.
  intros Hp Hu Hs Hcan Hcancel Hprobe Hresp Hwv Hwr w validated failed.
  destruct (start_validation_started _ _ _ Hp Hu Hs) as (_ & _ & Hset).
  set (w0 := {| state := s0; fs := files; observed := [(AtStart, s0)];
                probed := []; writes := [] |}).
  destruct (validation_loop_exhausted (urls profile) 0 [] [] w0) as [w1 Hloop];
    [exact Hcancel | exact Hprobe |].
  simpl in Hloop. fold validated failed in Hloop.
  pose proof (validation_loop_frame _ _ _ _ _ _ _ Hloop) as (Hw1 & Hf1 & _).
  assert (Hh0 : history_ok (len (urls profile)) w0).
  { split; simpl.
    - constructor; [|constructor]. pose proof (len_nonneg (urls profile)). counters.
    - constructor; constructor.
    - constructor; [apply counters_le_refl | constructor]. }
  pose proof (validation_loop_history (len (urls profile)) _ _ _ _ _ _ _ Hloop Hh0 Hset)
    as (_ & v & f & rest & Hs1 & _ & Ev & Ef & Er).
  subst v f rest. destruct Hs1 as (_ & Hv & Hf & Hc & Hn).
  assert (Hw : w = assign SetDone (set_validation_status (lit "done"))
                 {| state := state w1;
                    fs := <[report_path profile := report_text validated failed]>
                            (<[validated_path profile := validated_text validated]> (fs w1));
                    observed := observed w1; probed := probed w1;
                    writes := (writes w1 ++ [(validated_path profile, validated_text validated)])
                              ++ [(report_path profile, report_text validated failed)] |}).
  { unfold w, validation_run, run_validation. fold w0. rewrite Hloop.
    unfold write_text. rewrite Hwv. simpl. rewrite Hwr. reflexivity. }
  rewrite Hw. simpl. rewrite Hw1, Hf1. simpl.
  split; [reflexivity|]. split; [lia|]. split; [exact Hv|]. split; [exact Hf|].
  split; [reflexivity|].
  split. { rewrite lookup_insert_ne by (symmetry; apply artifact_paths_differ).
           apply lookup_insert_eq. }
  split; [apply lookup_insert_eq|].
  split.
  - apply validated_text_lines, valid_urls_no_linebreak. exact Hresp.
  - apply report_text_lines, failed_urls_canonical. exact Hcan.
Qed.

End ValidationFacts.

(** C1 on a sample run: two links, both valid. *)
Lemma validation_counters_witness :
  current_profile (sample_state two_urls) = Ok (Some (sample_profile two_urls)) /\
  is_empty_list two_urls = false /\
  start_validation (sample_state two_urls) = Ok (sample_running two_urls) /\
  let obs := observed (validation_run env_all_valid (sample_profile two_urls) ∅
                                      (sample_running two_urls)) in
  Forall (counters_consistent 2) obs /\ StronglySorted counters_le (map snd obs).
Proof.
  split; [reflexivity|]. split; [reflexivity|]. split; [reflexivity|].
  apply (validation_counters env_all_valid (sample_state two_urls)
           (sample_running two_urls) (sample_profile two_urls) ∅); reflexivity.
Defined.

(** C1 as the specification words it fails: after [completed] has moved to 1
    for the only link of the run, [valid] and [failed] are both still 0. *)
Lemma validation_counters_not_exact :
  ~ Forall (counters_exact 1)
      (observed (validation_run env_all_valid (sample_profile one_url) ∅
                                (sample_running one_url))).
Proof.
  intros H.
  eapply (Forall_lookup_1 _ _ 1%nat) in H; [|vm_compute; reflexivity].
  destruct H as [E _]. vm_compute in E. discriminate.
Qed.


(** C3 on a sample run: two links, both valid. *)
Lemma completed_run_witness :
  forallb canonical two_urls = true /\
  let w := validation_run env_all_valid (sample_profile two_urls) ∅
                          (sample_running two_urls) in
  validation_status (state w) = lit "done" /\
  validation_valid (state w) = 2 /\
  validation_failed (state w) = 0 /\
  fs w !! validated_path (sample_profile two_urls)
    = Some (lit "https://a.com/job/1" ++ nl ++ lit "https://b.org/2" ++ nl) /\
  (exists report, fs w !! report_path (sample_profile two_urls) = Some report /\
     splitlines report = [lit "Validated: 2"; lit "Failed: 0"; []; lit "Failed URLs:"]).
Proof.
  split; [reflexivity|].
  destruct (completed_run env_all_valid (sample_state two_urls)
              (sample_running two_urls) (sample_profile two_urls) ∅)
    as (Hst & _ & Hv & Hf & _ & Hvt & Hrt & _ & Hrl); try reflexivity.
  - intros i url _. eexists. reflexivity.
  - intros i url u Hl Hp. injection Hp as <-.
    destruct i as [|[|i]]; simpl in Hl; try discriminate; injection Hl as <-; reflexivity.
  - split; [exact Hst|]. split; [exact Hv|]. split; [exact Hf|]. split; [exact Hvt|].
    eexists. split; [exact Hrt | exact Hrl].
Defined.

(** C3 as the specification words it fails when no link is valid: the
    run ends ["done"] with [valid = 0], and [jobs_validated.txt] holds one
    line, an empty one. *)
Lemma completed_run_lines_not_valid :
  let w := validation_run env_all_failed (sample_profile one_url) ∅
                          (sample_running one_url) in
  validation_status (state w) = lit "done" /\
  exists text,
    fs w !! validated_path (sample_profile one_url) = Some text /\
    len (splitlines text) <> validation_valid (state w).
Proof.
  split; [vm_compute; reflexivity|].
  eexists. split; [vm_compute; reflexivity|]. vm_compute. discriminate.
Qed.

(** C5 as the specification words it fails: the report cannot be written,
    the run ends in ["error"], and [jobs_validated.txt] no longer has the
    text it had before the run. *)
Lemma errored_run_has_written :
  let w := validation_run env_report_refused (sample_profile one_url) sample_files
                          (sample_running one_url) in
  validation_status (state w) = lit "error" /\
  fs w !! validated_path (sample_profile one_url)
  <> sample_files !! validated_path (sample_profile one_url).
Proof.
  split; [vm_compute; reflexivity|]. vm_compute. discriminate.
Qed.

(** ** The number prompt of the tab-opening screen *)

Section PromptFacts.

Variable isdigit_other : char -> bool.
Variable int_other : str -> option Z.



End PromptFacts.

(** ** The company screen *)

Section CompanyFacts.

Variable isdigit_other : char -> bool.
Variable int_other : str -> option Z.

Let handle := handle_ai_companies isdigit_other int_other.

(** The branch that each navigation key takes. *)
Lemma handle_down (s : AppState) (b : Z) (key : str) :
  ai_company_batch_idx s = Some b ->
  key = lit "j" \/ key = lit "down" ->
  handle s key =
    let total := len (ai_companies s) in
    let end_ := Z.min (b * COMPANY_BATCH_SIZE + COMPANY_BATCH_SIZE) total in
    if selection_idx s <? end_ - 1
    then Ok (set_selection_idx (selection_idx s + 1) s)
    else if b <? (total + COMPANY_BATCH_SIZE - 1) / COMPANY_BATCH_SIZE - 1
    then Ok (set_selection_idx ((b + 1) * COMPANY_BATCH_SIZE)
               (set_ai_company_batch_idx (Some (b + 1)) s))
    else Ok s.
Proof.
  intros Hb Hk. unfold handle, handle_ai_companies. rewrite Hb.
  destruct Hk as [-> | ->]; reflexivity.
Qed.

Lemma handle_up (s : AppState) (b : Z) (key : str) :
  ai_company_batch_idx s = Some b ->
  key = lit "k" \/ key = lit "up" ->
  handle s key =
    let total := len (ai_companies s) in
    if selection_idx s >? b * COMPANY_BATCH_SIZE
    then Ok (set_selection_idx (selection_idx s - 1) s)
    else if b >? 0
    then Ok (set_selection_idx
               (Z.min ((b - 1) * COMPANY_BATCH_SIZE + COMPANY_BATCH_SIZE - 1) (total - 1))
               (set_ai_company_batch_idx (Some (b - 1)) s))
    else Ok s.
Proof.
  intros Hb Hk. unfold handle, handle_ai_companies. rewrite Hb.
  destruct Hk as [-> | ->]; reflexivity.
Qed.

Lemma handle_left (s : AppState) (b : Z) (key : str) :
  ai_company_batch_idx s = Some b ->
  key = lit "<" \/ key = lit "," \/ key = lit "left" ->
  handle s key =
    if b >? 0
    then Ok (set_selection_idx ((b - 1) * COMPANY_BATCH_SIZE)
               (set_ai_company_batch_idx (Some (b - 1)) s))
    else Ok s.
Proof.
  intros Hb Hk. unfold handle, handle_ai_companies. rewrite Hb.
  destruct Hk as [-> | [-> | ->]]; reflexivity.
Qed.

Lemma handle_right (s : AppState) (b : Z) (key : str) :
  ai_company_batch_idx s = Some b ->
  key = lit ">" \/ key = lit "." \/ key = lit "right" ->
  handle s key =
    let total := len (ai_companies s) in
    if b <? (total + COMPANY_BATCH_SIZE - 1) / COMPANY_BATCH_SIZE - 1
    then Ok (set_selection_idx ((b + 1) * COMPANY_BATCH_SIZE)
               (set_ai_company_batch_idx (Some (b + 1)) s))
    else Ok s.
Proof.
  intros Hb Hk. unfold handle, handle_ai_companies. rewrite Hb.
  destruct Hk as [-> | [-> | ->]]; reflexivity.
Qed.

Lemma navigation_key_cases (key : str) :
  is_navigation_key key = true ->
  (key = lit "j" \/ key = lit "down") \/ (key = lit "k" \/ key = lit "up") \/
  (key = lit "<" \/ key = lit "," \/ key = lit "left") \/
  (key = lit ">" \/ key = lit "." \/ key = lit "right").
Proof.
  unfold is_navigation_key, str_in. cbn [map existsb].
  rewrite !orb_true_iff, !str_eqb_eq. intuition discriminate.
Qed.

(** The number of pages, by the size of the list. *)
Lemma more_pages (total b : Z) :
  (b <? (total + COMPANY_BATCH_SIZE - 1) / COMPANY_BATCH_SIZE - 1) = true <->
  (b + 1) * COMPANY_BATCH_SIZE < total.
Proof.
  unfold COMPANY_BATCH_SIZE. rewrite Z.ltb_lt.
  pose proof (Z.div_mod (total + 10 - 1) 10 ltac:(lia)).
  pose proof (Z.mod_pos_bound (total + 10 - 1) 10 ltac:(lia)). lia.
Qed.

Lemma no_more_pages (total b : Z) :
  (b <? (total + COMPANY_BATCH_SIZE - 1) / COMPANY_BATCH_SIZE - 1) = false <->
  total <= (b + 1) * COMPANY_BATCH_SIZE.
Proof.
  pose proof (more_pages total b) as H.
  destruct (b <? _); split; intros; try discriminate; try reflexivity.
  - exfalso. assert ((b + 1) * COMPANY_BATCH_SIZE < total) by (apply H; reflexivity). lia.
  - destruct (Z.lt_ge_cases ((b + 1) * COMPANY_BATCH_SIZE) total) as [Hlt|Hge]; [|lia].
    apply H in Hlt. discriminate.
Qed.

Lemma cursor_on_page_in_list (s : AppState) : cursor_on_page s -> cursor_in_list s.
Proof.
  unfold cursor_on_page, cursor_in_list, COMPANY_BATCH_SIZE.
  destruct (ai_company_batch_idx s); [lia | auto].
Qed.

(** Goals on the cursor of a record that a navigation key has built; [Hb]
    names the page index of the record before the key. *)
Ltac cursor Hb :=
  unfold cursor_on_page, cursor_in_list, COMPANY_BATCH_SIZE in *; simpl;
  rewrite ?Hb; try lia;
  let Hon := fresh in intros Hon; rewrite ?Hb in Hon; lia.

(** A navigation key leaves the cursor and the page inside the list, the
    cursor on a candidate of the displayed page if it was on one, and the
    list of candidates as it is. *)
Lemma navigation_keeps_cursor (s : AppState) (key : str) :
  is_navigation_key key = true ->
  cursor_in_list s ->
  exists s', handle s key = Ok s' /\ cursor_in_list s' /\
             (cursor_on_page s -> cursor_on_page s') /\
             ai_companies s' = ai_companies s.
Proof.
  intros Hkey Hcur.
  assert (Hcur0 := Hcur). unfold cursor_in_list in Hcur.
  destruct (ai_company_batch_idx s) as [b|] eqn:Hb; [|contradiction].
  destruct Hcur as (Hb0 & Hpage & Hsel).
  apply navigation_key_cases in Hkey as [Hk | [Hk | [Hk | Hk]]].
  - rewrite (handle_down s b key Hb Hk). cbv zeta.
    destruct (Z.ltb_spec (selection_idx s)
                (Z.min (b * COMPANY_BATCH_SIZE + COMPANY_BATCH_SIZE) (len (ai_companies s)) - 1)).
    + eexists. split; [reflexivity|]. split; [cursor Hb|]. split; [cursor Hb | reflexivity].
    + destruct (b <? _) eqn:Hmore.
      * apply more_pages in Hmore. eexists. split; [reflexivity|].
        split; [cursor Hb|]. split; [cursor Hb | reflexivity].
      * exists s. auto.
  - rewrite (handle_up s b key Hb Hk). cbv zeta.
    destruct (Z.gtb_spec (selection_idx s) (b * COMPANY_BATCH_SIZE)).
    + eexists. split; [reflexivity|]. split; [cursor Hb|]. split; [cursor Hb | reflexivity].
    + destruct (Z.gtb_spec b 0).
      * eexists. split; [reflexivity|]. split; [cursor Hb|]. split; [cursor Hb | reflexivity].
      * exists s. auto.
  - rewrite (handle_left s b key Hb Hk).
    destruct (Z.gtb_spec b 0).
    + eexists. split; [reflexivity|]. split; [cursor Hb|]. split; [cursor Hb | reflexivity].
    + exists s. auto.
  - rewrite (handle_right s b key Hb Hk). cbv zeta.
    destruct (b <? _) eqn:Hmore.
    + apply more_pages in Hmore. eexists. split; [reflexivity|].
      split; [cursor Hb|]. split; [cursor Hb | reflexivity].
    + exists s. auto.
Qed.

Lemma navigation_sequence_keeps_cursor (keys : list str) :
  forall s,
    forallb is_navigation_key keys = true ->
    cursor_in_list s ->
    exists s', press_keys handle s keys = Ok s' /\ cursor_in_list s' /\
               (cursor_on_page s -> cursor_on_page s') /\
               ai_companies s' = ai_companies s.
Proof.
  induction keys as [|key keys IH]; intros s Hkeys Hcur; simpl.
  - exists s. auto.
  - simpl in Hkeys. apply andb_prop in Hkeys as [Hkey Hkeys].
    destruct (navigation_keeps_cursor s key Hkey Hcur) as (s1 & H1 & Hcur1 & Hon1 & Hc1).
    rewrite H1. cbn [bind].
    destruct (IH s1 Hkeys Hcur1) as (s' & H' & Hcur' & Hon' & Hc').
    exists s'. split; [exact H'|]. split; [exact Hcur'|]. split; [auto | congruence].
Qed.

(** Navigation on its own is sound. From a state of the company screen whose
    cursor and page lie inside the list of candidates (as they do at the
    first candidate of the first page), every sequence of navigation keys
    leaves the cursor and the page index inside the list, and the cursor
    on the displayed page if it was there. With the cursor on the displayed page: down on the last candidate
    of a page that has a successor goes to the first candidate of the next
    page, down on the last candidate of the list changes nothing; up on the
    first candidate of a page that has a predecessor goes to the last
    candidate of the page before, up on the first candidate of the list
    changes nothing. *)
Theorem company_navigation (s : AppState) (b : Z) (keys : list str) :
  ai_company_batch_idx s = Some b ->
  cursor_in_list s ->
  forallb is_navigation_key keys = true ->
  let total := len (ai_companies s) in
  let page_end := Z.min (b * COMPANY_BATCH_SIZE + COMPANY_BATCH_SIZE) total in
  (exists s' b',
     press_keys (handle_ai_companies isdigit_other int_other) s keys = Ok s' /\
     ai_companies s' = ai_companies s /\
     ai_company_batch_idx s' = Some b' /\
     0 <= selection_idx s' < total /\ 0 <= b' < total /\
     (cursor_on_page s -> cursor_on_page s')) /\
  (cursor_on_page s ->
   (forall key, key = lit "j" \/ key = lit "down" ->
      (selection_idx s = page_end - 1 -> page_end < total ->
       handle_ai_companies isdigit_other int_other s key
       = Ok (set_selection_idx ((b + 1) * COMPANY_BATCH_SIZE)
               (set_ai_company_batch_idx (Some (b + 1)) s))) /\
      (selection_idx s = total - 1 ->
       handle_ai_companies isdigit_other int_other s key = Ok s)) /\
   (forall key, key = lit "k" \/ key = lit "up" ->
      (selection_idx s = b * COMPANY_BATCH_SIZE -> 0 < b ->
       handle_ai_companies isdigit_other int_other s key
       = Ok (set_selection_idx (b * COMPANY_BATCH_SIZE - 1)
               (set_ai_company_batch_idx (Some (b - 1)) s))) /\
      (selection_idx s = 0 ->
       handle_ai_companies isdigit_other int_other s key = Ok s))).
Proof.
  intros Hb Hcur Hkeys total page_end. fold handle.
  split.
  - destruct (navigation_sequence_keeps_cursor keys s Hkeys Hcur)
      as (s' & H' & Hcur' & Hon' & Hc').
    unfold cursor_in_list in Hcur'.
    destruct (ai_company_batch_idx s') as [b'|] eqn:Hb'; [|contradiction].
    exists s', b'. rewrite Hc' in Hcur'. fold total in Hcur'.
    unfold COMPANY_BATCH_SIZE in Hcur'. repeat split; auto; lia.
  - intros Hon. unfold cursor_on_page in Hon. rewrite Hb in Hon. fold total in Hon.
    split.
    + intros key Hk. rewrite (handle_down s b key Hb Hk). cbv zeta.
      fold total. fold page_end. unfold COMPANY_BATCH_SIZE in *. split.
      * intros Hsel Hnext. rewrite Hsel, Z.ltb_irrefl.
        assert (Hmore : (b <? (total + 10 - 1) / 10 - 1) = true)
          by (apply (more_pages total b); unfold COMPANY_BATCH_SIZE; lia).
        rewrite Hmore. reflexivity.
      * intros Hsel.
        destruct (Z.ltb_spec (selection_idx s) (page_end - 1)); [lia|].
        assert (Hlast : (b <? (total + 10 - 1) / 10 - 1) = false)
          by (apply (no_more_pages total b); unfold COMPANY_BATCH_SIZE; lia).
        rewrite Hlast. reflexivity.
    + intros key Hk. rewrite (handle_up s b key Hb Hk). cbv zeta.
      fold total. unfold COMPANY_BATCH_SIZE in *. split.
      * intros Hsel Hprev.
        destruct (Z.gtb_spec (selection_idx s) (b * 10)); [lia|].
        destruct (Z.gtb_spec b 0); [|lia].
        replace (Z.min ((b - 1) * 10 + 10 - 1) (total - 1)) with (b * 10 - 1) by lia.
        reflexivity.
      * intros Hsel.
        destruct (Z.gtb_spec (selection_idx s) (b * 10)); [lia|].
        destruct (Z.gtb_spec b 0); [lia | reflexivity].
Qed.

End CompanyFacts.

(** ** Entering a screen *)

Section SessionFacts.

Variable check_bracketed_netloc : str -> Exc unit.
Variable checknetloc_nfkc : str -> Exc unit.
Variable isdigit_other : char -> bool.
Variable isprintable_other : char -> bool.
Variable int_other : str -> option Z.
Variable load_search_specs : Profile -> option (list Source).
Variable copy_to_clipboard : str -> bool.
Variable fetch_jobs_for_profile :
  Profile -> gmap (str * str) str -> (Z * str) * gmap (str * str) str.

Let loop := main_loop check_bracketed_netloc checknetloc_nfkc isdigit_other
              isprintable_other int_other load_search_specs copy_to_clipboard
              fetch_jobs_for_profile.

(** On the first visit the cursor of the company screen is where a fresh
    record has it, on the first candidate of the first page. *)
Lemma company_cursor_first_visit :
  match loop 20 ∅ session_start to_companies with
  | Ok s => screen s = AI_PROMPT_COMPANIES /\
            ai_company_batch_idx s = Some 0 /\ selection_idx s = 0
  | Raise _ => False
  end.
Proof. vm_compute. auto. Qed.

(** The way into the profile screen does set the cursor that it shares with
    the company screen. *)
Lemma profile_cursor_initialized (s s' : AppState) :
  is_empty_list (profiles s) = false ->
  handle_main_menu load_search_specs s (lit "p") = Ok s' ->
  screen s' = PROFILE_SELECT /\ selection_idx s' = profile_idx s.
Proof.
  unfold handle_main_menu.
  replace (str_eqb (lit "p") (lit "o")) with false by reflexivity.
  replace (str_eqb (lit "p") (lit "f")) with false by reflexivity.
  replace (str_eqb (lit "p") (lit "g")) with false by reflexivity.
  replace (str_eqb (lit "p") (lit "v")) with false by reflexivity.
  replace (str_eqb (lit "p") (lit "p")) with true by reflexivity.
  intros ->. intros H. injection H as <-. auto.
Qed.

(** C8, the failing input. The user visits the company screen, turns to its
    second page, goes back to the main menu and opens the prompt builder
    again. On this second visit the company screen displays the first page,
    candidates 0 to 9, and the cursor is at 10, where the first visit has
    left it: no step on the way has set it. *)
Theorem company_cursor_stale :
  match main_loop check_bracketed_netloc checknetloc_nfkc isdigit_other
          isprintable_other int_other load_search_specs copy_to_clipboard
          fetch_jobs_for_profile 20 ∅ session_start companies_twice with
  | Ok s =>
      screen s = AI_PROMPT_COMPANIES /\
      ai_company_batch_idx s = Some 0 /\
      selection_idx s = 10 /\
      ~ cursor_on_page s
  | Raise _ => False
  end.
Proof.
  vm_compute. split; [reflexivity|]. split; [reflexivity|]. split; [reflexivity|].
  intros (_ & _ & H & _). discriminate H.
Qed.

(** C9, the failing input. With 46 profiles the user goes to the profile
    screen, moves the cursor down to the last profile, selects it with
    Enter and goes through the prompt builder to the company screen. The
    screen starts on the first page of its 45 candidates with the cursor
    at 45, where the profile screen has left it: no step on the way has set
    it. The cursor is outside the list before any navigation key, and key
    [<] leaves it there. *)
Theorem company_cursor_outside :
  match main_loop check_bracketed_netloc checknetloc_nfkc isdigit_other
          isprintable_other int_other load_search_specs copy_to_clipboard
          fetch_jobs_for_profile 60 many_profiles_files many_profiles_start
          last_profile_to_companies with
  | Ok s =>
      screen s = AI_PROMPT_COMPANIES /\
      ai_company_batch_idx s = Some 0 /\
      len (ai_companies s) = 45 /\
      selection_idx s = 45 /\
      ~ cursor_in_list s /\
      match handle_ai_companies isdigit_other int_other s (lit "<") with
      | Ok s' => len (ai_companies s') = 45 /\ selection_idx s' = 45 /\
                 ~ cursor_in_list s'
      | Raise _ => False
      end
  | Raise _ => False
  end.
Proof.
  vm_compute.
  repeat split; try reflexivity; intros (_ & _ & _ & H); discriminate H.
Qed.

End SessionFacts.

(** C4 as the specification words it fails: the skipped count is not 1. *)
Lemma read_urls_scenario_skipped_not_one :
  ~ exists total,
      read_urls (fun _ => Ok tt) (fun _ => Ok tt) scenario_fs jobs_txt
      = Ok (scenario_urls, 1, total).
Proof. intros [total H]. vm_compute in H. discriminate. Qed.



(** Navigation on the first visit of the company screen: ten times down and
    once up. *)
Lemma company_navigation_witness :
  ai_company_batch_idx companies_entered = Some 0 /\
  cursor_in_list companies_entered /\
  forallb is_navigation_key down_and_up = true /\
  exists s' b',
    press_keys (handle_ai_companies (fun _ => false) (fun _ => None))
      companies_entered down_and_up = Ok s' /\
    ai_company_batch_idx s' = Some b' /\
    0 <= selection_idx s' < 45 /\ 0 <= b' < 45.
Proof.
  assert (Hcur : cursor_in_list companies_entered).
  { vm_compute. repeat split; discriminate. }
  split; [reflexivity|]. split; [exact Hcur|]. split; [reflexivity|].
  destruct (company_navigation (fun _ => false) (fun _ => None) companies_entered 0
              down_and_up eq_refl Hcur eq_refl)
    as [(s' & b' & Hrun & _ & Hb' & Hsel & Hb & _) _].
  exists s', b'. auto.
Defined.

(** ** The reach of the validation worker *)

Section WorkerReach.

Variable env : Env.

Lemma assign_reach (s0 : AppState) (pt : Point) (f : AppState -> AppState) (w : World) :
  (forall s, session_part (f s) = session_part s) ->
  within_reach s0 w -> within_reach s0 (assign pt f w).
Proof.
  intros Hf [Ho Hs]. unfold within_reach, assign; simpl.
  assert (E : session_part (f (state w)) = session_part s0) by (rewrite Hf; exact Hs).
  split; [|exact E].
  apply Forall_app. split; [exact Ho | constructor; [exact E | constructor]].
Qed.

Lemma validation_loop_reach (s0 : AppState) (urls : list str) :
  forall (i : nat) (validated failed : list str) (w w' : World) (exit : LoopExit),
    validation_loop env i urls validated failed w = (exit, w') ->
    within_reach s0 w -> within_reach s0 w'.
Proof.
  induction urls as [|url urls IH]; intros i validated failed w w' exit Hrun Hw;
    simpl in Hrun.
  - injection Hrun as <- <-. exact Hw.
  - destruct (cancel_is_set env i).
    + injection Hrun as <- <-. apply assign_reach; [reflexivity | exact Hw].
    + destruct (probe env i url) as [ok_url|e].
      * destruct (classify ok_url url validated failed) as [validated1 failed1].
        apply IH in Hrun; [exact Hrun|].
        repeat (apply assign_reach; [reflexivity|]). exact Hw.
      * injection Hrun as <- <-. exact Hw.
Qed.

Lemma write_text_reach (s0 : AppState) (p : str * str) (text : str) (w w' : World)
    (r : option exn) :
  write_text env p text w = (r, w') -> within_reach s0 w -> within_reach s0 w'.
Proof.
  unfold write_text. intros H Hw.
  destruct (write_text_fails env p text) as [[e remains]|]; injection H as <- <-; exact Hw.
Qed.

Lemma on_exception_reach (s0 : AppState) (e : exn) (w : World) :
  within_reach s0 w -> within_reach s0 (on_exception e w).
Proof.
  intros Hw. unfold on_exception.
  repeat (apply assign_reach; [reflexivity|]). exact Hw.
Qed.

(** X1. The worker thread writes the status, the counters [completed],
    [valid] and [failed], and the error text, and nothing else: in every
    value of the record that it leaves behind, the screen, the navigation
    fields, the profiles, the total, the cancel flag and the prompt builder
    are those of the record it was started with. *)
Theorem worker_reach (profile : Profile) (files : gmap (str * str) str)
    (s0 : AppState) :
  let w := validation_run env profile files s0 in
  Forall (fun o => session_part (snd o) = session_part s0) (observed w) /\
  session_part (state w) = session_part s0.
Proof.
  intros w. change (within_reach s0 w). unfold w, validation_run, run_validation.
  set (w0 := {| state := s0; fs := files; observed := [(AtStart, s0)];
                probed := []; writes := [] |}).
  assert (H0 : within_reach s0 w0).
  { split; [constructor; [reflexivity | constructor] | reflexivity]. }
  destruct (validation_loop env 0 (urls profile) [] [] w0) as [exit w1] eqn:Hloop.
  apply (validation_loop_reach s0) in Hloop; [|exact H0].
  destruct exit as [|validated failed|e]; [exact Hloop | | apply on_exception_reach, Hloop].
  destruct (write_text env _ _ w1) as [r2 w2] eqn:Hw2.
  apply (write_text_reach s0) in Hw2; [|exact Hloop].
  destruct r2 as [e|]; [apply on_exception_reach, Hw2|].
  destruct (write_text env _ _ w2) as [r3 w3] eqn:Hw3.
  apply (write_text_reach s0) in Hw3; [|exact Hw2].
  destruct r3 as [e|]; [apply on_exception_reach, Hw3|].
  apply assign_reach; [reflexivity | exact Hw3].
Qed.

Lemma artifacts_after_write (profile : Profile) (files : gmap (str * str) str)
    (p : str * str) (text : str) (w w' : World) (r : option exn) :
  p = validated_path profile \/ p = report_path profile ->
  write_text env p text w = (r, w') ->
  artifacts_only profile files w -> artifacts_only profile files w'.
Proof.
  intros Hp H [Hw Hf]. unfold write_text in H.
  assert (Hdel : forall m : gmap (str * str) str,
            delete (report_path profile) (delete (validated_path profile) (delete p m))
            = delete (report_path profile) (delete (validated_path profile) m)).
  { intros m. destruct Hp as [-> | ->].
    - rewrite delete_delete_eq. reflexivity.
    - rewrite (delete_delete m (validated_path profile) (report_path profile)),
        delete_delete_eq. reflexivity. }
  assert (Hins : forall (m : gmap (str * str) str) t,
            delete (report_path profile) (delete (validated_path profile) (<[p := t]> m))
            = delete (report_path profile) (delete (validated_path profile) m)).
  { intros m t. rewrite <- (Hdel (<[p := t]> m)), delete_insert_eq. apply Hdel. }
  destruct (write_text_fails env p text) as [[e [t|]]|]; injection H as <- <-;
    (split; simpl;
     [ apply Forall_app; split; [exact Hw | constructor; [exact Hp | constructor]]
     | rewrite ?Hins, ?Hdel; exact Hf ]).
Qed.

Lemma artifacts_other_state (profile : Profile) (files : gmap (str * str) str)
    (w w' : World) :
  writes w' = writes w -> fs w' = fs w ->
  artifacts_only profile files w -> artifacts_only profile files w'.
Proof. unfold artifacts_only. intros -> ->. auto. Qed.

Lemma run_artifacts_only (profile : Profile) (files : gmap (str * str) str)
    (s0 : AppState) :
  artifacts_only profile files (validation_run env profile files s0).
Proof.
  unfold validation_run, run_validation.
  set (w0 := {| state := s0; fs := files; observed := [(AtStart, s0)];
                probed := []; writes := [] |}).
  assert (H0 : artifacts_only profile files w0) by (split; [constructor | reflexivity]).
  destruct (validation_loop env 0 (urls profile) [] [] w0) as [exit w1] eqn:Hloop.
  apply validation_loop_frame in Hloop as (Hw1 & Hf1 & _).
  assert (H1 : artifacts_only profile files w1)
    by (apply (artifacts_other_state _ _ w0); assumption).
  assert (Hex : forall e w, artifacts_only profile files w ->
                            artifacts_only profile files (on_exception e w)).
  { intros e w Hw. destruct (on_exception_frame e w) as (_ & Hwr & Hfs).
    apply (artifacts_other_state _ _ w); assumption. }
  destruct exit as [|validated failed|e]; [exact H1 | | apply Hex, H1].
  destruct (write_text env _ _ w1) as [r2 w2] eqn:Hw2.
  apply (artifacts_after_write profile files) in Hw2; [|left; reflexivity | exact H1].
  destruct r2 as [e|]; [apply Hex, Hw2|].
  destruct (write_text env _ _ w2) as [r3 w3] eqn:Hw3.
  apply (artifacts_after_write profile files) in Hw3; [|right; reflexivity | exact Hw2].
  destruct r3 as [e|]; [apply Hex, Hw3|].
  apply (artifacts_other_state _ _ w3); [reflexivity | reflexivity | exact Hw3].
Qed.

(** X2. A validation run calls [write_text] on [jobs_validated.txt] and
    [jobs_report.txt] only, and leaves every other file as it was. The list
    file [jobs.txt] of the profile is among these: the run prunes nothing
    from it, and reading the profile after the run gives what it gave
    before. *)
Theorem run_keeps_jobs_file (check_bracketed_netloc checknetloc_nfkc : str -> Exc unit)
    (profile : Profile) (files : gmap (str * str) str) (s0 : AppState) :
  snd (jobs_file profile) = lit "jobs.txt" ->
  let w := validation_run env profile files s0 in
  artifacts_only profile files w /\
  fs w !! jobs_file profile = files !! jobs_file profile /\
  read_urls check_bracketed_netloc checknetloc_nfkc (fs w) (jobs_file profile)
  = read_urls check_bracketed_netloc checknetloc_nfkc files (jobs_file profile).
Proof.
  intros Hname w.
  pose proof (run_artifacts_only profile files s0) as Ha. fold w in Ha.
  assert (Hv : validated_path profile <> jobs_file profile).
  { unfold validated_path, with_name. destruct (jobs_file profile) as [d n].
    simpl in *. subst n. intros H. injection H as H. vm_compute in H. discriminate. }
  assert (Hr : report_path profile <> jobs_file profile).
  { unfold report_path, with_name. destruct (jobs_file profile) as [d n].
    simpl in *. subst n. intros H. injection H as H. vm_compute in H. discriminate. }
  assert (E : fs w !! jobs_file profile = files !! jobs_file profile).
  { destruct Ha as [_ Hd].
    apply (f_equal (fun m : gmap (str * str) str => m !! jobs_file profile)) in Hd.
    rewrite !lookup_delete_ne in Hd by assumption. exact Hd. }
  split; [exact Ha|]. split; [exact E|].
  unfold read_urls. rewrite E. reflexivity.
Qed.

(** The loop when the probe of the URL at position [i + j] is the first
    event that stops it, with an exception. *)
Lemma validation_loop_raised (urls : list str) :
  forall (i j : nat) (url : str) (e : exn) (validated failed : list str) (w : World),
    urls !! j = Some url ->
    (forall m, (m <= j)%nat -> cancel_is_set env (i + m) = false) ->
    (forall m u, (m < j)%nat -> urls !! m = Some u ->
                 exists r, probe env (i + m) u = Ok r) ->
    probe env (i + j) url = Raise e ->
    exists w',
      validation_loop env i urls validated failed w = (Raised e, w') /\
      validation_completed (state w') = validation_completed (state w) + Z.of_nat j /\
      probed w' = probed w ++ firstn (S j) urls.
Proof.
  induction urls as [|u0 urls IH]; intros i j url e validated failed w Hj Hcancel Hprobe Hat;
    [discriminate|].
  pose proof (Hcancel 0%nat ltac:(lia)) as H0. rewrite Nat.add_0_r in H0.
  destruct j as [|j]; simpl; rewrite H0.
  - injection Hj as ->. rewrite Nat.add_0_r in Hat. rewrite Hat.
    eexists. split; [reflexivity|]. simpl. split; [lia | reflexivity].
  - destruct (Hprobe 0%nat u0 ltac:(lia) eq_refl) as [r Hr].
    rewrite Nat.add_0_r in Hr. rewrite Hr.
    destruct (classify r u0 validated failed) as [validated1 failed1].
    edestruct (IH (S i) j url e validated1 failed1) as (w' & Hrun & Hc & Hp).
    + exact Hj.
    + intros m Hm. replace (S i + m)%nat with (i + S m)%nat by lia. apply Hcancel. lia.
    + intros m u Hm Hu. replace (S i + m)%nat with (i + S m)%nat by lia.
      apply Hprobe; [lia | exact Hu].
    + replace (S i + j)%nat with (i + S j)%nat by lia. exact Hat.
    + exists w'. split; [exact Hrun|]. rewrite Hc, Hp. simpl.
      rewrite <- app_assoc. split; [lia | reflexivity].
Qed.

(** X3. A probe that raises an exception other than [httpx.HTTPError] ends
    the run at once: when this happens at the URL at position k, the run
    ends with the status ["error"] and the text of the exception as its
    message, [completed = k], no later URL is probed and no file is
    written. *)
Theorem aborted_run (s s0 : AppState) (profile : Profile)
    (files : gmap (str * str) str) (k : nat) (url : str) (e : exn) :
  current_profile s = Ok (Some profile) ->
  is_empty_list (urls profile) = false ->
  start_validation s = Ok s0 ->
  urls profile !! k = Some url ->
  (forall i, (i <= k)%nat -> cancel_is_set env i = false) ->
  (forall i u, (i < k)%nat -> urls profile !! i = Some u ->
               exists r, probe env i u = Ok r) ->
  probe env k url = Raise e ->
  let w := validation_run env profile files s0 in
  validation_status (state w) = lit "error" /\
  validation_error (state w) = exn_str e /\
  validation_completed (state w) = Z.of_nat k /\
  probed w = firstn (S k) (urls profile) /\
  writes w = [] /\
  fs w = files.
Proof.
  intros Hp Hu Hs Hk Hcancel Hprobe Hat w.
  destruct (start_validation_started _ _ _ Hp Hu Hs) as (_ & _ & Hset).
  unfold w, validation_run, run_validation.
  edestruct (validation_loop_raised (urls profile) 0 k url e [] []) as (w' & Hrun & Hc & Hpr);
    [exact Hk | exact Hcancel | exact Hprobe | exact Hat |].
  rewrite Hrun.
  apply validation_loop_frame in Hrun as (Hw & Hf & _).
  unfold on_exception. simpl. rewrite Hc, Hpr, Hw, Hf. simpl.
  destruct Hset as (_ & _ & _ & Hc0 & _). rewrite Hc0. simpl.
  repeat split; auto.
Qed.

(** Inside the loop no observation has the status ["done"]. *)
Lemma validation_loop_not_done (urls : list str) :
  forall (i : nat) (validated failed : list str) (w w' : World) (exit : LoopExit),
    validation_loop env i urls validated failed w = (exit, w') ->
    validation_status (state w) <> lit "done" ->
    Forall (fun o => validation_status (snd o) <> lit "done") (observed w) ->
    Forall (fun o => validation_status (snd o) <> lit "done") (observed w').
Proof.
  destruct status_names_differ as (_ & Hdc & _).
  induction urls as [|url urls IH]; intros i validated failed w w' exit Hrun Hst Hobs;
    simpl in Hrun.
  - injection Hrun as _ <-. exact Hobs.
  - destruct (cancel_is_set env i).
    + injection Hrun as _ <-. unfold assign; simpl.
      apply Forall_app. split; [exact Hobs|].
      constructor; [|constructor]. simpl. intros H. symmetry in H. contradiction.
    + destruct (probe env i url) as [ok_url|e].
      * destruct (classify ok_url url validated failed) as [validated1 failed1].
        apply IH in Hrun; [exact Hrun | exact Hst |].
        unfold assign, start_probe; simpl.
        repeat (apply Forall_app; split); try exact Hobs;
          (constructor; [exact Hst | constructor]).
      * injection Hrun as _ <-. exact Hobs.
Qed.

(** X4. Every run ends with one of the statuses ["cancelled"], ["error"]
    and ["done"]. The status ["done"] is assigned last, after the two
    files were written: whatever the network and the disk do, a record
    that the other thread finds with the status ["done"] is the one that
    the assignment of ["done"] has left, and it is the final one. And the
    status ["done"] stands for a whole run: every URL is counted, [valid]
    and [failed] add up to the total, the two [write_text] calls were made
    in this order and both files hold the texts of this run. *)
Theorem terminal_status (s s0 : AppState) (profile : Profile)
    (files : gmap (str * str) str) :
  current_profile s = Ok (Some profile) ->
  is_empty_list (urls profile) = false ->
  start_validation s = Ok s0 ->
  let w := validation_run env profile files s0 in
  (validation_status (state w) = lit "cancelled" \/
   validation_status (state w) = lit "error" \/
   validation_status (state w) = lit "done") /\
  (forall pt st, In (pt, st) (observed w) ->
     validation_status st = lit "done" -> pt = SetDone /\ st = state w) /\
  (validation_status (state w) = lit "done" ->
   validation_completed (state w) = validation_total (state w) /\
   validation_valid (state w) + validation_failed (state w) = len (urls profile) /\
   exists validated failed,
     validation_valid (state w) = len validated /\
     validation_failed (state w) = len failed /\
     writes w = [(validated_path profile, validated_text validated);
                 (report_path profile, report_text validated failed)] /\
     fs w !! validated_path profile = Some (validated_text validated) /\
     fs w !! report_path profile = Some (report_text validated failed)).
Proof.
  intros Hp Hu Hs w.
  destruct (start_validation_started _ _ _ Hp Hu Hs) as (Hrunning & _ & Hset).
  destruct status_names_differ as (Hec & Hdc & Hde).
  assert (Hdr : lit "running" <> lit "done") by (vm_compute; discriminate).
  unfold w, validation_run, run_validation.
  set (w0 := {| state := s0; fs := files; observed := [(AtStart, s0)];
                probed := []; writes := [] |}).
  assert (Hh0 : history_ok (len (urls profile)) w0).
  { split; simpl.
    - constructor; [|constructor]. pose proof (len_nonneg (urls profile)). counters.
    - constructor; constructor.
    - constructor; [apply counters_le_refl | constructor]. }
  assert (Hst0 : validation_status (state w0) <> lit "done")
    by (simpl; rewrite Hrunning; exact Hdr).
  assert (Hobs0 : Forall (fun o => validation_status (snd o) <> lit "done") (observed w0))
    by (constructor; [exact Hst0 | constructor]).
  destruct (validation_loop env 0 (urls profile) [] [] w0) as [exit w1] eqn:Hloop.
  pose proof (validation_loop_frame env _ _ _ _ _ _ _ Hloop) as (Hw1 & Hf1 & Hs1).
  pose proof (validation_loop_not_done _ _ _ _ _ _ _ Hloop Hst0 Hobs0) as Hobs1.
  pose proof (validation_loop_history env (len (urls profile)) _ _ _ _ _ _ _ Hloop Hh0 Hset)
    as (_ & v & f & rest & Hst & _ & Hexit).
  simpl in Hw1, Hf1.
  assert (Hnone : forall pt st, In (pt, st) (observed w1) ->
                    validation_status st = lit "done" -> pt = SetDone /\ st = state w1).
  { intros pt st Hin Hd. rewrite List.Forall_forall in Hobs1.
    exfalso. exact (Hobs1 _ Hin Hd). }
  assert (Herr : forall e w2, observed w2 = observed w1 ->
            forall pt st, In (pt, st) (observed (on_exception e w2)) ->
              validation_status st = lit "done" ->
              pt = SetDone /\ st = state (on_exception e w2)).
  { intros e w2 Ho pt st Hin Hd. exfalso. unfold on_exception, assign in Hin; simpl in Hin.
    rewrite Ho in Hin. rewrite <- app_assoc in Hin. apply in_app_or in Hin as [Hin|Hin].
    - rewrite List.Forall_forall in Hobs1. exact (Hobs1 _ Hin Hd).
    - destruct Hin as [Hin|[Hin|[]]]; injection Hin as _ <-; simpl in Hd;
        symmetry in Hd; contradiction. }
  destruct exit as [|validated failed|e].
  - rewrite Hs1. split; [auto|]. split; [exact Hnone|].
    intros H. symmetry in H. contradiction.
  - destruct Hexit as (Ev & Ef & Er). subst v f rest.
    destruct Hst as (Ht & Hv & Hf & Hc & Hn).
    unfold write_text.
    destruct (write_text_fails env (validated_path profile) _) as [[e remains]|].
    { split; [unfold on_exception; simpl; auto|]. split; [apply Herr; reflexivity|].
      unfold on_exception. simpl. intros H. symmetry in H. contradiction. }
    simpl.
    destruct (write_text_fails env (report_path profile) _) as [[e remains]|].
    { split; [unfold on_exception; simpl; auto|]. split; [apply Herr; reflexivity|].
      unfold on_exception. simpl. intros H. symmetry in H. contradiction. }
    simpl. split; [auto|]. split.
    { intros pt st Hin Hd. apply in_app_or in Hin as [Hin|Hin].
      - rewrite List.Forall_forall in Hobs1. exfalso. exact (Hobs1 _ Hin Hd).
      - destruct Hin as [Hin|[]]. injection Hin as <- <-. auto. }
    intros _.
    split; [lia|]. split; [lia|].
    exists validated, failed. rewrite Hw1, Hf1. simpl.
    split; [exact Hv|]. split; [exact Hf|]. split; [reflexivity|].
    split; [|apply lookup_insert_eq].
    rewrite lookup_insert_ne by (symmetry; apply artifact_paths_differ).
    apply lookup_insert_eq.
  - split; [unfold on_exception; simpl; auto|]. split; [apply Herr; reflexivity|].
    unfold on_exception. simpl. intros H. symmetry in H. contradiction.
Qed.

End WorkerReach.

(** X2 on the sample profile, whose list file is that of the scenario. *)
Lemma run_keeps_jobs_file_witness :
  snd (jobs_file (sample_profile one_url)) = lit "jobs.txt" /\
  fs (validation_run env_all_valid (sample_profile one_url) scenario_fs
                     (sample_running one_url)) !! jobs_file (sample_profile one_url)
  = scenario_fs !! jobs_file (sample_profile one_url).
Proof.
  split; [reflexivity|].
  exact (proj1 (proj2 (run_keeps_jobs_file env_all_valid (fun _ => Ok tt) (fun _ => Ok tt)
                         (sample_profile one_url) scenario_fs (sample_running one_url)
                         eq_refl))).
Defined.

(** X3 on a sample run: the second of two links raises. *)
Lemma aborted_run_witness :
  two_urls !! 1%nat = Some (lit "https://b.org/2") /\
  probe env_second_invalid 1 (lit "https://b.org/2")
  = Raise (OtherError (lit "Invalid URL")) /\
  let w := validation_run env_second_invalid (sample_profile two_urls) ∅
                          (sample_running two_urls) in
  validation_status (state w) = lit "error" /\
  validation_error (state w) = lit "Invalid URL" /\
  validation_completed (state w) = 1 /\
  writes w = [].
Proof.
  split; [reflexivity|]. split; [reflexivity|].
  destruct (aborted_run env_second_invalid (sample_state two_urls)
              (sample_running two_urls) (sample_profile two_urls) ∅ 1%nat
              (lit "https://b.org/2") (OtherError (lit "Invalid URL")))
    as (Hst & Hmsg & Hc & _ & Hw & _); try reflexivity.
  - intros i u Hi Hu. destruct i; [|lia]. eexists. reflexivity.
  - auto.
Defined.

(** X4 on a sample run: two links, both valid. *)
Lemma terminal_status_witness :
  start_validation (sample_state two_urls) = Ok (sample_running two_urls) /\
  let w := validation_run env_all_valid (sample_profile two_urls) ∅
                          (sample_running two_urls) in
  validation_status (state w) = lit "done" /\
  validation_completed (state w) = validation_total (state w) /\
  validation_valid (state w) + validation_failed (state w) = 2.
Proof.
  split; [reflexivity|].
  destruct (terminal_status env_all_valid (sample_state two_urls)
              (sample_running two_urls) (sample_profile two_urls) ∅
              eq_refl eq_refl eq_refl) as (_ & _ & Hdone).
  assert (Hst : validation_status
                  (state (validation_run env_all_valid (sample_profile two_urls) ∅
                                         (sample_running two_urls))) = lit "done")
    by (vm_compute; reflexivity).
  destruct (Hdone Hst) as (Hc & Hsum & _).
  split; [exact Hst|]. split; [exact Hc | exact Hsum].
Defined.

(** ** Reading and writing lists of URLs *)

Section ReaderFacts.

Variable check_bracketed_netloc : str -> Exc unit.
Variable checknetloc_nfkc : str -> Exc unit.

Let normalize := normalize_url check_bracketed_netloc checknetloc_nfkc.
Let read_loop := read_urls_loop check_bracketed_netloc checknetloc_nfkc.
Let read := read_urls check_bracketed_netloc checknetloc_nfkc.

Lemma blank_not_accepted (raw y : str) :
  normalize raw = Ok (Some y) -> is_blank raw = false.
Proof.
  intros H.
  apply (normalize_url_some check_bracketed_netloc checknetloc_nfkc) in H
    as (_ & Hne & _).
  unfold is_blank. destruct (strip raw); [discriminate | reflexivity].
Qed.

(** The three counts of the loop: every line is accepted, skipped or blank. *)
Lemma read_urls_loop_counts (lines : list str) :
  forall (urls out : list str) (skipped total skipped' total' : Z),
    read_loop lines urls skipped total = Ok (out, skipped', total') ->
    total' = total + len lines /\
    skipped <= skipped' /\
    len out + skipped' + len (List.filter is_blank lines)
    = len urls + skipped + len lines.
Proof.
  induction lines as [|raw lines IH]; intros urls out skipped total skipped' total' H;
    unfold read_loop in H; simpl in H.
  - injection H as <- <- <-. unfold len; simpl. lia.
  - fold normalize in H. fold read_loop in H. rewrite len_cons.
    destruct (normalize raw) as [[y|]|e] eqn:Hn; cbn [bind] in H.
    + apply IH in H as (Ht & Hs & Hc). simpl. rewrite (blank_not_accepted _ _ Hn).
      rewrite len_app in Hc. lia.
    + apply IH in H as (Ht & Hs & Hc). simpl. unfold is_blank at 1.
      destruct (is_empty (strip raw)); simpl in *; rewrite ?len_cons; lia.
    + discriminate.
Qed.

(** X5. What [read_urls] returns for a file that exists: [total] is the
    number of lines of the text, and the URLs, the skipped lines and the
    blank lines add up to it, so that [skipped] is the number of lines that
    hold something and were rejected. *)
Theorem read_urls_counts (fs : gmap (str * str) str) (jobs_file : str * str)
    (text : str) (urls : list str) (skipped total : Z) :
  fs !! jobs_file = Some text ->
  read_urls check_bracketed_netloc checknetloc_nfkc fs jobs_file
  = Ok (urls, skipped, total) ->
  total = len (splitlines text) /\
  len urls + skipped + len (List.filter is_blank (splitlines text)) = total /\
  0 <= skipped.
Proof.
  intros Hfile H. unfold read_urls in H. rewrite Hfile in H.
  apply read_urls_loop_counts in H as (Ht & Hs & Hc).
  unfold len in *. simpl in *. lia.
Qed.

(** A URL that the normalizer returns is one that it returns unchanged. *)
Lemma accepted_is_fixed (raw y : str) :
  normalize raw = Ok (Some y) -> normalize y = Ok (Some y).
Proof.
  intros H.
  apply (normalize_url_some check_bracketed_netloc checknetloc_nfkc) in H
    as (Hsp & Hne & parsed & Hp & Hk & Hn & Hy).
  assert (Hy_sp : existsb isspace y = false).
  { destruct Hy as [->| ->]; [exact Hsp|]. rewrite existsb_app, Hsp. reflexivity. }
  assert (Hy_ne : is_empty y || startswith_char 35 y = false).
  { destruct Hy as [->| ->]; [exact Hne | reflexivity]. }
  unfold normalize, normalize_url.
  rewrite (clean_none _ Hy_sp), Hy_ne, Hy_sp, Hp. cbn [bind].
  rewrite (known_scheme_not_empty _ Hk). cbn [bind negb]. rewrite Hk, Hn. reflexivity.
Qed.

Lemma read_urls_loop_fixed (lines : list str) :
  forall (urls out : list str) (skipped total skipped' total' : Z),
    read_loop lines urls skipped total = Ok (out, skipped', total') ->
    Forall (fun u => normalize u = Ok (Some u)) urls ->
    Forall (fun u => normalize u = Ok (Some u)) out.
Proof.
  induction lines as [|raw lines IH]; intros urls out skipped total skipped' total' H Hf;
    unfold read_loop in H; simpl in H.
  - injection H as <- _ _. exact Hf.
  - fold normalize in H. fold read_loop in H.
    destruct (normalize raw) as [[y|]|e] eqn:Hn; cbn [bind] in H.
    + apply IH in H; [exact H|]. apply Forall_app. split; [exact Hf|].
      constructor; [exact (accepted_is_fixed _ _ Hn) | constructor].
    + apply IH in H; [exact H | exact Hf].
    + discriminate.
Qed.

(** A list of lines that the normalizer returns unchanged is read as it is. *)
Lemma read_urls_loop_accepts (lines : list str) :
  Forall (fun u => normalize u = Ok (Some u)) lines ->
  forall (urls : list str) (skipped total : Z),
    read_loop lines urls skipped total = Ok (urls ++ lines, skipped, total + len lines).
Proof.
  induction 1 as [|u lines Hu Hl IH]; intros urls skipped total;
    unfold read_loop; simpl.
  - rewrite app_nil_r. unfold len. simpl. rewrite Z.add_0_r. reflexivity.
  - fold normalize. fold read_loop. rewrite Hu. cbn [bind]. rewrite IH, len_cons.
    rewrite <- app_assoc. simpl.
    replace (total + 1 + len lines) with (total + (len lines + 1)) by lia. reflexivity.
Qed.

(** X6. Writing and reading are inverse on what was read. When the URLs
    that [read_urls] has returned are written to a file one a line and with
    a line feed after the last (the form of [jobs_validated.txt] and of the
    list that the fetch script writes), [read_urls] returns from this file
    the same URLs in the same order, with nothing skipped and one line
    counted for each URL. The empty list is the one case where the count
    differs: its file is a single line feed, which reads as one blank line,
    so that the total is 1 and not 0. *)
Theorem read_urls_round_trip (fs fs' : gmap (str * str) str) (p q : str * str)
    (urls : list str) (skipped total : Z) :
  read_urls check_bracketed_netloc checknetloc_nfkc fs p = Ok (urls, skipped, total) ->
  fs' !! q = Some (url_lines urls) ->
  read_urls check_bracketed_netloc checknetloc_nfkc fs' q
  = Ok (urls, 0, Z.max 1 (len urls)).
Proof.
  intros Hread Hfile.
  assert (Hfix : Forall (fun u => normalize u = Ok (Some u)) urls).
  { unfold read_urls in Hread. destruct (fs !! p) as [text|].
    - apply read_urls_loop_fixed in Hread; [exact Hread | constructor].
    - injection Hread as <- _ _. constructor. }
  unfold read_urls. rewrite Hfile. unfold url_lines.
  destruct urls as [|u urls]; [reflexivity|].
  rewrite splitlines_join.
  - fold read_loop. rewrite (read_urls_loop_accepts (u :: urls) Hfix).
    pose proof (len_nonneg urls). rewrite (len_cons u urls).
    replace (Z.max 1 (len urls + 1)) with (0 + (len urls + 1)) by lia.
    reflexivity.
  - discriminate.
  - eapply Forall_impl; [exact Hfix|]. simpl. intros v Hv.
    apply no_space_no_linebreak.
    apply (normalize_url_canonical check_bracketed_netloc checknetloc_nfkc) in Hv.
    apply (canonical_spec v Hv).
Qed.

(** *** Lines with and without a scheme *)

Lemma scheme_char_facts (c : char) :
  in_scheme_chars c = true ->
  isspace c = false /\ (c =? 58)%N = false /\ (32 <? c)%N = true.
Proof.
  unfold in_scheme_chars, is_ascii_alpha, is_ascii_upper, is_ascii_lower,
    is_ascii_digit, isspace.
  rewrite !orb_true_iff, !andb_true_iff, !N.leb_le, !N.eqb_eq. intros H.
  repeat split.
  - apply not_true_is_false. rewrite !orb_true_iff, !andb_true_iff, !N.leb_le, !N.eqb_eq. lia.
  - apply N.eqb_neq. lia.
  - apply N.ltb_lt. lia.
Qed.

Lemma plain_char_facts (c : char) :
  is_plain c = true ->
  isspace c = false /\ (c <? 128)%N = true /\ c0_control_or_space c = false.
Proof.
  unfold is_plain, isspace, c0_control_or_space.
  intros H. apply andb_prop in H as [H1 H2]. apply N.ltb_lt in H1, H2.
  repeat split.
  - apply not_true_is_false. rewrite !orb_true_iff, !andb_true_iff, !N.leb_le, !N.eqb_eq. lia.
  - apply N.ltb_lt. lia.
  - apply N.leb_gt. lia.
Qed.

Lemma find_char_first (c : char) (host rest : str) :
  contains c host = false -> find_char c (host ++ c :: rest) = Some (length host).
Proof.
  unfold contains. induction host as [|x host IH]; simpl.
  - rewrite N.eqb_refl. reflexivity.
  - intros H. apply orb_false_elim in H as [Hx Hh].
    rewrite N.eqb_sym, Hx, (IH Hh). reflexivity.
Qed.

Lemma find_char_absent (c : char) (s : str) :
  contains c s = false -> find_char c s = None.
Proof.
  unfold contains. induction s as [|x s IH]; simpl; [reflexivity|].
  intros H. apply orb_false_elim in H as [Hx Hs].
  rewrite N.eqb_sym, Hx, (IH Hs). reflexivity.
Qed.

(** [urlsplit] leaves a text without whitespace alone before it looks for
    the scheme, if the text starts above the control characters. *)
Lemma urlsplit_prepare (c : char) (s : str) :
  c0_control_or_space c = false ->
  existsb isspace (c :: s) = false ->
  remove_char 10 (remove_char 13 (remove_char 9 (lstrip_with c0_control_or_space (c :: s))))
  = c :: s.
Proof.
  intros Hc Hsp. simpl lstrip_with. rewrite Hc.
  rewrite (remove_char_absent 9), (remove_char_absent 13), (remove_char_absent 10);
    try reflexivity; apply no_space_no_char; try reflexivity; exact Hsp.
Qed.

Lemma scheme_like_no_space (host : str) :
  forallb in_scheme_chars host = true ->
  existsb isspace host = false /\ contains 58 host = false.
Proof.
  unfold contains. induction host as [|c host IH]; cbn [existsb forallb]; [auto|].
  intros H. apply andb_prop in H as [Hc Hh].
  destruct (scheme_char_facts c Hc) as (Hs & Hcolon & _).
  destruct (IH Hh) as [-> ->]. rewrite Hs, N.eqb_sym, Hcolon. auto.
Qed.

Lemma firstn_length_app {A : Type} (l r : list A) : firstn (length l) (l ++ r) = l.
Proof. induction l as [|x l IH]; simpl; [reflexivity | rewrite IH; reflexivity]. Qed.

Lemma skipn_length_app_cons {A : Type} (l r : list A) (x : A) :
  skipn (S (length l)) (l ++ x :: r) = r.
Proof. induction l as [|y l IH]; simpl; [reflexivity | exact IH]. Qed.

(** Where [urlsplit] finds the scheme. *)
Lemma split_scheme_found (host rest : str) :
  scheme_like host = true ->
  split_scheme (host ++ 58%N :: rest) = (map ascii_lower host, rest).
Proof.
  destruct host as [|c host]; [discriminate|].
  unfold scheme_like. intros H. apply andb_prop in H as [Halpha Hchars].
  destruct (scheme_like_no_space _ Hchars) as [_ Hcolon].
  unfold split_scheme. rewrite (find_char_first 58 (c :: host) rest Hcolon).
  cbn [length app]. rewrite Halpha.
  replace (firstn (S (length host)) (c :: host ++ 58%N :: rest)) with (c :: host)
    by (cbn [firstn]; rewrite firstn_length_app; reflexivity).
  rewrite Hchars. cbn [andb].
  replace (skipn (S (S (length host))) (c :: host ++ 58%N :: rest)) with rest
    by (cbn [skipn]; rewrite skipn_length_app_cons; reflexivity).
  reflexivity.
Qed.

(** The scheme of the parse is the one that [split_scheme] has found. *)
Lemma urlsplit_scheme (raw sch rest : str) (parsed : ParseResult) :
  remove_char 10 (remove_char 13 (remove_char 9 (lstrip_with c0_control_or_space raw)))
  = raw ->
  split_scheme raw = (sch, rest) ->
  urlparse check_bracketed_netloc checknetloc_nfkc raw = Ok parsed ->
  scheme parsed = sch.
Proof.
  intros Hprep Hsplit. unfold urlparse, urlsplit. rewrite Hprep, Hsplit.
  unfold checknetloc, bind. cbn [is_empty orb].
  repeat match goal with
         | |- context [match ?x with _ => _ end] => destruct x
         end;
    intros H; try discriminate; injection H as <-; reflexivity.
Qed.

(** What the normalizer does once the parse has given a scheme that is
    neither [http] nor [https]. *)
Lemma normalize_url_other_scheme (raw : str) (parsed : ParseResult) :
  existsb isspace raw = false ->
  is_empty raw || startswith_char 35 raw = false ->
  urlparse check_bracketed_netloc checknetloc_nfkc raw = Ok parsed ->
  is_empty (scheme parsed) = false ->
  str_eqb (scheme parsed) (lit "http") || str_eqb (scheme parsed) (lit "https") = false ->
  normalize raw = Ok None.
Proof.
  intros Hsp Hne Hp Hs Hother. unfold normalize, normalize_url.
  rewrite (clean_none raw Hsp), Hne, Hsp, Hp. cbn [bind]. rewrite Hs. cbn [bind].
  rewrite Hother. reflexivity.
Qed.

(** X7. A line with a port and no scheme is not completed with [https://]:
    the normalizer takes the text before the first colon for the scheme,
    and since that is neither [http] nor [https] it rejects the line, as it
    rejects every line with another scheme ([ftp:], [mailto:]), unless
    [urlparse] raises. *)
Theorem other_scheme_rejected (host rest : str) :
  scheme_like host = true ->
  existsb isspace rest = false ->
  str_eqb (map ascii_lower host) (lit "http")
  || str_eqb (map ascii_lower host) (lit "https") = false ->
  normalize_url check_bracketed_netloc checknetloc_nfkc (host ++ [58%N] ++ rest) = Ok None
  \/ exists e,
       normalize_url check_bracketed_netloc checknetloc_nfkc (host ++ [58%N] ++ rest)
       = Raise e.
Proof.
  intros Hscheme Hrest Hother. fold normalize.
  change (host ++ [58%N] ++ rest) with (host ++ 58%N :: rest).
  set (raw := host ++ 58%N :: rest).
  pose proof (split_scheme_found host rest Hscheme) as Hsplit. fold raw in Hsplit.
  destruct host as [|c host]; [discriminate|].
  unfold scheme_like in Hscheme. apply andb_prop in Hscheme as [Halpha Hchars].
  destruct (scheme_like_no_space _ Hchars) as [Hhsp _].
  assert (Hc : in_scheme_chars c = true)
    by (cbn [forallb] in Hchars; apply andb_prop in Hchars; tauto).
  destruct (scheme_char_facts c Hc) as (_ & _ & Hc32).
  assert (Hc0 : c0_control_or_space c = false)
    by (unfold c0_control_or_space; apply N.leb_gt; apply N.ltb_lt in Hc32; lia).
  assert (Hsharp : (c =? 35)%N = false).
  { revert Halpha. unfold is_ascii_alpha, is_ascii_upper, is_ascii_lower.
    rewrite orb_true_iff, !andb_true_iff, !N.leb_le. intros H. apply N.eqb_neq. lia. }
  assert (Hsp : existsb isspace raw = false).
  { unfold raw. rewrite existsb_app, Hhsp. cbn [existsb orb]. rewrite Hrest. reflexivity. }
  assert (Hne : is_empty raw || startswith_char 35 raw = false)
    by (unfold raw; cbn [app is_empty startswith_char orb]; exact Hsharp).
  destruct (urlparse check_bracketed_netloc checknetloc_nfkc raw) as [parsed|e] eqn:Hp.
  - assert (Hs : scheme parsed = map ascii_lower (c :: host)).
    { apply (urlsplit_scheme raw _ rest parsed); [|exact Hsplit | exact Hp].
      unfold raw. apply urlsplit_prepare; [exact Hc0 | exact Hsp]. }
    left. apply (normalize_url_other_scheme raw parsed Hsp Hne Hp); rewrite Hs.
    + reflexivity.
    + exact Hother.
  - right. exists e. unfold normalize, normalize_url.
    rewrite (clean_none raw Hsp), Hne, Hsp, Hp. reflexivity.
Qed.

Lemma plain_text_facts (s : str) :
  forallb is_plain s = true ->
  existsb isspace s = false /\ forallb (fun c => c <? 128)%N s = true.
Proof.
  induction s as [|c s IH]; cbn [forallb existsb]; [auto|].
  intros H. apply andb_prop in H as [Hc Hs].
  destruct (plain_char_facts c Hc) as (-> & -> & _). destruct (IH Hs) as [-> ->]. auto.
Qed.

Lemma take_until_contains (p : char -> bool) (x : char) (s : str) :
  contains x s = false -> contains x (take_until p s) = false.
Proof.
  unfold contains. induction s as [|c s IH]; cbn [take_until existsb]; [reflexivity|].
  intros H. apply orb_false_elim in H as [Hc Hs].
  destruct (p c); [reflexivity|]. cbn [existsb]. rewrite Hc, (IH Hs). reflexivity.
Qed.

Lemma take_until_forallb (p q : char -> bool) (s : str) :
  forallb q s = true -> forallb q (take_until p s) = true.
Proof.
  induction s as [|c s IH]; cbn [take_until forallb]; [reflexivity|].
  intros H. apply andb_prop in H as [Hc Hs].
  destruct (p c); [reflexivity|]. cbn [forallb]. rewrite Hc, (IH Hs). reflexivity.
Qed.

(** The parse of a text whose rest after the scheme does not start with a
    slash: no authority. *)
Lemma urlsplit_no_authority (raw sch : str) (c : char) (s : str) :
  remove_char 10 (remove_char 13 (remove_char 9 (lstrip_with c0_control_or_space raw)))
  = raw ->
  split_scheme raw = (sch, c :: s) ->
  (c =? 47)%N = false ->
  urlparse check_bracketed_netloc checknetloc_nfkc raw
  = Ok {| scheme := sch; netloc := [] |}.
Proof.
  intros Hprep Hsplit Hc. unfold urlparse, urlsplit. rewrite Hprep, Hsplit.
  unfold checknetloc. cbn [is_empty orb bind].
  destruct c as [|p]; [reflexivity|].
  do 6 (try (destruct p as [p|p|]; try reflexivity)).
  discriminate Hc.
Qed.

(** The parse of a text with an authority without brackets, all ASCII. *)
Lemma urlsplit_authority (raw sch rest : str) :
  remove_char 10 (remove_char 13 (remove_char 9 (lstrip_with c0_control_or_space raw)))
  = raw ->
  split_scheme raw = (sch, 47%N :: 47%N :: rest) ->
  contains 91 rest = false -> contains 93 rest = false ->
  forallb (fun c => c <? 128)%N rest = true ->
  urlparse check_bracketed_netloc checknetloc_nfkc raw
  = Ok {| scheme := sch; netloc := take_until is_netloc_delim rest |}.
Proof.
  intros Hprep Hsplit Hl Hr Hascii. unfold urlparse, urlsplit. rewrite Hprep, Hsplit.
  cbv iota beta zeta.
  rewrite (take_until_contains _ 91 rest Hl), (take_until_contains _ 93 rest Hr).
  cbn [andb orb negb bind]. unfold checknetloc.
  rewrite (take_until_forallb _ _ rest Hascii), orb_true_r. reflexivity.
Qed.

(** X8. A line without a scheme is completed with [https://]: when the
    line is printable ASCII without blank, colon or bracket, and does not
    start with [/], [?] or [#], the normalizer returns it with [https://] in
    front. *)
Theorem bare_host_accepted (c : char) (s : str) :
  forallb is_plain (c :: s) = true ->
  is_netloc_delim c = false ->
  contains 58 (c :: s) = false ->
  contains 91 (c :: s) = false ->
  contains 93 (c :: s) = false ->
  normalize_url check_bracketed_netloc checknetloc_nfkc (c :: s)
  = Ok (Some (lit "https://" ++ c :: s)).
Proof.
  intros Hplain Hdelim Hcolon Hl Hr. set (raw := c :: s) in *.
  destruct (plain_text_facts raw Hplain) as [Hsp Hascii].
  assert (Hc : is_plain c = true) by (cbn [forallb] in Hplain; apply andb_prop in Hplain; tauto).
  destruct (plain_char_facts c Hc) as (_ & _ & Hc0).
  unfold is_netloc_delim in Hdelim.
  apply orb_false_elim in Hdelim as [Hdelim Hsharp].
  apply orb_false_elim in Hdelim as [Hslash Hquery].
  assert (Hp1 : urlparse check_bracketed_netloc checknetloc_nfkc raw
                = Ok {| scheme := []; netloc := [] |}).
  { apply (urlsplit_no_authority raw [] c s); [| |exact Hslash].
    - apply urlsplit_prepare; [exact Hc0 | exact Hsp].
    - unfold split_scheme. rewrite (find_char_absent 58 raw Hcolon). reflexivity. }
  set (y := lit "https://" ++ raw).
  assert (Hysp : existsb isspace y = false)
    by (unfold y; rewrite existsb_app, Hsp; reflexivity).
  assert (Hp2 : urlparse check_bracketed_netloc checknetloc_nfkc y
                = Ok {| scheme := lit "https"; netloc := take_until is_netloc_delim raw |}).
  { apply (urlsplit_authority y (lit "https") raw); try assumption.
    - exact (urlsplit_prepare 104 (tl (lit "https://") ++ raw) eq_refl Hysp).
    - exact (split_scheme_found (lit "https") (47%N :: 47%N :: raw) eq_refl). }
  unfold normalize_url. rewrite (clean_none raw Hsp), Hsp.
  replace (is_empty raw || startswith_char 35 raw) with false
    by (unfold raw; cbn [is_empty startswith_char orb]; rewrite Hsharp; reflexivity).
  rewrite Hp1. cbn [bind scheme is_empty]. fold y. rewrite Hp2. cbn [bind scheme netloc].
  replace (str_eqb (lit "https") (lit "http") || str_eqb (lit "https") (lit "https"))
    with true by reflexivity.
  unfold raw. cbn [take_until negb]. unfold is_netloc_delim.
  rewrite Hslash, Hquery, Hsharp. reflexivity.
Qed.



End ReaderFacts.


(** X5 on the list file of the scenario: two URLs, two skipped lines and one
    blank line make five lines. *)
Lemma read_urls_counts_witness :
  scenario_fs !! jobs_txt = Some scenario_text /\
  read_urls (fun _ => Ok tt) (fun _ => Ok tt) scenario_fs jobs_txt
  = Ok (scenario_urls, 2, 5) /\
  5 = len (splitlines scenario_text) /\
  len scenario_urls + 2 + len (List.filter is_blank (splitlines scenario_text)) = 5.
Proof.
  assert (Hfile : scenario_fs !! jobs_txt = Some scenario_text) by reflexivity.
  assert (Hread : read_urls (fun _ => Ok tt) (fun _ => Ok tt) scenario_fs jobs_txt
                  = Ok (scenario_urls, 2, 5)) by (vm_compute; reflexivity).
  destruct (read_urls_counts (fun _ => Ok tt) (fun _ => Ok tt) scenario_fs jobs_txt
              scenario_text scenario_urls 2 5 Hfile Hread) as (Ht & Hc & _).
  auto.
Defined.

(** X6 on the URLs of the scenario. *)
Lemma read_urls_round_trip_witness :
  read_urls (fun _ => Ok tt) (fun _ => Ok tt) scenario_fs jobs_txt
  = Ok (scenario_urls, 2, 5) /\
  read_urls (fun _ => Ok tt) (fun _ => Ok tt) written_back
    (lit "profiles/default", lit "jobs_validated.txt")
  = Ok (scenario_urls, 0, 2).
Proof.
  assert (Hread : read_urls (fun _ => Ok tt) (fun _ => Ok tt) scenario_fs jobs_txt
                  = Ok (scenario_urls, 2, 5)) by (vm_compute; reflexivity).
  split; [exact Hread|].
  exact (read_urls_round_trip (fun _ => Ok tt) (fun _ => Ok tt) scenario_fs written_back
           jobs_txt (lit "profiles/default", lit "jobs_validated.txt")
           scenario_urls 2 5 Hread eq_refl).
Defined.

(** X7 on a host with a port. *)
Lemma other_scheme_rejected_witness :
  scheme_like (lit "example.com") = true /\
  (normalize_url (fun _ => Ok tt) (fun _ => Ok tt) (lit "example.com:8080/jobs") = Ok None
   \/ exists e, normalize_url (fun _ => Ok tt) (fun _ => Ok tt)
                  (lit "example.com:8080/jobs") = Raise e).
Proof.
  split; [reflexivity|].
  exact (other_scheme_rejected (fun _ => Ok tt) (fun _ => Ok tt)
           (lit "example.com") (lit "8080/jobs") eq_refl eq_refl eq_refl).
Defined.

(** X8 on a host with a path. *)
Lemma bare_host_accepted_witness :
  forallb is_plain (lit "example.com/jobs") = true /\
  normalize_url (fun _ => Ok tt) (fun _ => Ok tt) (lit "example.com/jobs")
  = Ok (Some (lit "https://example.com/jobs")).
Proof.
  split; [reflexivity|].
  exact (bare_host_accepted (fun _ => Ok tt) (fun _ => Ok tt)
           101 (lit "xample.com/jobs") eq_refl eq_refl eq_refl eq_refl eq_refl).
Defined.

(** X9 on a host name. *)
Lemma normalize_url_idempotent_witness :
  normalize_url (fun _ => Ok tt) (fun _ => Ok tt) (lit "example.com")
  = Ok (Some (lit "https://example.com")) /\
  normalize_url (fun _ => Ok tt) (fun _ => Ok tt) (lit "https://example.com")
  = Ok (Some (lit "https://example.com")).
Proof.
  assert (H : normalize_url (fun _ => Ok tt) (fun _ => Ok tt) (lit "example.com")
              = Ok (Some (lit "https://example.com"))) by (vm_compute; reflexivity).
  split; [exact H|].
  exact (normalize_url_idempotent (fun _ => Ok tt) (fun _ => Ok tt)
           (lit "example.com") (lit "https://example.com") H).
Defined.

(** X10 on the list file of the scenario. *)
Lemma read_urls_canonical_witness :
  read_urls (fun _ => Ok tt) (fun _ => Ok tt) scenario_fs jobs_txt
  = Ok (scenario_urls, 2, 5) /\
  Forall (canonical_url (fun _ => Ok tt) (fun _ => Ok tt)) scenario_urls.
Proof.
  assert (Hread : read_urls (fun _ => Ok tt) (fun _ => Ok tt) scenario_fs jobs_txt
                  = Ok (scenario_urls, 2, 5)) by (vm_compute; reflexivity).
  split; [exact Hread|].
  exact (read_urls_canonical (fun _ => Ok tt) (fun _ => Ok tt) scenario_fs jobs_txt
           scenario_urls 2 5 Hread).
Defined.

(** ** The keyboard and the prompts *)

Section Prompts.

Variable lower_other : char -> str.
Variable isdigit_other : char -> bool.
Variable isprintable_other : char -> bool.
Variable int_other : str -> option Z.

(** A printable ASCII character is one key: itself, in lower case. *)
Lemma read_keys_printable (c : char) (input : list char) :
  is_printable_ascii c = true ->
  read_keys lower_other (c :: input)
  = [ascii_lower c] :: read_keys lower_other input.
Proof.
  unfold is_printable_ascii. intros H. apply andb_prop in H as [H1 H2].
  apply N.leb_le in H1. apply N.ltb_lt in H2.
  unfold read_keys. cbn [length read_keys_upto read_key].
  destruct (N.eqb_spec c 27); [lia|]. destruct (N.eqb_spec c 13); [lia|].
  destruct (N.eqb_spec c 10); [lia|]. destruct (N.eqb_spec c 3); [lia|].
  cbn [orb]. unfold lower_char.
  destruct (N.ltb_spec c 128); [reflexivity | lia].
Qed.

(** The carriage return that the Enter key sends in raw mode. *)
Lemma read_keys_return (input : list char) :
  read_keys lower_other (13%N :: input) = lit "enter" :: read_keys lower_other input.
Proof. reflexivity. Qed.

Lemma ascii_lower_printable (c : char) :
  is_printable_ascii c = true -> is_printable_ascii (ascii_lower c) = true.
Proof.
  unfold is_printable_ascii, ascii_lower, is_ascii_upper. intros H.
  apply andb_prop in H as [H1 H2]. apply N.leb_le in H1. apply N.ltb_lt in H2.
  destruct (N.leb_spec 65 c), (N.leb_spec c 90); cbn [andb];
    apply andb_true_intro; split; try apply N.leb_le; try apply N.ltb_lt; lia.
Qed.

Lemma ascii_digit_lower (c : char) : is_ascii_digit c = true -> ascii_lower c = c.
Proof.
  unfold is_ascii_digit, ascii_lower, is_ascii_upper. intros H.
  apply andb_prop in H as [H1 H2]. apply N.leb_le in H1, H2.
  destruct (N.leb_spec 65 c); [lia | reflexivity].
Qed.

Lemma ascii_digit_printable (c : char) :
  is_ascii_digit c = true -> is_printable_ascii c = true.
Proof.
  unfold is_ascii_digit, is_printable_ascii. intros H.
  apply andb_prop in H as [H1 H2]. apply N.leb_le in H1, H2.
  apply andb_true_intro; split; [apply N.leb_le | apply N.ltb_lt]; lia.
Qed.

(** A one-character key is none of the named keys. *)
Lemma single_key_names (c : char) :
  str_eqb [c] (lit "enter") = false /\ str_eqb [c] (lit "esc") = false.
Proof. unfold lit. cbn [str_eqb]. rewrite !andb_false_r. auto. Qed.

(** The number prompt takes typed digits into its buffer. *)
Lemma read_number_loop_digits (default max_val : Z) (digits : str) :
  forall (buffer : str) (keys : list str),
    forallb is_ascii_digit digits = true ->
    read_number_loop isdigit_other int_other default max_val buffer
      (map (fun c => [c]) digits ++ keys)
    = read_number_loop isdigit_other int_other default max_val (buffer ++ digits) keys.
Proof.
  induction digits as [|c digits IH]; intros buffer keys H.
  - cbn [map app]. rewrite app_nil_r. reflexivity.
  - cbn [forallb] in H. apply andb_prop in H as [Hc H].
    cbn [map app read_number_loop].
    destruct (single_key_names c) as [-> ->].
    assert (Hb : str_eqb [c] (lit "b") = false).
    { change (lit "b") with [98%N]. cbn [str_eqb]. rewrite andb_true_r.
      unfold is_ascii_digit in Hc. apply andb_prop in Hc as [_ Hc].
      apply N.leb_le in Hc. apply N.eqb_neq. lia. }
    rewrite Hb. cbn [orb].
    assert (Hd : isdigit isdigit_other [c] = true).
    { unfold isdigit, isdigit_char. cbn [is_empty negb forallb andb].
      rewrite andb_true_r. unfold is_ascii_digit in *.
      apply andb_prop in Hc as [H1 H2]. apply N.leb_le in H1, H2.
      destruct (N.ltb_spec c 128); [|lia].
      apply andb_true_intro; split; apply N.leb_le; lia. }
    rewrite Hd, IH by exact H. rewrite <- app_assoc. reflexivity.
Qed.

(** The value of the digits that [str] writes is the number written. *)
Lemma decimal_value_uint (d : Decimal.uint) :
  forall acc : nat,
    fold_left (fun acc c => 10 * acc + (Z.of_N c - 48))
              (lit (NilEmpty.string_of_uint d)) (Z.of_nat acc)
    = Z.of_nat (Nat.of_uint_acc d acc).
Proof.
  induction d; intros acc; unfold lit; cbn [NilEmpty.string_of_uint]; fold lit;
    cbn [fold_left Nat.of_uint_acc]; [reflexivity | ..];
    rewrite <- IHd; f_equal; rewrite Nat.tail_mul_spec;
    vm_compute (Z.of_N (N_of_ascii _)); lia.
Qed.

Lemma decimal_value_str_of_nat (n : nat) : decimal_value (str_of_nat n) = Z.of_nat n.
Proof.
  unfold decimal_value, str_of_nat.
  change 0 with (Z.of_nat 0). rewrite (decimal_value_uint (Nat.to_uint n) 0).
  f_equal. apply DecimalNat.Unsigned.of_to.
Qed.

(** The decimal digits of a number are ASCII digits, and at least one. *)
Lemma str_of_nat_digits (n : nat) :
  forallb is_ascii_digit (str_of_nat n) = true /\ is_empty (str_of_nat n) = false.
Proof.
  unfold str_of_nat. split.
  - generalize (Nat.to_uint n). intros d.
    induction d; unfold lit; simpl; fold lit; auto.
  - pose proof (DecimalNat.Unsigned.of_to n) as H.
    destruct (Nat.to_uint n) eqn:E; try reflexivity.
    cbn in H. subst n. vm_compute in E. discriminate.
Qed.

Lemma read_keys_text (t : str) (input : list char) :
  forallb is_printable_ascii t = true ->
  read_keys lower_other (t ++ input)
  = map (fun c => [ascii_lower c]) t ++ read_keys lower_other input.
Proof.
  induction t as [|c t IH]; intros H; [reflexivity|].
  cbn [forallb] in H. apply andb_prop in H as [Hc H].
  cbn [app map]. rewrite read_keys_printable by exact Hc. rewrite IH by exact H.
  reflexivity.
Qed.

(** X11. The number prompt returns the number typed. When the reads
    deliver the decimal digits of a number and then the carriage return of
    the Enter key, [read_number] returns that number, raised to 1 when it
    is 0 and cut at [max_val]; the default plays no part, and neither does
    what the reads deliver afterwards. *)
Theorem read_number_typed (default max_val : Z) (n : nat) (input : list char) :
  (length (str_of_nat n) <= 4300)%nat ->
  option_map fst
    (read_number isdigit_other int_other default max_val
       (read_keys lower_other (str_of_nat n ++ 13%N :: input)))
  = Some (Z.min (Z.max 1 (Z.of_nat n)) max_val).
Proof.
  intros Hlen. destruct (str_of_nat_digits n) as [Hd Hne].
  rewrite read_keys_text.
  2:{ clear -Hd. induction (str_of_nat n) as [|c l IH]; [reflexivity|].
      cbn [forallb] in *. apply andb_prop in Hd as [Hc Hd].
      rewrite ascii_digit_printable, IH by assumption. reflexivity. }
  rewrite read_keys_return.
  replace (map (fun c => [ascii_lower c]) (str_of_nat n))
    with (map (fun c : char => [c]) (str_of_nat n)).
  2:{ clear -Hd. induction (str_of_nat n) as [|c l IH]; [reflexivity|].
      cbn [forallb map] in *. apply andb_prop in Hd as [Hc Hd].
      rewrite ascii_digit_lower, IH by assumption. reflexivity. }
  unfold read_number. rewrite read_number_loop_digits by exact Hd.
  cbn [app read_number_loop].
  replace (str_eqb (lit "enter") (lit "enter")) with true by reflexivity.
  rewrite Hne. unfold int. rewrite Hne, Hd. cbn [negb andb].
  destruct (Nat.leb_spec (length (str_of_nat n)) 4300); [|lia].
  rewrite decimal_value_str_of_nat. reflexivity.
Qed.

(** The text prompt takes typed characters into its buffer. *)
Lemma read_text_input_loop_text (t : str) :
  forall (buffer : str) (keys : list str),
    forallb is_printable_ascii t = true ->
    read_text_input_loop isprintable_other buffer (map (fun c => [c]) t ++ keys)
    = read_text_input_loop isprintable_other (buffer ++ t) keys.
Proof.
  induction t as [|c t IH]; intros buffer keys H.
  - cbn [map app]. rewrite app_nil_r. reflexivity.
  - cbn [forallb] in H. apply andb_prop in H as [Hc H].
    cbn [map app read_text_input_loop].
    destruct (single_key_names c) as [-> ->].
    unfold is_printable_ascii in Hc. apply andb_prop in Hc as [H1 H2].
    assert (Hb : str_eqb [c] backspace = false).
    { unfold backspace. cbn [str_eqb]. rewrite andb_true_r.
      apply N.eqb_neq. apply N.ltb_lt in H2. lia. }
    rewrite Hb. unfold is_printable_char.
    assert (H128 : (c <? 128)%N = true) by (apply N.ltb_lt; apply N.ltb_lt in H2; lia).
    rewrite H128, H1, H2. cbn [andb]. rewrite IH by exact H.
    rewrite <- app_assoc. reflexivity.
Qed.

(** X12. The text prompt stores what was typed in lower case: typing a text
    of printable ASCII characters and pressing Enter gives the text already
    in the buffer followed by the typed one, its ASCII capitals turned into
    small letters, with the white space at both ends removed; the prompt
    is not cancelled. *)
Theorem read_text_input_typed (existing t : str) (input : list char) :
  forallb is_printable_ascii t = true ->
  read_text_input isprintable_other existing
    (read_keys lower_other (t ++ 13%N :: input))
  = Some ((strip (existing ++ map ascii_lower t), false), read_keys lower_other input).
Proof.
  intros Ht. rewrite read_keys_text by exact Ht. rewrite read_keys_return.
  replace (map (fun c => [ascii_lower c]) t)
    with (map (fun c : char => [c]) (map ascii_lower t)) by (rewrite map_map; reflexivity).
  unfold read_text_input. rewrite read_text_input_loop_text.
  - reflexivity.
  - clear -Ht. induction t as [|c t IH]; [reflexivity|].
    cbn [forallb map] in *. apply andb_prop in Ht as [Hc Ht].
    rewrite ascii_lower_printable, IH by assumption. reflexivity.
Qed.

End Prompts.

Lemma read_number_typed_witness :
  option_map fst
    (read_number (fun _ => false) (fun _ => None) 10 30
       (read_keys (fun c => [c]) (lit "25" ++ 13%N :: lit "7")))
  = Some 25.
Proof.
  exact (read_number_typed (fun c => [c]) (fun _ => false) (fun _ => None) 10 30 25
           (lit "7") ltac:(vm_compute; lia)).
Defined.

Lemma read_text_input_typed_witness :
  read_text_input (fun _ => false) [] (read_keys (fun c => [c]) (lit " AWS Lambda " ++ 13%N :: []))
  = Some ((lit "aws lambda", false), []).
Proof.
  exact (read_text_input_typed (fun c => [c]) (fun _ => false) [] (lit " AWS Lambda ") []
           eq_refl).
Defined.

(** ** The session loop *)

Lemma getitem_in_range {A : Type} (l : list A) (i : Z) :
  0 <= i < len l -> exists x, getitem l i = Ok x /\ l !! Z.to_nat i = Some x.
Proof.
  intros H. unfold getitem, index_position.
  destruct (Z.leb_spec 0 i); [|lia]. destruct (Z.ltb_spec i (len l)); [|lia].
  cbn [andb]. destruct (l !! Z.to_nat i) as [x|] eqn:E; [eauto|].
  apply lookup_ge_None in E. unfold len in H. lia.
Qed.

Lemma setitem_in_range {A : Type} (l : list A) (i : Z) (x : A) :
  0 <= i < len l -> exists l', setitem l i x = Ok l' /\ len l' = len l.
Proof.
  intros H. unfold setitem, index_position.
  destruct (Z.leb_spec 0 i); [|lia]. destruct (Z.ltb_spec i (len l)); [|lia].
  cbn [andb]. eexists. split; [reflexivity|]. unfold len.
  rewrite length_insert. reflexivity.
Qed.

Lemma current_profile_in_range (s : AppState) :
  0 <= profile_idx s < len (profiles s) ->
  exists p, current_profile s = Ok (Some p).
Proof.
  intros H. unfold current_profile.
  destruct (getitem_in_range (profiles s) (profile_idx s) H) as (p & Hp & _).
  destruct (profiles s); [unfold len in H; simpl in H; lia|]. rewrite Hp. eauto.
Qed.

Section SessionSafety.

Variable check_bracketed_netloc : str -> Exc unit.
Variable checknetloc_nfkc : str -> Exc unit.
Variable isdigit_other : char -> bool.
Variable isprintable_other : char -> bool.
Variable int_other : str -> option Z.
Variable load_search_specs : Profile -> option (list Source).
Variable copy_to_clipboard : str -> bool.
Variable fetch_jobs_for_profile :
  Profile -> gmap (str * str) str -> (Z * str) * gmap (str * str) str.

(** Reloading a profile returns it with a new list under the same names. *)
Lemma reload_urls_cases (fs : gmap (str * str) str) (p : Profile) :
  match reload_urls check_bracketed_netloc checknetloc_nfkc fs p with
  | Ok p' => search_specs p' = search_specs p /\ jobs_file p' = jobs_file p
  | Raise _ => True
  end.
Proof.
  unfold reload_urls, read_urls.
  destruct (fs !! jobs_file p) as [text|]; cbn [bind]; [|auto].
  destruct (read_urls_loop _ _ _ _ _ _) as [[[u sk] t]|e] eqn:E; cbn [bind]; auto.
Qed.

(** Goals on a record that setters have built from one in order. *)
Ltac in_order_goal :=
  unfold in_order, step_in_order, session_ok in *; simpl in *;
  repeat match goal with
         | H : _ /\ _ |- _ => destruct H
         | H : ?a = ?a -> _ |- _ => specialize (H eq_refl)
         | H : ?x = _ |- context [match ?x with _ => _ end] => rewrite H
         | H : ?x = _ |- context [on_prompt_builder ?x] => rewrite H
         | H : ?x = _, H' : context [match ?x with _ => _ end] |- _ => rewrite H in H'
         | H : ?x = _, H' : context [on_prompt_builder ?x] |- _ => rewrite H in H'
         | |- _ /\ _ => split
         | |- _ -> _ => intro
         end;
  try solve [ exact I | assumption | discriminate | congruence | lia | reflexivity | eauto
            | match goal with
              | Hp : current_profile _ = Ok (Some ?p) |- exists _, _ =>
                  exists p; split; [exact Hp | congruence]
              end ].

Lemma current_profile_ext (s s' : AppState) :
  profiles s' = profiles s -> profile_idx s' = profile_idx s ->
  current_profile s' = current_profile s.
Proof. unfold current_profile. intros -> ->. reflexivity. Qed.

Lemma init_ai_prompt_builder_in_order (s : AppState) :
  0 <= profile_idx s < len (profiles s) ->
  exists s', init_ai_prompt_builder load_search_specs s = Ok s' /\
    screen s' = screen s /\ profiles s' = profiles s /\
    profile_idx s' = profile_idx s /\ selection_idx s' = selection_idx s /\
    ai_company_batch_idx s' = Some 0 /\
    len (ai_company_selected s') = len (ai_companies s').
Proof.
  intros H. destruct (current_profile_in_range s H) as (p & Hp).
  unfold init_ai_prompt_builder. rewrite Hp. cbn [bind].
  eexists. split; [reflexivity|]. cbn. repeat split.
Qed.

Lemma handle_main_menu_in_order (s : AppState) (key : str) :
  session_ok s -> screen s = MAIN_MENU ->
  in_order (handle_main_menu load_search_specs (render_message s) key).
Proof.
  intros (Hidx & Hsel & Hfetch & Hai) Hscr. rewrite Hscr in Hsel, Hfetch, Hai.
  destruct (current_profile_in_range s Hidx) as (p & Hp).
  assert (Hp' : current_profile (render_message s) = Ok (Some p)) by exact Hp.
  destruct (init_ai_prompt_builder_in_order (render_message s) Hidx)
    as (s1 & Hinit & H1 & H2 & H3 & H4 & H5 & H6).
  unfold handle_main_menu, no_urls, start_validation.
  rewrite (current_profile_ext s (set_screen _ _)) by reflexivity.
  rewrite Hinit, Hp', Hp. cbn [bind].
  repeat match goal with
         | |- context [if ?c then _ else _] => destruct c eqn:?
         | |- context [match search_specs p with _ => _ end] =>
             destruct (search_specs p) eqn:?
         end; cbn [bind]; rewrite ?Hp'; cbn [bind];
  repeat match goal with
         | |- context [if ?c then _ else _] => destruct c eqn:?
         end.
  all: destruct (ai_company_batch_idx s) as [page|] eqn:Hpage.
  all: in_order_goal.
Qed.

Lemma handle_profile_select_in_order (fs : gmap (str * str) str) (s : AppState)
    (key : str) :
  session_ok s -> screen s = PROFILE_SELECT ->
  in_order (handle_profile_select check_bracketed_netloc checknetloc_nfkc fs
              (render_message s) key).
Proof.
  intros (Hidx & Hsel & Hfetch & Hai) Hscr. specialize (Hsel Hscr).
  rewrite Hscr in Hfetch, Hai.
  unfold handle_profile_select.
  destruct (current_profile_in_range
              (set_profile_idx (selection_idx (render_message s)) (render_message s)) Hsel)
    as (p & Hp).
  rewrite Hp. cbn [bind].
  pose proof (reload_urls_cases fs p) as Hr.
  destruct (reload_urls _ _ fs p) as [p'|e]; cbn [bind].
  - destruct (setitem_in_range (profiles s) (selection_idx s) p' Hsel) as (ps & Hps & Hlen).
    change (setitem _ _ p') with (setitem (profiles s) (selection_idx s) p').
    rewrite Hps. cbn [bind].
    repeat match goal with
           | |- context [if ?c then _ else _] => destruct c eqn:?
           end.
    all: destruct (ai_company_batch_idx s) as [page|] eqn:Hpage.
    all: in_order_goal.
  - repeat match goal with
           | |- context [if ?c then _ else _] => destruct c eqn:?
           end.
    all: destruct (ai_company_batch_idx s) as [page|] eqn:Hpage.
    all: in_order_goal.
Qed.

Lemma handle_open_settings_in_order (s : AppState) (keys : list str) :
  session_ok s -> screen s = OPEN_SETTINGS ->
  step_in_order (handle_open_settings isdigit_other int_other s keys).
Proof.
  intros (Hidx & Hsel & Hfetch & Hai) Hscr. rewrite Hscr in Hsel, Hfetch, Hai.
  destruct (current_profile_in_range s Hidx) as (p & Hp).
  unfold handle_open_settings. rewrite Hp.
  repeat match goal with
         | |- context [match ?c with _ => _ end] => destruct c eqn:?
         end.
  all: destruct (ai_company_batch_idx s) as [page|] eqn:Hpage.
  all: in_order_goal.
Qed.

Lemma handle_opening_in_order (s : AppState) :
  session_ok s -> screen s = OPENING -> in_order (handle_opening s).
Proof.
  intros (Hidx & Hsel & Hfetch & Hai) Hscr. rewrite Hscr in Hsel, Hfetch, Hai.
  destruct (current_profile_in_range s Hidx) as (p & Hp).
  unfold handle_opening. rewrite Hp. cbn [bind].
  destruct (ai_company_batch_idx s) as [page|] eqn:Hpage; in_order_goal.
Qed.

Lemma handle_validating_in_order (s : AppState) (key : str) :
  session_ok s -> screen s = VALIDATING -> session_ok (handle_validating s key).
Proof.
  intros (Hidx & Hsel & Hfetch & Hai) Hscr. rewrite Hscr in Hsel, Hfetch, Hai.
  unfold handle_validating.
  repeat match goal with
         | |- context [if ?c then _ else _] => destruct c eqn:?
         end.
  all: destruct (ai_company_batch_idx s) as [page|] eqn:Hpage.
  all: in_order_goal.
Qed.

Lemma handle_fetching_in_order (fs : gmap (str * str) str) (s : AppState) :
  session_ok s -> screen s = FETCHING ->
  in_order (fst (handle_fetching check_bracketed_netloc checknetloc_nfkc
                   fetch_jobs_for_profile fs s)).
Proof.
  intros (Hidx & Hsel & Hfetch & Hai) Hscr. rewrite Hscr in Hsel, Hai.
  destruct (Hfetch Hscr) as (p & Hp & Hspecs).
  unfold handle_fetching. rewrite Hp.
  destruct (search_specs p) as [specs|]; [|congruence].
  destruct (fetch_jobs_for_profile p fs) as [[count error] fs'].
  destruct (negb (is_empty error)); cbn [fst].
  - destruct (ai_company_batch_idx s) as [page|] eqn:Hpage; in_order_goal.
  - pose proof (reload_urls_cases fs' p) as Hr.
    destruct (reload_urls _ _ fs' p) as [p'|e]; cbn [bind]; [|exact I].
    destruct (setitem_in_range (profiles s) (profile_idx s) p' Hidx) as (ps & Hps & Hlen).
    rewrite Hps. cbn [bind].
    destruct (ai_company_batch_idx s) as [page|] eqn:Hpage; in_order_goal.
Qed.

Lemma handle_ai_keywords_in_order (s : AppState) (key : str) (keys : list str) :
  session_ok s -> screen s = AI_PROMPT_KEYWORDS ->
  step_in_order (handle_ai_keywords isprintable_other s key keys).
Proof.
  intros (Hidx & Hsel & Hfetch & Hai) Hscr. rewrite Hscr in Hsel, Hfetch, Hai.
  unfold handle_ai_keywords.
  repeat match goal with
         | |- context [match ?c with _ => _ end] => destruct c eqn:?
         end.
  all: destruct (ai_company_batch_idx s) as [page|] eqn:Hpage.
  all: in_order_goal.
Qed.

Lemma handle_ai_locations_in_order (s : AppState) (key : str) (keys : list str) :
  session_ok s -> screen s = AI_PROMPT_LOCATIONS ->
  step_in_order (handle_ai_locations isprintable_other s key keys).
Proof.
  intros (Hidx & Hsel & Hfetch & Hai) Hscr. rewrite Hscr in Hsel, Hfetch, Hai.
  unfold handle_ai_locations.
  repeat match goal with
         | |- context [match ?c with _ => _ end] => destruct c eqn:?
         end.
  all: destruct (ai_company_batch_idx s) as [page|] eqn:Hpage.
  all: in_order_goal.
Qed.

Lemma handle_ai_prompt_display_in_order (s : AppState) (key : str) :
  session_ok s -> screen s = AI_PROMPT_DISPLAY ->
  session_ok (handle_ai_prompt_display copy_to_clipboard s key).
Proof.
  intros (Hidx & Hsel & Hfetch & Hai) Hscr. rewrite Hscr in Hsel, Hfetch, Hai.
  unfold handle_ai_prompt_display.
  repeat match goal with
         | |- context [if ?c then _ else _] => destruct c eqn:?
         end.
  all: destruct (ai_company_batch_idx s) as [page|] eqn:Hpage.
  all: in_order_goal.
Qed.

(** A toggle that returns has kept the number of flags. *)
Lemma toggle_keeps_length (l l' : list bool) (i : Z) :
  toggle l i = Ok l' -> len l' = len l.
Proof.
  unfold toggle, setitem, bind. destruct (getitem l i) as [b|e]; [|discriminate].
  destruct (index_position l i) as [n|]; [|discriminate].
  intros H. injection H as <-. unfold len. rewrite length_insert. reflexivity.
Qed.

Lemma handle_ai_companies_in_order (s : AppState) (key : str) :
  session_ok s -> screen s = AI_PROMPT_COMPANIES ->
  in_order (handle_ai_companies isdigit_other int_other s key).
Proof.
  intros (Hidx & Hsel & Hfetch & Hai) Hscr. rewrite Hscr in Hsel, Hfetch, Hai.
  unfold handle_ai_companies.
  destruct (ai_company_batch_idx s) as [page|] eqn:Hpage; [|exact I].
  destruct Hai as [Hpage0 Hlen]. cbn [bind].
  destruct (str_eqb key (lit "j") || str_eqb key (lit "down")).
  { repeat match goal with
           | |- context [if ?c then _ else _] => destruct c eqn:?
           end; in_order_goal. }
  destruct (str_eqb key (lit "k") || str_eqb key (lit "up")).
  { repeat match goal with
           | |- context [if ?c then _ else _] => destruct c eqn:?
           end; in_order_goal. }
  destruct (str_eqb key (lit "<") || str_eqb key (lit ",") || str_eqb key (lit "left")).
  { repeat match goal with
           | |- context [if ?c then _ else _] => destruct c eqn:?
           end; in_order_goal. }
  destruct (str_eqb key (lit ">") || str_eqb key (lit ".") || str_eqb key (lit "right")).
  { repeat match goal with
           | |- context [if ?c then _ else _] => destruct c eqn:?
           end; in_order_goal. }
  destruct (str_eqb key (lit " ")).
  { destruct (_ && _); [|in_order_goal].
    destruct (toggle (ai_company_selected s) (selection_idx s)) as [sel|e] eqn:Ht;
      cbn [bind]; [|exact I].
    apply toggle_keeps_length in Ht. in_order_goal. }
  destruct (isdigit isdigit_other key).
  { destruct (int int_other key) as [num|]; [|exact I]. cbv zeta.
    destruct (_ <? _); [|in_order_goal].
    destruct (toggle (ai_company_selected s) _) as [sel|e] eqn:Ht; cbn [bind]; [|exact I].
    apply toggle_keeps_length in Ht. in_order_goal. }
  destruct (str_eqb key (lit "a")).
  { in_order_goal. unfold len. rewrite repeat_length, Nat2Z.id. reflexivity. }
  destruct (str_eqb key (lit "c")).
  { in_order_goal. unfold len. rewrite repeat_length, Nat2Z.id. reflexivity. }
  destruct (selected_companies _ _ _) as [chosen|e]; cbn [bind];
    repeat match goal with
           | |- context [if ?c then _ else _] => destruct c eqn:?
           end; in_order_goal.
Qed.

Lemma step_of_in_order (r : Exc AppState) (keys : list str) :
  in_order r -> step_in_order (step_of r keys).
Proof. destruct r; exact (fun H => H). Qed.

(** One turn of the loop. *)
Lemma main_iteration_in_order (fs : gmap (str * str) str) (s : AppState)
    (keys : list str) :
  session_ok s ->
  step_in_order (fst (main_iteration check_bracketed_netloc checknetloc_nfkc
                        isdigit_other isprintable_other int_other load_search_specs
                        copy_to_clipboard fetch_jobs_for_profile fs s keys)).
Proof.
  intros Hok. unfold main_iteration.
  destruct (screen s) eqn:Hscr.
  - destruct keys as [|key keys]; [exact I|]. cbn [fst].
    apply step_of_in_order, handle_main_menu_in_order; assumption.
  - destruct keys as [|key keys]; [exact I|]. cbn [fst].
    apply step_of_in_order, handle_profile_select_in_order; assumption.
  - cbn [fst]. apply handle_open_settings_in_order; assumption.
  - cbn [fst]. apply step_of_in_order, handle_opening_in_order; assumption.
  - destruct keys as [|key keys]; [exact I|]. cbn [fst].
    apply handle_validating_in_order; assumption.
  - pose proof (handle_fetching_in_order fs s Hok Hscr) as H.
    destruct (handle_fetching _ _ _ fs s) as [r fs']. cbn [fst] in *.
    apply step_of_in_order, H.
  - destruct keys as [|key keys]; [exact I|]. cbn [fst].
    apply handle_ai_keywords_in_order; assumption.
  - destruct keys as [|key keys]; [exact I|]. cbn [fst].
    apply handle_ai_locations_in_order; assumption.
  - destruct keys as [|key keys]; [exact I|]. cbn [fst].
    apply step_of_in_order, handle_ai_companies_in_order; assumption.
  - destruct keys as [|key keys]; [exact I|]. cbn [fst].
    apply handle_ai_prompt_display_in_order; assumption.
  - exact Hok.
Qed.

(** X13. The handlers keep the session in order. [main] enters its loop
    with a profile list that is not empty and the index of the current
    profile inside it; from such a record, and from every record that is in
    order, the record after any number of turns of the loop is in order
    again: the index of the current profile is a position of the profile
    list, on the profile screen the cursor is one too, the fetch screen is
    on for a profile with a configuration file only, and once the prompt
    builder has been opened the page index is not negative and there is one
    flag per company. Of a run that an exception ends nothing is said. *)
Theorem session_stays_in_order (fuel : nat) :
  forall (fs : gmap (str * str) str) (s : AppState) (keys : list str),
    session_ok s ->
    match main_loop check_bracketed_netloc checknetloc_nfkc isdigit_other
            isprintable_other int_other load_search_specs copy_to_clipboard
            fetch_jobs_for_profile fuel fs s keys with
    | Ok s' => session_ok s'
    | Raise _ => True
    end.
Proof.
  induction fuel as [|fuel IH]; intros fs s keys Hok; [exact Hok|].
  cbn [main_loop].
  pose proof (main_iteration_in_order fs s keys Hok) as Hstep.
  destruct (main_iteration _ _ _ _ _ _ _ _ fs s keys) as [[s' keys'|e|] fs'];
    cbn [fst step_in_order] in Hstep.
  - destruct (screen s); try exact Hok; apply IH, Hstep.
  - destruct (screen s); try exact Hok; exact I.
  - destruct (screen s); exact Hok.
Qed.

End SessionSafety.

(** [main] enters its loop with a record in order. *)
Lemma session_start_in_order (ps : list Profile) (i : Z) :
  0 <= i < len ps -> session_ok (set_profile_idx i (set_profiles ps initial_state)).
Proof.
  intros H. unfold session_ok. cbn. repeat split; try lia; discriminate.
Qed.

Lemma session_stays_in_order_witness :
  match main_loop (fun _ => Ok tt) (fun _ => Ok tt) (fun _ => false) (fun _ => false)
          (fun _ => None) (fun _ => None) (fun _ => true)
          (fun _ fs => ((0, []), fs)) 20 scenario_fs session_start
          (map lit ["g"; "n"; "n"; " "; "j"; "3"; "n"; "enter"; "p"; "j"; "enter"]%string) with
  | Ok s' => session_ok s' /\ screen s' = MAIN_MENU
  | Raise _ => False
  end.
Proof.
  pose proof (session_stays_in_order (fun _ => Ok tt) (fun _ => Ok tt) (fun _ => false)
                (fun _ => false) (fun _ => None) (fun _ => None) (fun _ => true)
                (fun _ fs => ((0, []), fs))
                20 scenario_fs session_start
                (map lit ["g"; "n"; "n"; " "; "j"; "3"; "n"; "enter"; "p"; "j"; "enter"]%string)
                (session_start_in_order [sample_profile one_url] 0 ltac:(unfold len; simpl; lia))) as H.
  destruct (main_loop _ _ _ _ _ _ _ _ _ _ _ _) as [s'|e] eqn:E.
  - split; [exact H|]. revert E. vm_compute. intros E. injection E as <-. reflexivity.
  - revert E. vm_compute. discriminate.
Defined.

(** *** The worker and the session *)

(** Whether a record is in order depends on nothing that the worker
    writes. *)
Lemma session_ok_session_part (s s' : AppState) :
  session_part s' = session_part s -> session_ok s -> session_ok s'.
Proof.
  unfold session_part. intros H. injection H. intros.
  unfold session_ok, current_profile.
  repeat match goal with
         | Heq : ?f s' = ?f s |- _ => try rewrite Heq; clear Heq
         end.
  assumption.
Qed.

Lemma validation_run_within_reach (env : Env) (profile : Profile)
    (files : gmap (str * str) str) (s0 : AppState) :
  within_reach s0 (validation_run env profile files s0).
Proof.
  unfold validation_run, run_validation.
  set (w0 := {| state := s0; fs := files; observed := [(AtStart, s0)];
                probed := []; writes := [] |}).
  assert (H0 : within_reach s0 w0).
  { split; [constructor; [reflexivity | constructor] | reflexivity]. }
  destruct (validation_loop env 0 (urls profile) [] [] w0) as [exit w1] eqn:Hloop.
  apply (validation_loop_reach env s0) in Hloop; [|exact H0].
  destruct exit as [|validated failed|e]; [exact Hloop | | apply on_exception_reach, Hloop].
  destruct (write_text env _ _ w1) as [r2 w2] eqn:Hw2.
  apply (write_text_reach env s0) in Hw2; [|exact Hloop].
  destruct r2 as [e|]; [apply on_exception_reach, Hw2|].
  destruct (write_text env _ _ w2) as [r3 w3] eqn:Hw3.
  apply (write_text_reach env s0) in Hw3; [|exact Hw2].
  destruct r3 as [e|]; [apply on_exception_reach, Hw3|].
  apply assign_reach; [reflexivity | exact Hw3].
Qed.

(** X14. The worker cannot take the session out of order: started on a
    record in order, every value of the record that a run leaves behind,
    between any two of its assignments and at its end, is in order. So the
    handlers find a record in order at whatever moment of a run they look
    at it. *)
Theorem worker_keeps_order (env : Env) (profile : Profile)
    (files : gmap (str * str) str) (s0 : AppState) :
  session_ok s0 ->
  let w := validation_run env profile files s0 in
  Forall (fun o => session_ok (snd o)) (observed w) /\ session_ok (state w).
Proof.
  intros Hok w. destruct (validation_run_within_reach env profile files s0) as [Hobs Hst].
  fold w in Hobs, Hst. split.
  - eapply Forall_impl; [exact Hobs|]. intros o Ho.
    exact (session_ok_session_part s0 (snd o) Ho Hok).
  - exact (session_ok_session_part s0 (state w) Hst Hok).
Qed.

Lemma worker_keeps_order_witness :
  session_ok (sample_running two_urls) /\
  let w := validation_run env_all_valid (sample_profile two_urls) ∅
                          (sample_running two_urls) in
  length (observed w) = 8%nat /\
  Forall (fun o => session_ok (snd o)) (observed w) /\ session_ok (state w).
Proof.
  assert (H : session_ok (sample_running two_urls)).
  { unfold session_ok. cbn. repeat split; try lia; discriminate. }
  split; [exact H|]. split; [reflexivity|].
  exact (worker_keeps_order env_all_valid (sample_profile two_urls) ∅
           (sample_running two_urls) H).
Defined.

(** *** The validation screen and the profile screen *)

Section ScreenFacts.

Variable check_bracketed_netloc : str -> Exc unit.
Variable checknetloc_nfkc : str -> Exc unit.
Variable isdigit_other : char -> bool.
Variable isprintable_other : char -> bool.
Variable int_other : str -> option Z.
Variable load_search_specs : Profile -> option (list Source).
Variable copy_to_clipboard : str -> bool.
Variable fetch_jobs_for_profile :
  Profile -> gmap (str * str) str -> (Z * str) * gmap (str * str) str.

(** X15. While the status is ["running"] no key leaves the validation
    screen: whatever is typed, the loop stays on it, and the only thing a
    key changes in the record is the cancel flag, which the key [c] sets.
    Another run, a reload or a profile change cannot be started from the
    keyboard before the worker has set another status. *)
Theorem validating_holds (fuel : nat) :
  forall (fs : gmap (str * str) str) (s : AppState) (keys : list str),
    screen s = VALIDATING ->
    validation_status s = lit "running" ->
    main_loop check_bracketed_netloc checknetloc_nfkc isdigit_other
      isprintable_other int_other load_search_specs copy_to_clipboard
      fetch_jobs_for_profile fuel fs s keys
    = Ok (if existsb (fun key => str_eqb key (lit "c")) (firstn fuel keys)
          then set_validation_cancel true s else s).
Proof.
  induction fuel as [|fuel IH]; intros fs s keys Hscr Hst; [reflexivity|].
  cbn [main_loop]. unfold main_iteration. rewrite Hscr.
  destruct keys as [|key keys]; [reflexivity|].
  cbn [firstn existsb]. unfold handle_validating. rewrite Hst.
  replace (str_eqb (lit "running") (lit "running")) with true by reflexivity.
  destruct (str_eqb key (lit "c")); cbn [orb].
  - rewrite IH by assumption. destruct (existsb _ _); reflexivity.
  - apply IH; assumption.
Qed.

(** X16. Enter on the profile screen makes the profile under the cursor
    the current one and reads its list file again: the current profile
    then has the URLs that [read_urls] finds in the file at that moment and
    their number, under the same name and file; the other profiles are as
    they were, and the main menu is next. *)
Theorem profile_enter_reloads (fs : gmap (str * str) str) (s : AppState)
    (p : Profile) (new_urls : list str) (skipped total : Z) :
  0 <= selection_idx s < len (profiles s) ->
  profiles s !! Z.to_nat (selection_idx s) = Some p ->
  read_urls check_bracketed_netloc checknetloc_nfkc fs (jobs_file p)
  = Ok (new_urls, skipped, total) ->
  exists s' p',
    handle_profile_select check_bracketed_netloc checknetloc_nfkc fs s (lit "enter")
    = Ok s' /\
    screen s' = MAIN_MENU /\ profile_idx s' = selection_idx s /\
    current_profile s' = Ok (Some p') /\
    urls p' = new_urls /\ url_count p' = len new_urls /\
    name p' = name p /\ jobs_file p' = jobs_file p /\
    search_specs p' = search_specs p /\
    forall j, j <> Z.to_nat (selection_idx s) -> profiles s' !! j = profiles s !! j.
Proof.
  intros Hsel Hp Hread. unfold handle_profile_select.
  replace (str_eqb (lit "enter") (lit "j") || str_eqb (lit "enter") (lit "down"))
    with false by reflexivity.
  replace (str_eqb (lit "enter") (lit "k") || str_eqb (lit "enter") (lit "up"))
    with false by reflexivity.
  replace (str_eqb (lit "enter") (lit "enter")) with true by reflexivity.
  assert (Hcp : current_profile (set_profile_idx (selection_idx s) s) = Ok (Some p)).
  { unfold current_profile. cbn.
    destruct (getitem_in_range (profiles s) (selection_idx s) Hsel) as (x & Hx & Hl).
    rewrite Hx. destruct (profiles s); [discriminate|]. cbn [bind]. congruence. }
  rewrite Hcp. cbn [bind]. unfold reload_urls. rewrite Hread. cbn [bind].
  unfold setitem, index_position. cbn.
  destruct (Z.leb_spec 0 (selection_idx s)); [|lia].
  destruct (Z.ltb_spec (selection_idx s) (len (profiles s))); [|lia].
  cbn [andb bind]. do 2 eexists. split; [reflexivity|].
  split; [reflexivity|]. split; [reflexivity|]. split.
  - unfold current_profile. cbn.
    destruct (<[_ := _]> (profiles s)) as [|q qs] eqn:E.
    + apply (f_equal length) in E. rewrite length_insert in E.
      unfold len in Hsel. simpl in E. lia.
    + rewrite <- E. unfold getitem, index_position.
      assert (Hl : len (<[Z.to_nat (selection_idx s) :=
                     {| name := name p; path := path p; jobs_file := jobs_file p;
                        search_specs := search_specs p; urls := new_urls;
                        url_count := len new_urls |}]> (profiles s)) = len (profiles s))
        by (unfold len; rewrite length_insert; reflexivity).
      rewrite Hl.
      destruct (Z.leb_spec 0 (selection_idx s)); [|lia].
      destruct (Z.ltb_spec (selection_idx s) (len (profiles s))); [|lia].
      cbn [andb]. rewrite list_lookup_insert_eq by (unfold len in Hsel; lia).
      reflexivity.
  - cbn. repeat split. intros j Hj. apply list_lookup_insert_ne. congruence.
Qed.

End ScreenFacts.

Lemma validating_holds_witness :
  main_loop (fun _ => Ok tt) (fun _ => Ok tt) (fun _ => false) (fun _ => false)
    (fun _ => None) (fun _ => None) (fun _ => true) (fun _ fs => ((0, []), fs))
    10 ∅ (set_screen VALIDATING (sample_running two_urls))
    (map lit ["b"; "enter"; "q"; "c"; "v"]%string)
  = Ok (set_validation_cancel true (set_screen VALIDATING (sample_running two_urls))).
Proof.
  exact (validating_holds (fun _ => Ok tt) (fun _ => Ok tt) (fun _ => false)
           (fun _ => false) (fun _ => None) (fun _ => None) (fun _ => true)
           (fun _ fs => ((0, []), fs)) 10 ∅
           (set_screen VALIDATING (sample_running two_urls))
           (map lit ["b"; "enter"; "q"; "c"; "v"]%string) eq_refl eq_refl).
Defined.

Lemma profile_enter_reloads_witness :
  match handle_profile_select (fun _ => Ok tt) (fun _ => Ok tt) scenario_fs
          (set_screen PROFILE_SELECT (sample_state one_url)) (lit "enter") with
  | Ok s' =>
      screen s' = MAIN_MENU /\
      exists p', current_profile s' = Ok (Some p') /\ urls p' = scenario_urls
  | Raise _ => False
  end.
Proof.
  destruct (profile_enter_reloads (fun _ => Ok tt) (fun _ => Ok tt) scenario_fs
              (set_screen PROFILE_SELECT (sample_state one_url))
              (sample_profile one_url) scenario_urls 2 5
              ltac:(unfold len; simpl; lia) eq_refl eq_refl)
    as (s' & p' & Hrun & Hscr & _ & Hcp & Hu & _).
  rewrite Hrun. split; [exact Hscr|]. exists p'. split; assumption.
Defined.

(** ** The prompt builder *)

Lemma str_in_In (x : str) (l : list str) : str_in x l = true <-> In x l.
Proof.
  unfold str_in. rewrite existsb_exists. split.
  - intros (y & Hy & E). apply str_eqb_eq in E. congruence.
  - intros H. exists x. split; [exact H | apply str_eqb_eq; reflexivity].
Qed.

Lemma NoDup_snoc_new (x : str) (l : list str) :
  NoDup l -> str_in x l = false -> NoDup (l ++ [x]).
Proof.
  intros Hl Hx. apply NoDup_app. split; [exact Hl|]. split.
  - intros y Hy Hin. apply list_elem_of_singleton in Hin. subst y.
    apply list_elem_of_In, str_in_In in Hy. congruence.
  - apply NoDup_singleton.
Qed.

Lemma append_new_distinct (items : list str) :
  forall acc, NoDup acc -> NoDup (append_new items acc).
Proof.
  unfold append_new. induction items as [|x items IH]; intros acc Hacc; [exact Hacc|].
  cbn [fold_left]. apply IH. destruct (str_in x acc) eqn:E; [exact Hacc|].
  apply NoDup_snoc_new; assumption.
Qed.

Lemma add_pieces_distinct (text : str) (acc : list str) :
  NoDup acc -> NoDup (add_pieces text acc).
Proof.
  unfold add_pieces. generalize (split 44 text). intros pieces. revert acc.
  induction pieces as [|x pieces IH]; intros acc Hacc; [exact Hacc|].
  cbn [fold_left]. apply IH.
  destruct (negb (is_empty (strip x))); cbn [andb]; [|exact Hacc].
  destruct (str_in (strip x) acc) eqn:E; cbn [negb]; [exact Hacc|].
  apply NoDup_snoc_new; assumption.
Qed.

(** [strip] removes from both ends and from nowhere else. *)
Lemma lstrip_with_idempotent (p : char -> bool) (s : str) :
  lstrip_with p (lstrip_with p s) = lstrip_with p s.
Proof.
  induction s as [|c s IH]; [reflexivity|]. cbn [lstrip_with].
  destruct (p c) eqn:E; [exact IH|]. cbn [lstrip_with]. rewrite E. reflexivity.
Qed.

Lemma rstrip_with_cons (p : char -> bool) (c : char) (s : str) :
  rstrip_with p (c :: s)
  = if forallb p s && p c then [] else c :: rstrip_with p s.
Proof.
  unfold rstrip_with. cbn [rev].
  destruct (lstrip_with p (rev s)) as [|x t] eqn:E.
  - apply lstrip_with_nil in E. rewrite lstrip_with_app_all by exact E.
    rewrite forallb_rev in E. rewrite E. cbn [andb lstrip_with].
    destruct (p c); reflexivity.
  - rewrite lstrip_with_app_keep by (rewrite E; discriminate). rewrite E.
    rewrite rev_app_distr. cbn [rev app].
    destruct (forallb p s) eqn:F; [|reflexivity].
    rewrite <- forallb_rev in F. rewrite (lstrip_with_all _ _ F) in E. discriminate.
Qed.

Lemma lstrip_rstrip_commute (p : char -> bool) (s : str) :
  lstrip_with p (rstrip_with p s) = rstrip_with p (lstrip_with p s).
Proof.
  induction s as [|c s IH]; [reflexivity|].
  rewrite rstrip_with_cons. cbn [lstrip_with].
  destruct (p c) eqn:E.
  - rewrite andb_true_r. destruct (forallb p s) eqn:F.
    + rewrite (lstrip_with_all _ _ F). reflexivity.
    + cbn [lstrip_with]. rewrite E. exact IH.
  - rewrite andb_false_r. cbn [lstrip_with]. rewrite E.
    rewrite rstrip_with_cons, E, andb_false_r. reflexivity.
Qed.

Lemma strip_idempotent (s : str) : strip (strip s) = strip s.
Proof.
  unfold strip. rewrite lstrip_rstrip_commute, lstrip_with_idempotent.
  unfold rstrip_with. rewrite rev_involutive, lstrip_with_idempotent. reflexivity.
Qed.

Lemma lstrip_with_existsb (q p : char -> bool) (s : str) :
  existsb q s = false -> existsb q (lstrip_with p s) = false.
Proof.
  induction s as [|c s IH]; [reflexivity|]. cbn [lstrip_with existsb].
  intros H. apply orb_false_elim in H as [Hc Hs].
  destruct (p c); [exact (IH Hs)|]. cbn [existsb]. rewrite Hc, Hs. reflexivity.
Qed.

Lemma strip_existsb (q : char -> bool) (s : str) :
  existsb q s = false -> existsb q (strip s) = false.
Proof.
  intros H. unfold strip, rstrip_with. rewrite existsb_rev.
  apply lstrip_with_existsb. rewrite existsb_rev. apply lstrip_with_existsb, H.
Qed.

(** No piece of [s.split(sep)] holds the separator. *)
Lemma split_from_pieces (sep : char) (s : str) :
  forall cur, contains sep cur = false ->
    Forall (fun piece => contains sep piece = false) (split_from sep cur s).
Proof.
  unfold contains.
  induction s as [|c s IH]; intros cur Hcur; cbn [split_from].
  - constructor; [|constructor]. rewrite existsb_rev. exact Hcur.
  - destruct (N.eqb_spec c sep) as [->|Hne].
    + constructor; [rewrite existsb_rev; exact Hcur | apply IH; reflexivity].
    + apply IH. cbn [existsb]. rewrite Hcur, orb_false_r.
      apply N.eqb_neq. congruence.
Qed.

(** The loop of the two prompts appends, and what it appends is clean. *)
Lemma add_pieces_appends (text : str) (acc : list str) :
  exists added, add_pieces text acc = acc ++ added /\ Forall is_clean_entry added.
Proof.
  unfold add_pieces, split.
  pose proof (split_from_pieces 44 text [] eq_refl) as Hp.
  revert acc. induction Hp as [|x pieces Hx Hp IH]; intros acc.
  - exists []. split; [rewrite app_nil_r; reflexivity | constructor].
  - cbn [fold_left].
    destruct (negb (is_empty (strip x)) && negb (str_in (strip x) acc)) eqn:E.
    + destruct (IH (acc ++ [strip x])) as (added & Hadd & Hclean).
      exists (strip x :: added). split; [rewrite Hadd, <- app_assoc; reflexivity|].
      constructor; [|exact Hclean]. apply andb_prop in E as [E _].
      apply negb_true_iff in E. split; [exact E|]. split; [apply strip_idempotent|].
      apply strip_existsb, Hx.
    + apply IH.
Qed.

Section PromptLists.

Variable check_bracketed_netloc : str -> Exc unit.
Variable checknetloc_nfkc : str -> Exc unit.
Variable isdigit_other : char -> bool.
Variable isprintable_other : char -> bool.
Variable int_other : str -> option Z.
Variable load_search_specs : Profile -> option (list Source).
Variable copy_to_clipboard : str -> bool.
Variable fetch_jobs_for_profile :
  Profile -> gmap (str * str) str -> (Z * str) * gmap (str * str) str.

Lemma init_ai_prompt_builder_distinct (s s' : AppState) :
  init_ai_prompt_builder load_search_specs s = Ok s' -> lists_distinct s'.
Proof.
  unfold init_ai_prompt_builder. destruct (current_profile s) as [cp|e]; [|discriminate].
  cbn [bind]. intros H. injection H as <-. unfold lists_distinct. cbn. split.
  - generalize (NoDup_nil_2 (A := str)). generalize (@nil str) as acc.
    induction (match match cp with Some p => load_search_specs p | None => None end with
               | Some l => l | None => [] end) as [|src sources IH];
      intros acc Hacc; [exact Hacc|].
    cbn [fold_left]. apply IH. destruct (keywords src); [|exact Hacc].
    apply append_new_distinct, Hacc.
  - generalize (NoDup_nil_2 (A := str)). generalize (@nil str) as acc.
    induction (match match cp with Some p => load_search_specs p | None => None end with
               | Some l => l | None => [] end) as [|src sources IH];
      intros acc Hacc; [exact Hacc|].
    cbn [fold_left]. apply IH. destruct (locations src); [|exact Hacc].
    apply append_new_distinct, Hacc.
Qed.

(** Goals on the two lists of a record that setters have built. *)
Ltac lists_goal :=
  unfold step_distinct, step_of, bind, lists_distinct in *; simpl in *;
  repeat match goal with
         | H : _ /\ _ |- _ => destruct H
         | |- _ /\ _ => split
         end;
  try solve [assumption | exact I | apply NoDup_nil_2 | apply add_pieces_distinct; assumption].

Ltac branches :=
  repeat match goal with
         | |- context [match ?c with _ => _ end] =>
             lazymatch c with
             | context [match _ with _ => _ end] => fail
             | _ => destruct c eqn:?
             end
         end.

Lemma main_iteration_distinct (fs : gmap (str * str) str) (s : AppState)
    (keys : list str) :
  lists_distinct s ->
  step_distinct (fst (main_iteration check_bracketed_netloc checknetloc_nfkc
                        isdigit_other isprintable_other int_other load_search_specs
                        copy_to_clipboard fetch_jobs_for_profile fs s keys)).
Proof.
  intros Hok. unfold main_iteration.
  destruct (screen s) eqn:Hscr.
  - destruct keys as [|key keys]; [exact I|]. cbn [fst].
    unfold handle_main_menu, no_urls, start_validation, step_of.
    destruct (current_profile (render_message s)) as [cp|e] eqn:Hcp; cbn [bind].
    2:{ branches; lists_goal. }
    rewrite (current_profile_ext (render_message s) (set_screen _ _)) by reflexivity.
    rewrite Hcp. cbn [bind].
    destruct (init_ai_prompt_builder load_search_specs (render_message s)) as [s1|e] eqn:Hinit.
    + apply init_ai_prompt_builder_distinct in Hinit. cbn [bind]. branches; lists_goal.
    + cbn [bind]. branches; lists_goal.
  - destruct keys as [|key keys]; [exact I|]. cbn [fst].
    unfold handle_profile_select, step_of.
    destruct (let* cp := current_profile _ in _) as [s1|e] eqn:E.
    + assert (Hs1 : lists_distinct s1).
      { revert E. unfold bind. branches; intros E; try discriminate.
        injection E as <-. lists_goal. }
      branches; lists_goal.
    + branches; lists_goal.
  - cbn [fst]. unfold handle_open_settings. branches; lists_goal.
  - cbn [fst]. unfold handle_opening, step_of, bind. branches; lists_goal.
  - destruct keys as [|key keys]; [exact I|]. cbn [fst].
    unfold handle_validating. branches; lists_goal.
  - unfold handle_fetching, step_of, bind. branches; cbn [fst]; lists_goal.
    all: match goal with H : _ = Ok ?x |- _ => injection H as <- end; lists_goal.
  - destruct keys as [|key keys]; [exact I|]. cbn [fst].
    unfold handle_ai_keywords. branches; lists_goal.
  - destruct keys as [|key keys]; [exact I|]. cbn [fst].
    unfold handle_ai_locations. branches; lists_goal.
  - destruct keys as [|key keys]; [exact I|]. cbn [fst].
    unfold handle_ai_companies, step_of.
    destruct (ai_company_batch_idx s) as [page|]; cbn [bind]; [|exact I].
    destruct (selected_companies _ _ _) as [chosen|e]; cbn [bind].
    + destruct (toggle (ai_company_selected s) (selection_idx s)) as [f1|e1]; cbn [bind];
        destruct (int int_other key) as [num|]; cbv zeta;
        try (destruct (toggle (ai_company_selected s) _) as [f2|e2]; cbn [bind]);
        branches; lists_goal.
    + destruct (toggle (ai_company_selected s) (selection_idx s)) as [f1|e1]; cbn [bind];
        destruct (int int_other key) as [num|]; cbv zeta;
        try (destruct (toggle (ai_company_selected s) _) as [f2|e2]; cbn [bind]);
        branches; lists_goal.
  - destruct keys as [|key keys]; [exact I|]. cbn [fst].
    unfold handle_ai_prompt_display. branches; lists_goal.
  - exact Hok.
Qed.

(** X17. Neither list of the prompt builder ever holds an entry twice:
    whatever the configuration file lists and whatever is typed, on any
    screen and in any order, the keywords are pairwise different and so are
    the locations. *)
Theorem prompt_lists_stay_distinct (fuel : nat) :
  forall (fs : gmap (str * str) str) (s : AppState) (keys : list str),
    lists_distinct s ->
    match main_loop check_bracketed_netloc checknetloc_nfkc isdigit_other
            isprintable_other int_other load_search_specs copy_to_clipboard
            fetch_jobs_for_profile fuel fs s keys with
    | Ok s' => lists_distinct s'
    | Raise _ => True
    end.
Proof.
  induction fuel as [|fuel IH]; intros fs s keys Hok; [exact Hok|].
  cbn [main_loop].
  pose proof (main_iteration_distinct fs s keys Hok) as Hstep.
  destruct (main_iteration _ _ _ _ _ _ _ _ fs s keys) as [[s' keys'|e|] fs'];
    cbn [fst step_distinct] in Hstep.
  - destruct (screen s); try exact Hok; apply IH, Hstep.
  - destruct (screen s); try exact Hok; exact I.
  - destruct (screen s); exact Hok.
Qed.

(** X18. An entry typed at the keyword or the location prompt is added
    behind the entries already there, which stay as they are and in their
    order; and every entry added is clean: not empty, without white space
    at either end and without a comma. *)
Theorem typed_entries_clean (s : AppState) (keys : list str) :
  match handle_ai_keywords isprintable_other s (lit "a") keys with
  | Next s' _ =>
      exists added, ai_keywords s' = ai_keywords s ++ added /\
                    Forall is_clean_entry added /\
                    ai_locations s' = ai_locations s
  | Crash _ => False
  | Waiting => True
  end /\
  match handle_ai_locations isprintable_other s (lit "a") keys with
  | Next s' _ =>
      exists added, ai_locations s' = ai_locations s ++ added /\
                    Forall is_clean_entry added /\
                    ai_keywords s' = ai_keywords s
  | Crash _ => False
  | Waiting => True
  end.
Proof.
  unfold handle_ai_keywords, handle_ai_locations.
  replace (str_eqb (lit "a") (lit "a")) with true by reflexivity.
  destruct (read_text_input isprintable_other [] keys) as [[[text cancelled] rest]|];
    [|split; exact I].
  destruct (negb cancelled && negb (is_empty text)).
  - split.
    + destruct (add_pieces_appends text (ai_keywords s)) as (added & Hadd & Hclean).
      exists added. cbn. auto.
    + destruct (add_pieces_appends text (ai_locations s)) as (added & Hadd & Hclean).
      exists added. cbn. auto.
  - split; exists []; rewrite app_nil_r; repeat split; constructor.
Qed.

End PromptLists.

Lemma prompt_lists_stay_distinct_witness :
  match main_loop (fun _ => Ok tt) (fun _ => Ok tt) (fun _ => false) (fun _ => false)
          (fun _ => None)
          (fun _ => Some [{| keywords := Some [lit "go"; lit "rust"; lit "go"];
                             locations := Some [lit "remote"] |};
                          {| keywords := Some [lit "rust"]; locations := None |}])
          (fun _ => true) (fun _ fs => ((0, []), fs)) 20 ∅ session_start
          (map lit ["g"; "a"; "g"; "o"; ","; " "; "c"; ","; "c"; "enter"]%string) with
  | Ok s' => lists_distinct s' /\ ai_keywords s' = [lit "go"; lit "rust"; lit "c"]
  | Raise _ => False
  end.
Proof.
  pose proof (prompt_lists_stay_distinct (fun _ => Ok tt) (fun _ => Ok tt) (fun _ => false)
                (fun _ => false) (fun _ => None)
                (fun _ => Some [{| keywords := Some [lit "go"; lit "rust"; lit "go"];
                                   locations := Some [lit "remote"] |};
                                {| keywords := Some [lit "rust"]; locations := None |}])
                (fun _ => true) (fun _ fs => ((0, []), fs)) 20 ∅ session_start
                (map lit ["g"; "a"; "g"; "o"; ","; " "; "c"; ","; "c"; "enter"]%string)
                (conj (NoDup_nil_2 (A := list N)) (NoDup_nil_2 (A := list N)))) as H.
  destruct (main_loop _ _ _ _ _ _ _ _ _ _ _ _) as [s'|e] eqn:E.
  - split; [exact H|]. revert E. vm_compute. intros E. injection E as <-. reflexivity.
  - revert E. vm_compute. discriminate.
Defined.


(** *** The company list *)

Section CompanySelection.

Variable isdigit_other : char -> bool.
Variable int_other : str -> option Z.

Lemma lookup_repeat {A : Type} (x : A) (n i : nat) :
  (i < n)%nat -> repeat x n !! i = Some x.
Proof.
  revert i. induction n as [|n IH]; intros i Hi; [lia|].
  destruct i; [reflexivity|]. cbn. apply IH. lia.
Qed.

Lemma getitem_lookup {A : Type} (l : list A) (i : nat) (x : A) :
  l !! i = Some x -> getitem l (Z.of_nat i) = Ok x.
Proof.
  intros H. pose proof (lookup_lt_Some _ _ _ H) as Hlt.
  unfold getitem, index_position, len.
  destruct (Z.leb_spec 0 (Z.of_nat i)); [|lia].
  destruct (Z.ltb_spec (Z.of_nat i) (Z.of_nat (length l))); [|lia].
  cbn [andb]. rewrite Nat2Z.id, H. reflexivity.
Qed.

(** The comprehension over a list of flags that are all the same. *)
Lemma selected_companies_uniform (companies : list str) (flag : bool) :
  selected_companies companies (repeat flag (Z.to_nat (len companies))) (len companies)
  = Ok (if flag then companies else []).
Proof.
  unfold selected_companies, len. rewrite Nat2Z.id.
  assert (H : forall n, (n <= length companies)%nat ->
            fold_left (fun acc i =>
                 let* acc := acc in
                 let* b := getitem (repeat flag (length companies)) (Z.of_nat i) in
                 if b : bool
                 then let* c := getitem companies (Z.of_nat i) in Ok (acc ++ [c])
                 else Ok acc) (seq 0 n) (Ok [])
            = Ok (if flag then firstn n companies else [])).
  { induction n as [|n IH]; intros Hn; [destruct flag; reflexivity|].
    rewrite seq_S, fold_left_app, IH by lia. cbn [fold_left bind Nat.add].
    rewrite (getitem_lookup _ n flag) by (apply lookup_repeat; lia). cbn [bind].
    destruct flag; [|reflexivity].
    destruct (companies !! n) as [c|] eqn:Hc.
    - rewrite (getitem_lookup _ n c Hc). cbn [bind].
      rewrite (take_S_r _ _ _ Hc). reflexivity.
    - apply lookup_ge_None in Hc. lia. }
  rewrite H by lia. rewrite firstn_all. reflexivity.
Qed.

(** X19. On the company screen, [a] followed by [n] builds the prompt from
    every company of the list, in the order of the list, and [c] followed
    by [n] builds it from none, whatever was selected before; both end on
    the display screen. *)
Theorem select_all_generates (s : AppState) (page : Z) :
  ai_company_batch_idx s = Some page ->
  match press_keys (handle_ai_companies isdigit_other int_other) s [lit "a"; lit "n"] with
  | Ok s' =>
      ai_prompt s' = generate_ai_prompt (ai_keywords s) (ai_locations s) (ai_companies s) /\
      screen s' = AI_PROMPT_DISPLAY
  | Raise _ => False
  end /\
  match press_keys (handle_ai_companies isdigit_other int_other) s [lit "c"; lit "n"] with
  | Ok s' =>
      ai_prompt s' = generate_ai_prompt (ai_keywords s) (ai_locations s) [] /\
      screen s' = AI_PROMPT_DISPLAY
  | Raise _ => False
  end.
Proof.
  intros Hpage. cbn [press_keys]. split.
  - replace (handle_ai_companies isdigit_other int_other s (lit "a"))
      with (Ok (set_ai_company_selected
                  (repeat true (Z.to_nat (len (ai_companies s)))) s))
      by (unfold handle_ai_companies; rewrite Hpage; reflexivity).
    cbn [bind]. unfold handle_ai_companies. cbn [ai_company_batch_idx
      set_ai_company_selected ai_companies ai_company_selected]. rewrite Hpage.
    cbn [bind].
    replace (str_eqb (lit "n") (lit "n")) with true by reflexivity.
    rewrite (selected_companies_uniform (ai_companies s) true).
    cbn. split; reflexivity.
  - replace (handle_ai_companies isdigit_other int_other s (lit "c"))
      with (Ok (set_ai_company_selected
                  (repeat false (Z.to_nat (len (ai_companies s)))) s))
      by (unfold handle_ai_companies; rewrite Hpage; reflexivity).
    cbn [bind]. unfold handle_ai_companies. cbn [ai_company_batch_idx
      set_ai_company_selected ai_companies ai_company_selected]. rewrite Hpage.
    cbn [bind].
    replace (str_eqb (lit "n") (lit "n")) with true by reflexivity.
    rewrite (selected_companies_uniform (ai_companies s) false).
    cbn. split; reflexivity.
Qed.

(** X20. The space key flips the flag of the company under the cursor and
    no other flag, and pressing it again gives the flags back as they
    were: two presses leave the whole record unchanged. *)
Theorem space_toggles (s : AppState) :
  cursor_on_page s ->
  len (ai_company_selected s) = len (ai_companies s) ->
  exists flag,
    ai_company_selected s !! Z.to_nat (selection_idx s) = Some flag /\
    handle_ai_companies isdigit_other int_other s (lit " ")
    = Ok (set_ai_company_selected
            (<[Z.to_nat (selection_idx s) := negb flag]> (ai_company_selected s)) s) /\
    press_keys (handle_ai_companies isdigit_other int_other) s [lit " "; lit " "] = Ok s.
Proof.
  unfold cursor_on_page. destruct (ai_company_batch_idx s) as [page|] eqn:Hpage;
    [|contradiction].
  intros (Hp0 & Hlo & Hhi & Htotal) Hlen.
  assert (Hin : 0 <= selection_idx s < len (ai_company_selected s))
    by (unfold COMPANY_BATCH_SIZE in *; lia).
  destruct (ai_company_selected s !! Z.to_nat (selection_idx s)) as [flag|] eqn:Hflag.
  2:{ apply lookup_ge_None in Hflag. unfold len in Hin. lia. }
  assert (Hkey : forall s1 : AppState,
            ai_company_batch_idx s1 = Some page ->
            selection_idx s1 = selection_idx s ->
            ai_companies s1 = ai_companies s ->
            handle_ai_companies isdigit_other int_other s1 (lit " ")
            = let* sel := toggle (ai_company_selected s1) (selection_idx s) in
              Ok (set_ai_company_selected sel s1)).
  { intros s1 H1 H2 H3. unfold handle_ai_companies. rewrite H1, H2, H3. cbn [bind].
    replace (str_eqb (lit " ") (lit "j") || str_eqb (lit " ") (lit "down"))
      with false by reflexivity.
    replace (str_eqb (lit " ") (lit "k") || str_eqb (lit " ") (lit "up"))
      with false by reflexivity.
    replace (str_eqb (lit " ") (lit "<") || str_eqb (lit " ") (lit ",")
             || str_eqb (lit " ") (lit "left")) with false by reflexivity.
    replace (str_eqb (lit " ") (lit ">") || str_eqb (lit " ") (lit ".")
             || str_eqb (lit " ") (lit "right")) with false by reflexivity.
    replace (str_eqb (lit " ") (lit " ")) with true by reflexivity.
    destruct (Z.leb_spec (page * COMPANY_BATCH_SIZE) (selection_idx s)); [|lia].
    destruct (Z.ltb_spec (selection_idx s)
                (Z.min (page * COMPANY_BATCH_SIZE + COMPANY_BATCH_SIZE)
                       (len (ai_companies s)))); [|lia].
    reflexivity. }
  assert (Htoggle : forall l : list bool, forall b : bool,
            length l = length (ai_company_selected s) ->
            l !! Z.to_nat (selection_idx s) = Some b ->
            toggle l (selection_idx s) = Ok (<[Z.to_nat (selection_idx s) := negb b]> l)).
  { intros l b Hl Hb. unfold toggle, getitem, setitem, index_position, len.
    rewrite Hl. fold (len (ai_company_selected s)).
    destruct (Z.leb_spec 0 (selection_idx s)); [|lia].
    destruct (Z.ltb_spec (selection_idx s) (len (ai_company_selected s))); [|lia].
    cbn [andb]. rewrite Hb. cbn [bind]. reflexivity. }
  exists flag. split; [reflexivity|]. split.
  - rewrite (Hkey s Hpage eq_refl eq_refl), (Htoggle _ flag eq_refl Hflag). reflexivity.
  - cbn [press_keys].
    rewrite (Hkey s Hpage eq_refl eq_refl), (Htoggle _ flag eq_refl Hflag). cbn [bind].
    rewrite (Hkey (set_ai_company_selected
                     (<[Z.to_nat (selection_idx s) := negb flag]> (ai_company_selected s)) s)
                  Hpage eq_refl eq_refl).
    cbn [ai_company_selected set_ai_company_selected].
    rewrite (Htoggle _ (negb flag)).
    + cbn [bind]. rewrite list_insert_insert_eq, negb_involutive.
      rewrite list_insert_id by exact Hflag. destruct s; reflexivity.
    + apply length_insert.
    + apply list_lookup_insert_eq. unfold len in Hin. lia.
Qed.

End CompanySelection.

Lemma select_all_generates_witness :
  match press_keys (handle_ai_companies (fun _ => false) (fun _ => None))
          companies_entered [lit "a"; lit "n"] with
  | Ok s' =>
      ai_prompt s' = generate_ai_prompt [] [] DEFAULT_COMPANIES /\
      screen s' = AI_PROMPT_DISPLAY
  | Raise _ => False
  end.
Proof.
  exact (proj1 (select_all_generates (fun _ => false) (fun _ => None)
                  companies_entered 0 eq_refl)).
Defined.

Lemma space_toggles_witness :
  cursor_on_page companies_entered /\
  press_keys (handle_ai_companies (fun _ => false) (fun _ => None))
    companies_entered [lit " "; lit " "] = Ok companies_entered.
Proof.
  assert (H : cursor_on_page companies_entered).
  { vm_compute. repeat split; discriminate. }
  split; [exact H|].
  destruct (space_toggles (fun _ => false) (fun _ => None) companies_entered H eq_refl)
    as (flag & _ & _ & Htwice).
  exact Htwice.
Defined.

(** ** The fetch script *)

(** The loop of [unique_preserve_order]: the set holds what the list
    holds, and the list gains the URLs that are new, in their order. *)
Lemma unique_fold (urls : list str) :
  forall (seen : gset (list N)) (ordered : list str),
    NoDup ordered -> (forall u, u ∈ seen <-> u ∈ ordered) ->
    exists added,
      snd (fold_left unique_step urls (seen, ordered)) = ordered ++ added /\
      NoDup (ordered ++ added) /\
      (forall u, u ∈ added <-> u ∈ urls /\ u ∉ ordered) /\
      added `sublist_of` urls /\
      (NoDup urls -> (forall u, u ∈ urls -> u ∉ ordered) -> added = urls).
Proof.
  induction urls as [|url urls IH]; intros seen ordered Hnd Hseen.
  - exists []. rewrite app_nil_r. split; [reflexivity|]. split; [exact Hnd|].
    split; [|split].
    + intros u. split; [intros Hu; inversion Hu | intros [Hu _]; inversion Hu].
    + constructor.
    + reflexivity.
  - cbn [fold_left unique_step]. destruct (decide (url ∈ seen)) as [Hin|Hnew].
    + destruct (IH seen ordered Hnd Hseen) as (added & Hrun & Hnd' & Hmem & Hsub & Hfix).
      exists added. split; [exact Hrun|]. split; [exact Hnd'|]. split; [|split].
      * intros u. rewrite Hmem, elem_of_cons. split; [tauto|].
        intros [[->|H] Hu]; [|tauto]. apply Hseen in Hin. contradiction.
      * apply sublist_cons, Hsub.
      * intros _ Hdis. exfalso. apply (Hdis url); [left|apply Hseen, Hin].
    + assert (Hnew' : url ∉ ordered) by (rewrite <- Hseen; exact Hnew).
      destruct (IH ({[url]} ∪ seen) (ordered ++ [url])) as (added & Hrun & Hnd' & Hmem & Hsub & Hfix).
      * apply NoDup_app. split; [exact Hnd|]. split; [|apply NoDup_singleton].
        intros u Hu Hu'. apply list_elem_of_singleton in Hu'. congruence.
      * intros u. rewrite elem_of_union, elem_of_singleton, elem_of_app,
          list_elem_of_singleton, Hseen. tauto.
      * exists (url :: added). rewrite <- app_assoc in Hrun, Hnd'.
        split; [exact Hrun|]. split; [exact Hnd'|]. split; [|split].
        -- intros u. rewrite !elem_of_cons, Hmem, elem_of_app, list_elem_of_singleton.
           split.
           ++ intros [->|[Hu Hn]]; [tauto|]. split; [tauto|]. tauto.
           ++ intros [[->|Hu] Hn]; [tauto|].
              destruct (decide (u = url)) as [->|Hne]; [tauto|]. right. tauto.
        -- apply sublist_skip, Hsub.
        -- intros Hnd0 Hdis. apply NoDup_cons in Hnd0 as [Hhead Htail].
           f_equal. apply Hfix; [exact Htail|].
           intros u Hu. rewrite elem_of_app, list_elem_of_singleton.
           intros [Ho| ->]; [|contradiction].
           apply (Hdis u); [right; exact Hu | exact Ho].
Qed.

Lemma unique_preserve_order_facts (l : list str) :
  NoDup (unique_preserve_order l) /\
  (forall u, u ∈ unique_preserve_order l <-> u ∈ l) /\
  unique_preserve_order l `sublist_of` l /\
  (NoDup l -> unique_preserve_order l = l).
Proof.
  unfold unique_preserve_order.
  destruct (unique_fold l ∅ []) as (added & Hrun & Hnd & Hmem & Hsub & Hfix).
  - constructor.
  - intros u. rewrite elem_of_empty. split; [contradiction|]. intros H. inversion H.
  - rewrite Hrun. cbn [app] in *. split; [exact Hnd|]. split; [|split].
    + intros u. rewrite Hmem. split; [tauto|]. intros Hu. split; [exact Hu|].
      intros H. inversion H.
    + exact Hsub.
    + intros Hl. apply Hfix; [exact Hl|]. intros u _ H. inversion H.
Qed.

(** X21. [unique_preserve_order] returns every URL of its input once, in
    the order of first appearance: the result has no duplicates, the same
    members as the input, is a subsequence of the input, and is the input
    itself when that has no duplicates. *)
Theorem unique_preserve_order_spec (urls : list str) :
  NoDup (unique_preserve_order urls) /\
  (forall u, u ∈ unique_preserve_order urls <-> u ∈ urls) /\
  unique_preserve_order urls `sublist_of` urls /\
  (NoDup urls -> unique_preserve_order urls = urls) /\
  unique_preserve_order (unique_preserve_order urls) = unique_preserve_order urls.
Proof.
  destruct (unique_preserve_order_facts urls) as (Hnd & Hmem & Hsub & Hfix).
  repeat split; try assumption; try apply Hmem.
  destruct (unique_preserve_order_facts (unique_preserve_order urls)) as (_ & _ & _ & Hfix').
  apply Hfix', Hnd.
Qed.

Section ExtractFacts.

Variable lower : str -> str.

Lemma limit_reached_spec (m : Z) (results : list str) :
  1 <= m -> limit_reached (Some m) results = (m <=? len results).
Proof.
  intros Hm. unfold limit_reached. destruct (Z.eqb_spec m 0); [lia|]. cbn [negb andb].
  rewrite Z.geb_leb. reflexivity.
Qed.

(** Without a limit the loop appends the URLs of the matching jobs. *)
Lemma extract_greenhouse_unlimited (keywords locations : list str)
    (max_results : option Z) (jobs : list Greenhouse.job) :
  max_results = None \/ max_results = Some 0 ->
  forall results,
    extract_greenhouse_from lower jobs keywords locations max_results results
    = results ++
      map (fun job => get_str (Greenhouse.absolute_url job))
        (List.filter
           (fun job =>
              negb (is_empty (get_str (Greenhouse.absolute_url job)))
              && matches_job lower (get_str (Greenhouse.title job))
                   (get_nested (Greenhouse.location job)) keywords locations)
           jobs).
Proof.
  intros Hmax. induction jobs as [|job jobs IH]; intros results.
  - cbn. rewrite app_nil_r. reflexivity.
  - cbn [extract_greenhouse_from List.filter].
    assert (Hlim : forall r, limit_reached max_results r = false)
      by (intros r; destruct Hmax as [-> | ->]; reflexivity).
    destruct (is_empty (get_str (Greenhouse.absolute_url job))); cbn [negb andb].
    + apply IH.
    + destruct (matches_job lower _ _ keywords locations); rewrite Hlim, IH.
      * cbn [map]. rewrite <- app_assoc. reflexivity.
      * reflexivity.
Qed.

Lemma extract_lever_unlimited (keywords locations : list str)
    (max_results : option Z) (jobs : list Lever.job) :
  max_results = None \/ max_results = Some 0 ->
  forall results,
    extract_lever_from lower jobs keywords locations max_results results
    = results ++
      map (fun job => get_str (Lever.hostedUrl job))
        (List.filter
           (fun job =>
              negb (is_empty (get_str (Lever.hostedUrl job)))
              && matches_job lower (get_str (Lever.text job))
                   (get_nested (Lever.categories job)) keywords locations)
           jobs).
Proof.
  intros Hmax. induction jobs as [|job jobs IH]; intros results.
  - cbn. rewrite app_nil_r. reflexivity.
  - cbn [extract_lever_from List.filter].
    assert (Hlim : forall r, limit_reached max_results r = false)
      by (intros r; destruct Hmax as [-> | ->]; reflexivity).
    destruct (is_empty (get_str (Lever.hostedUrl job))); cbn [negb andb].
    + apply IH.
    + destruct (matches_job lower _ _ keywords locations); rewrite Hlim, IH.
      * cbn [map]. rewrite <- app_assoc. reflexivity.
      * reflexivity.
Qed.

(** With a limit the loop stops at the limit. *)
Lemma extract_greenhouse_limited (keywords locations : list str) (m : Z)
    (jobs : list Greenhouse.job) :
  1 <= m ->
  forall results, len results < m ->
    extract_greenhouse_from lower jobs keywords locations (Some m) results
    = firstn (Z.to_nat m)
        (extract_greenhouse_from lower jobs keywords locations None results).
Proof.
  intros Hm. induction jobs as [|job jobs IH]; intros results Hlen.
  - cbn. rewrite firstn_all2; [reflexivity | unfold len in Hlen; lia].
  - cbn [extract_greenhouse_from].
    destruct (is_empty (get_str (Greenhouse.absolute_url job))); [apply IH, Hlen|].
    destruct (matches_job lower _ _ keywords locations).
    + rewrite limit_reached_spec by exact Hm. cbn [limit_reached].
      rewrite len_app. destruct (Z.leb_spec m (len results + 1)).
      * rewrite (extract_greenhouse_unlimited keywords locations None jobs (or_introl eq_refl)).
        rewrite firstn_app, firstn_all2 by (rewrite length_app; unfold len in *; simpl; lia).
        replace (Z.to_nat m - length (results ++ [_]))%nat with 0%nat
          by (rewrite length_app; unfold len in *; simpl; lia).
        rewrite app_nil_r. reflexivity.
      * apply IH. rewrite len_app. lia.
    + rewrite limit_reached_spec by exact Hm. cbn [limit_reached].
      destruct (Z.leb_spec m (len results)); [lia|]. apply IH, Hlen.
Qed.

Lemma extract_lever_limited (keywords locations : list str) (m : Z)
    (jobs : list Lever.job) :
  1 <= m ->
  forall results, len results < m ->
    extract_lever_from lower jobs keywords locations (Some m) results
    = firstn (Z.to_nat m)
        (extract_lever_from lower jobs keywords locations None results).
Proof.
  intros Hm. induction jobs as [|job jobs IH]; intros results Hlen.
  - cbn. rewrite firstn_all2; [reflexivity | unfold len in Hlen; lia].
  - cbn [extract_lever_from].
    destruct (is_empty (get_str (Lever.hostedUrl job))); [apply IH, Hlen|].
    destruct (matches_job lower _ _ keywords locations).
    + rewrite limit_reached_spec by exact Hm. cbn [limit_reached].
      rewrite len_app. destruct (Z.leb_spec m (len results + 1)).
      * rewrite (extract_lever_unlimited keywords locations None jobs (or_introl eq_refl)).
        rewrite firstn_app, firstn_all2 by (rewrite length_app; unfold len in *; simpl; lia).
        replace (Z.to_nat m - length (results ++ [_]))%nat with 0%nat
          by (rewrite length_app; unfold len in *; simpl; lia).
        rewrite app_nil_r. reflexivity.
      * apply IH. rewrite len_app. lia.
    + rewrite limit_reached_spec by exact Hm. cbn [limit_reached].
      destruct (Z.leb_spec m (len results)); [lia|]. apply IH, Hlen.
Qed.

(** A negative limit is reached at once. *)
Lemma extract_greenhouse_negative (keywords locations : list str) (m : Z)
    (jobs : list Greenhouse.job) :
  m < 0 ->
  forall results,
    (length (extract_greenhouse_from lower jobs keywords locations (Some m) results)
     <= S (length results))%nat.
Proof.
  intros Hm. induction jobs as [|job jobs IH]; intros results; [cbn; lia|].
  cbn [extract_greenhouse_from].
  assert (Hlim : forall r, limit_reached (Some m) r = true).
  { intros r. unfold limit_reached. destruct (Z.eqb_spec m 0); [lia|]. cbn [negb andb].
    rewrite Z.geb_leb. apply Z.leb_le. pose proof (len_nonneg r). lia. }
  destruct (is_empty (get_str (Greenhouse.absolute_url job))); [apply IH|].
  rewrite Hlim. destruct (matches_job lower _ _ keywords locations);
    rewrite ?length_app; simpl; lia.
Qed.

Lemma extract_lever_negative (keywords locations : list str) (m : Z)
    (jobs : list Lever.job) :
  m < 0 ->
  forall results,
    (length (extract_lever_from lower jobs keywords locations (Some m) results)
     <= S (length results))%nat.
Proof.
  intros Hm. induction jobs as [|job jobs IH]; intros results; [cbn; lia|].
  cbn [extract_lever_from].
  assert (Hlim : forall r, limit_reached (Some m) r = true).
  { intros r. unfold limit_reached. destruct (Z.eqb_spec m 0); [lia|]. cbn [negb andb].
    rewrite Z.geb_leb. apply Z.leb_le. pose proof (len_nonneg r). lia. }
  destruct (is_empty (get_str (Lever.hostedUrl job))); [apply IH|].
  rewrite Hlim. destruct (matches_job lower _ _ keywords locations);
    rewrite ?length_app; simpl; lia.
Qed.

(** X22. What [max_results] does in [extract_greenhouse_jobs] and
    [extract_lever_jobs]. Without a limit, and with the limit 0, the
    result is the URLs of the jobs that have a non-empty URL and match, in
    the order of the jobs. A limit [m] of 1 or more gives the first [m] of
    these (all of them when there are fewer); a negative limit stops the
    loop at the first job that has a URL, so that at most one URL comes
    back. *)
Theorem extract_jobs_limit (keywords locations : list str) :
  (forall jobs : list Greenhouse.job,
     let found :=
       map (fun job => get_str (Greenhouse.absolute_url job))
         (List.filter
            (fun job =>
               negb (is_empty (get_str (Greenhouse.absolute_url job)))
               && matches_job lower (get_str (Greenhouse.title job))
                    (get_nested (Greenhouse.location job)) keywords locations)
            jobs) in
     extract_greenhouse_jobs lower jobs keywords locations None = found /\
     extract_greenhouse_jobs lower jobs keywords locations (Some 0) = found /\
     (forall m, 1 <= m ->
        extract_greenhouse_jobs lower jobs keywords locations (Some m)
        = firstn (Z.to_nat m) found) /\
     (forall m, m < 0 ->
        (length (extract_greenhouse_jobs lower jobs keywords locations (Some m)) <= 1)%nat))
  /\
  (forall jobs : list Lever.job,
     let found :=
       map (fun job => get_str (Lever.hostedUrl job))
         (List.filter
            (fun job =>
               negb (is_empty (get_str (Lever.hostedUrl job)))
               && matches_job lower (get_str (Lever.text job))
                    (get_nested (Lever.categories job)) keywords locations)
            jobs) in
     extract_lever_jobs lower jobs keywords locations None = found /\
     extract_lever_jobs lower jobs keywords locations (Some 0) = found /\
     (forall m, 1 <= m ->
        extract_lever_jobs lower jobs keywords locations (Some m)
        = firstn (Z.to_nat m) found) /\
     (forall m, m < 0 ->
        (length (extract_lever_jobs lower jobs keywords locations (Some m)) <= 1)%nat)).
Proof.
  split; intros jobs found.
  - unfold extract_greenhouse_jobs.
    split; [exact (extract_greenhouse_unlimited _ _ None jobs (or_introl eq_refl) [])|].
    split; [exact (extract_greenhouse_unlimited _ _ (Some 0) jobs (or_intror eq_refl) [])|].
    split.
    + intros m Hm. rewrite extract_greenhouse_limited by (unfold len; simpl; lia).
      rewrite (extract_greenhouse_unlimited _ _ None jobs (or_introl eq_refl) []).
      reflexivity.
    + intros m Hm. exact (extract_greenhouse_negative _ _ m jobs Hm []).
  - unfold extract_lever_jobs.
    split; [exact (extract_lever_unlimited _ _ None jobs (or_introl eq_refl) [])|].
    split; [exact (extract_lever_unlimited _ _ (Some 0) jobs (or_intror eq_refl) [])|].
    split.
    + intros m Hm. rewrite extract_lever_limited by (unfold len; simpl; lia).
      rewrite (extract_lever_unlimited _ _ None jobs (or_introl eq_refl) []).
      reflexivity.
    + intros m Hm. exact (extract_lever_negative _ _ m jobs Hm []).
Qed.

End ExtractFacts.

(** ** The fetch as the session runs it *)

Lemma startswith_app (sub post : str) : startswith sub (sub ++ post) = true.
Proof.
  induction sub as [|c sub IH]; [reflexivity|].
  cbn [app startswith]. rewrite N.eqb_refl. exact IH.
Qed.

Lemma substring_in_app (sub pre post : str) :
  substring_in sub (pre ++ sub ++ post) = true.
Proof.
  induction pre as [|c pre IH].
  - cbn [app]. destruct (sub ++ post) eqn:E; cbn [substring_in];
      rewrite <- E, startswith_app; reflexivity.
  - cbn [app substring_in]. rewrite IH. apply orb_true_r.
Qed.

(** A word and the white space behind it. *)
Lemma split_whitespace_word (word : str) :
  forall (cur rest : str) (sp : char),
    existsb isspace word = false -> isspace sp = true ->
    rev cur ++ word <> [] ->
    split_whitespace_from cur (word ++ sp :: rest)
    = (rev cur ++ word) :: split_whitespace_from [] rest.
Proof.
  induction word as [|c word IH]; intros cur rest sp Hw Hsp Hne.
  - cbn [app split_whitespace_from]. rewrite Hsp, app_nil_r in *.
    destruct cur; [contradiction|]. reflexivity.
  - cbn [existsb] in Hw. apply orb_false_elim in Hw as [Hc Hw].
    cbn [app split_whitespace_from]. rewrite Hc.
    rewrite (IH (c :: cur) rest sp Hw Hsp).
    + cbn [rev]. rewrite <- app_assoc. reflexivity.
    + cbn [rev]. destruct (rev cur); discriminate.
Qed.

Lemma digits_no_space (s : str) :
  forallb is_ascii_digit s = true -> existsb isspace s = false.
Proof.
  induction s as [|c s IH]; [reflexivity|]. cbn [forallb existsb].
  intros H. apply andb_prop in H as [Hc Hs]. rewrite (IH Hs), orb_false_r.
  unfold is_ascii_digit in Hc. apply andb_prop in Hc as [H1 H2].
  apply N.leb_le in H1, H2. unfold isspace.
  repeat match goal with
         | |- context [N.leb ?a ?b] => destruct (N.leb_spec a b); try lia
         | |- context [N.eqb ?a ?b] => destruct (N.eqb_spec a b); try lia
         end; reflexivity.
Qed.

(** The second word of the line that reports the count is the count. *)
Lemma wrote_line_count (all_urls : list str) (shown : str) :
  split_whitespace (wrote_line all_urls shown) !! 1%nat
  = Some (str_of_nat (length all_urls)).
Proof.
  unfold wrote_line, split_whitespace.
  destruct (str_of_nat_digits (length all_urls)) as [Hd Hne].
  change (lit "Wrote " ++ str_of_nat (length all_urls) ++ lit " URLs to " ++ shown)
    with (lit "Wrote" ++ 32%N :: (str_of_nat (length all_urls)
            ++ 32%N :: (lit "URLs to " ++ shown))).
  rewrite (split_whitespace_word (lit "Wrote") [] _ 32%N); try reflexivity;
    [|discriminate].
  rewrite (split_whitespace_word (str_of_nat (length all_urls)) [] _ 32%N).
  - reflexivity.
  - apply digits_no_space, Hd.
  - reflexivity.
  - cbn [rev app]. destruct (str_of_nat (length all_urls)); discriminate.
Qed.

Lemma printed_join (lines : list str) (last : str) :
  printed (lines ++ [last]) = join nl (lines ++ [last]) ++ nl.
Proof.
  unfold printed. induction lines as [|l lines IH].
  - cbn. rewrite app_nil_r. reflexivity.
  - cbn [app flat_map]. rewrite IH.
    destruct (lines ++ [last]) as [|x r] eqn:E; [destruct lines; discriminate|].
    cbn [join]. rewrite <- !app_assoc. reflexivity.
Qed.

Lemma plain_warning_facts (line : str) :
  plain_warning line = true ->
  (exists rest, line = 87%N :: rest) /\
  existsb is_linebreak line = false /\
  substring_in (lit "Wrote") line = false.
Proof.
  unfold plain_warning. intros H. apply andb_prop in H as [H H3].
  apply andb_prop in H as [H1 H2]. apply negb_true_iff in H2, H3.
  split; [|auto]. destruct line as [|c rest]; [discriminate|].
  change (lit "WARN: ") with (87%N :: lit "ARN: ") in H1. cbn [startswith] in H1.
  apply andb_prop in H1 as [H1 _]. apply N.eqb_eq in H1. subst c. eauto.
Qed.

Lemma splitlines_from_last (l : str) :
  forall cur, existsb is_linebreak l = false -> rev cur ++ l <> [] ->
    splitlines_from cur false l = [rev cur ++ l].
Proof.
  induction l as [|c l IH]; intros cur Hl Hne.
  - cbn [splitlines_from]. rewrite app_nil_r in *. destruct cur; [contradiction|].
    reflexivity.
  - cbn [existsb] in Hl. apply orb_false_elim in Hl as [Hc Hl].
    cbn [splitlines_from andb]. rewrite Hc. rewrite IH.
    + cbn [rev]. rewrite <- app_assoc. reflexivity.
    + exact Hl.
    + cbn [rev]. destruct (rev cur); discriminate.
Qed.

(** The lines of a text that was joined with line feeds and ends in a
    character of its last line. *)
Lemma splitlines_join_open (lines : list str) (last : str) :
  Forall (fun l => existsb is_linebreak l = false) lines ->
  existsb is_linebreak last = false -> last <> [] ->
  splitlines (join nl (lines ++ [last])) = lines ++ [last].
Proof.
  unfold splitlines. intros Hall Hlast Hne.
  induction Hall as [|l lines Hl Hls IH].
  - cbn [app join]. apply (splitlines_from_last last [] Hlast Hne).
  - cbn [app]. destruct (lines ++ [last]) as [|x r] eqn:E; [destruct lines; discriminate|].
    change (join nl (l :: x :: r)) with (l ++ nl ++ join nl (x :: r)).
    rewrite splitlines_from_line by exact Hl. rewrite IH. reflexivity.
Qed.

(** What the script has printed, as the session reads it. *)
Lemma printed_strip (warns : list str) (c : char) (rest : str) :
  Forall (fun line => plain_warning line = true) warns ->
  isspace c = false -> rstrip_with isspace (c :: rest) = c :: rest ->
  strip (printed (warns ++ [c :: rest])) = join nl (warns ++ [c :: rest]).
Proof.
  intros Hw Hc Hrs. rewrite printed_join.
  rewrite <- (app_nil_l (join nl (warns ++ [c :: rest]) ++ nl)).
  rewrite (strip_surrounded [] _ nl eq_refl eq_refl).
  destruct warns as [|w warns].
  - cbn [app join]. unfold strip. cbn [lstrip_with]. rewrite Hc. exact Hrs.
  - inversion Hw as [|? ? Hw1 _]; subst.
    apply plain_warning_facts in Hw1 as ((r & ->) & _).
    apply (strip_joined 87 r warns (c :: rest) eq_refl Hrs). discriminate.
Qed.

Lemma printed_lines (warns : list str) (c : char) (rest : str) :
  Forall (fun line => plain_warning line = true) warns ->
  isspace c = false ->
  existsb is_linebreak (c :: rest) = false ->
  rstrip_with isspace (c :: rest) = c :: rest ->
  splitlines (strip (printed (warns ++ [c :: rest]))) = warns ++ [c :: rest].
Proof.
  intros Hw Hc Hlb Hrs. rewrite printed_strip by assumption.
  apply splitlines_join_open.
  - eapply Forall_impl; [exact Hw|]. intros l Hl. apply plain_warning_facts in Hl. tauto.
  - exact Hlb.
  - discriminate.
Qed.

Section FetchProtocol.

Variable int_other : str -> option Z.

Lemma wrote_count_warnings (warns lines : list str) :
  Forall (fun line => plain_warning line = true) warns ->
  Fetch.wrote_count int_other (warns ++ lines) = Fetch.wrote_count int_other lines.
Proof.
  induction 1 as [|w warns Hw _ IH]; [reflexivity|].
  cbn [app Fetch.wrote_count]. apply plain_warning_facts in Hw as (_ & _ & ->).
  exact IH.
Qed.

Lemma wrote_line_shape (all_urls : list str) (shown : str) :
  existsb is_linebreak shown = false ->
  rstrip_with isspace shown = shown -> shown <> [] ->
  exists rest,
    wrote_line all_urls shown = 87%N :: rest /\
    existsb is_linebreak (87%N :: rest) = false /\
    rstrip_with isspace (87%N :: rest) = 87%N :: rest.
Proof.
  intros Hlb Hrs Hne. unfold wrote_line. eexists. split; [reflexivity|].
  change (87%N :: ?r) with (lit "Wrote " ++ str_of_nat (length all_urls)
                             ++ lit " URLs to " ++ shown).
  split.
  - rewrite !existsb_app, str_of_nat_no_linebreak, Hlb. reflexivity.
  - rewrite !app_assoc. rewrite rstrip_with_app_keep by (rewrite Hrs; exact Hne).
    rewrite Hrs. reflexivity.
Qed.

(** The output that ends with the line of the count. *)
Lemma fetch_count_wrote (profile : Profile) (specs : str * str)
    (warns all_urls : list str) (shown stderr : str) :
  search_specs profile = Some specs ->
  Forall (fun line => plain_warning line = true) warns ->
  (length (str_of_nat (length all_urls)) <= 4300)%nat ->
  existsb is_linebreak shown = false ->
  rstrip_with isspace shown = shown -> shown <> [] ->
  Fetch.fetch_jobs_for_profile int_other profile
    (Completed 0 (printed (warns ++ [wrote_line all_urls shown])) stderr)
  = (len all_urls, []).
Proof.
  intros Hspecs Hw Hlen Hlb Hrs Hne.
  unfold Fetch.fetch_jobs_for_profile. rewrite Hspecs. cbn [Z.eqb negb].
  destruct (wrote_line_shape all_urls shown Hlb Hrs Hne) as (rest & Hshape & Hl & Hr).
  rewrite Hshape, (printed_lines warns 87 rest Hw eq_refl Hl Hr).
  rewrite wrote_count_warnings by exact Hw. rewrite <- Hshape.
  cbn [Fetch.wrote_count].
  assert (H1 : substring_in (lit "Wrote") (wrote_line all_urls shown) = true).
  { exact (substring_in_app (lit "Wrote") []
             (32%N :: str_of_nat (length all_urls) ++ lit " URLs to " ++ shown)). }
  assert (H2 : substring_in (lit "URLs") (wrote_line all_urls shown) = true).
  { unfold wrote_line.
    replace (lit "Wrote " ++ str_of_nat (length all_urls) ++ lit " URLs to " ++ shown)
      with ((lit "Wrote " ++ str_of_nat (length all_urls) ++ [32%N])
            ++ lit "URLs" ++ (lit " to " ++ shown))
      by (rewrite <- !app_assoc; reflexivity).
    apply substring_in_app. }
  rewrite H1, H2, wrote_line_count. cbn [andb].
  destruct (str_of_nat_digits (length all_urls)) as [Hd Hn].
  unfold int. rewrite Hn, Hd. cbn [negb andb].
  destruct (Nat.leb_spec (length (str_of_nat (length all_urls))) 4300); [|lia].
  rewrite decimal_value_str_of_nat. reflexivity.
Qed.

(** X23. The count that the session shows is the count that the script
    has written. When the script ends with its line [Wrote n URLs to
    path], after any warnings, [fetch_jobs_for_profile] returns [n] and no
    error; when it ends with [No URLs found.], which it prints without
    touching the list file, the session gets the count 0 and the whole
    output as the error text. *)
Theorem fetch_count_read (profile : Profile) (specs : str * str)
    (warns all_urls : list str) (shown stderr : str) :
  search_specs profile = Some specs ->
  Forall (fun line => plain_warning line = true) warns ->
  (length (str_of_nat (length all_urls)) <= 4300)%nat ->
  existsb is_linebreak shown = false ->
  rstrip_with isspace shown = shown -> shown <> [] ->
  Fetch.fetch_jobs_for_profile int_other profile
    (Completed 0 (printed (warns ++ [wrote_line all_urls shown])) stderr)
  = (len all_urls, []) /\
  Fetch.fetch_jobs_for_profile int_other profile
    (Completed 0 (printed (warns ++ [lit "No URLs found."])) stderr)
  = (0, join nl (warns ++ [lit "No URLs found."])).
Proof.
  intros Hspecs Hw Hlen Hlb Hrs Hne. split.
  - exact (fetch_count_wrote profile specs warns all_urls shown stderr
             Hspecs Hw Hlen Hlb Hrs Hne).
  - unfold Fetch.fetch_jobs_for_profile. rewrite Hspecs. cbn [Z.eqb negb].
    change (lit "No URLs found.") with (78%N :: lit "o URLs found.").
    rewrite (printed_lines warns 78 (lit "o URLs found.") Hw eq_refl eq_refl eq_refl).
    rewrite wrote_count_warnings by exact Hw.
    rewrite (printed_strip warns 78 (lit "o URLs found.") Hw eq_refl eq_refl).
    reflexivity.
Qed.

End FetchProtocol.

Lemma fetch_count_read_witness :
  Fetch.fetch_jobs_for_profile (fun _ => None)
    fetch_profile
    (Completed 0
       (lit "WARN: lever source missing company" ++ nl
        ++ lit "Wrote 2 URLs to profiles/default/jobs.txt" ++ nl) [])
  = (2, []).
Proof.
  exact (proj1 (fetch_count_read (fun _ => None)
           fetch_profile
           (lit "profiles/default", lit "search_specs.json")
           [lit "WARN: lever source missing company"] scenario_urls
           (lit "profiles/default/jobs.txt") [] eq_refl
           ltac:(repeat constructor) ltac:(vm_compute; lia) eq_refl eq_refl
           ltac:(discriminate))).
Defined.

Section FetchAndReload.

Variable check_bracketed_netloc : str -> Exc unit.
Variable checknetloc_nfkc : str -> Exc unit.
Variable int_other : str -> option Z.

(** A file of URLs that the normalizer leaves as they are reads back as
    these URLs. *)
Lemma read_urls_written (fs : gmap (str * str) str) (q : str * str) (urls : list str) :
  Forall (fun u => normalize_url check_bracketed_netloc checknetloc_nfkc u = Ok (Some u))
         urls ->
  urls <> [] ->
  fs !! q = Some (url_lines urls) ->
  read_urls check_bracketed_netloc checknetloc_nfkc fs q = Ok (urls, 0, len urls).
Proof.
  intros Hfix Hne Hfile. unfold read_urls. rewrite Hfile. unfold url_lines.
  rewrite splitlines_join.
  - rewrite (read_urls_loop_accepts check_bracketed_netloc checknetloc_nfkc urls Hfix).
    reflexivity.
  - exact Hne.
  - eapply Forall_impl; [exact Hfix|]. simpl. intros u Hu.
    apply no_space_no_linebreak.
    apply (normalize_url_canonical check_bracketed_netloc checknetloc_nfkc) in Hu.
    apply (canonical_spec u Hu).
Qed.

(** X24. A fetch from end to end. The script has found URLs that the
    normalizer leaves as they are; it writes each of them once to the list
    file of the profile and prints their number. The session then shows
    this number, and the current profile holds these URLs, each once and
    in the order found, as its list. *)
Theorem fetch_then_reload (fs : gmap (str * str) str) (s : AppState) (p : Profile)
    (specs : str * str) (found warns : list str) (stderr : str) :
  0 <= profile_idx s < len (profiles s) ->
  current_profile s = Ok (Some p) ->
  search_specs p = Some specs ->
  jobs_file p = (path p, lit "jobs.txt") ->
  existsb is_linebreak (path p) = false ->
  found <> [] ->
  Forall (fun u => normalize_url check_bracketed_netloc checknetloc_nfkc u = Ok (Some u))
         found ->
  Forall (fun line => plain_warning line = true) warns ->
  (length (str_of_nat (length (unique_preserve_order found))) <= 4300)%nat ->
  let script (q : Profile) (files : gmap (str * str) str) :=
    let '(files', lines) :=
      write_fetched found (path q, lit "jobs.txt") (path q ++ lit "/jobs.txt") files in
    (Fetch.fetch_jobs_for_profile int_other q (Completed 0 (printed (warns ++ lines)) stderr),
     files') in
  match handle_fetching check_bracketed_netloc checknetloc_nfkc script fs s with
  | (Ok s', fs') =>
      screen s' = MAIN_MENU /\
      message s' = lit "Fetched " ++ str_of_nat (length (unique_preserve_order found))
                   ++ lit " jobs" /\
      fs' !! jobs_file p = Some (url_lines (unique_preserve_order found)) /\
      exists p', current_profile s' = Ok (Some p') /\
                 urls p' = unique_preserve_order found /\
                 url_count p' = len (unique_preserve_order found) /\
                 NoDup (urls p')
  | (Raise _, _) => False
  end.
Proof.
  intros Hidx Hcp Hspecs Hfile Hpath Hne Hfix Hw Hlen script.
  destruct (unique_preserve_order_facts found) as (Hnd & Hmem & _).
  subst script. unfold handle_fetching, write_fetched.
  remember (unique_preserve_order found) as all_urls eqn:Eall. clear Eall.
  assert (Hne' : all_urls <> []).
  { destruct found as [|u found]; [congruence|]. intros E.
    assert (Hu : u ∈ all_urls) by (apply Hmem; left). rewrite E in Hu. inversion Hu. }
  assert (Hfix' : Forall (fun u => normalize_url check_bracketed_netloc checknetloc_nfkc u
                                   = Ok (Some u)) all_urls).
  { apply Forall_forall. intros u Hu. apply Hmem in Hu.
    rewrite Forall_forall in Hfix. apply Hfix, Hu. }
  rewrite Hcp, Hspecs.
  replace (is_empty_list all_urls) with false
    by (destruct all_urls; [congruence | reflexivity]).
  assert (Hshown : existsb is_linebreak (path p ++ lit "/jobs.txt") = false)
    by (rewrite existsb_app, Hpath; reflexivity).
  assert (Hrs : rstrip_with isspace (path p ++ lit "/jobs.txt") = path p ++ lit "/jobs.txt")
    by (rewrite rstrip_with_app_keep; [reflexivity | discriminate]).
  assert (Hsne : path p ++ lit "/jobs.txt" <> [])
    by (destruct (path p); discriminate).
  rewrite (fetch_count_wrote int_other p specs warns all_urls
             (path p ++ lit "/jobs.txt") stderr Hspecs Hw Hlen Hshown Hrs Hsne).
  cbn [is_empty negb]. unfold reload_urls.
  rewrite (read_urls_written (<[(path p, lit "jobs.txt") := url_lines all_urls]> fs)
             (jobs_file p) all_urls Hfix' Hne')
    by (rewrite Hfile; apply lookup_insert_eq).
  cbn [bind].
  destruct (setitem_in_range (profiles s) (profile_idx s)
              {| name := name p; path := path p; jobs_file := jobs_file p;
                 search_specs := search_specs p; urls := all_urls;
                 url_count := len all_urls |} Hidx) as (ps & Hps & Hlen').
  rewrite Hps. cbn [bind].
  split; [reflexivity|]. split.
  { cbn. unfold str_of_int, len. destruct (Z.ltb_spec (Z.of_nat (length all_urls)) 0); [lia|].
    rewrite Nat2Z.id. reflexivity. }
  split; [rewrite Hfile; apply lookup_insert_eq|].
  exists {| name := name p; path := path p; jobs_file := jobs_file p;
            search_specs := search_specs p; urls := all_urls;
            url_count := len all_urls |}.
  split; [|split; [reflexivity | split; [reflexivity | exact Hnd]]].
  unfold setitem, index_position in Hps.
  destruct (Z.leb_spec 0 (profile_idx s)); [|lia].
  destruct (Z.ltb_spec (profile_idx s) (len (profiles s))); [|lia].
  cbn [andb] in Hps. injection Hps as <-.
  unfold current_profile. cbn.
  destruct (<[_ := _]> (profiles s)) as [|q qs] eqn:E.
  - apply (f_equal length) in E. rewrite length_insert in E. unfold len in Hidx.
    simpl in E. lia.
  - rewrite <- E. unfold getitem, index_position.
    assert (Hl : len (<[Z.to_nat (profile_idx s) :=
                   {| name := name p; path := path p; jobs_file := jobs_file p;
                      search_specs := search_specs p; urls := all_urls;
                      url_count := len all_urls |}]> (profiles s)) = len (profiles s))
      by (unfold len; rewrite length_insert; reflexivity).
    rewrite Hl.
    destruct (Z.leb_spec 0 (profile_idx s)); [|lia].
    destruct (Z.ltb_spec (profile_idx s) (len (profiles s))); [|lia].
    cbn [andb]. rewrite list_lookup_insert_eq by (unfold len in Hidx; lia).
    reflexivity.
Qed.

End FetchAndReload.

Lemma fetch_then_reload_witness :
  match handle_fetching (fun _ => Ok tt) (fun _ => Ok tt)
          (fun q files =>
             let '(files', lines) :=
               write_fetched found_twice (path q, lit "jobs.txt")
                 (path q ++ lit "/jobs.txt") files in
             (Fetch.fetch_jobs_for_profile (fun _ => None) q
                (Completed 0 (printed ([] ++ lines)) []), files'))
          ∅ fetching_state with
  | (Ok s', fs') =>
      message s' = lit "Fetched 2 jobs" /\
      exists p', current_profile s' = Ok (Some p') /\ urls p' = scenario_urls
  | (Raise _, _) => False
  end.
Proof.
  assert (Hu : unique_preserve_order found_twice = scenario_urls) by (vm_compute; reflexivity).
  pose proof (fetch_then_reload (fun _ => Ok tt) (fun _ => Ok tt) (fun _ => None)
                ∅ fetching_state fetch_profile
                (lit "profiles/default", lit "search_specs.json") found_twice [] []
                ltac:(unfold len; simpl; lia) eq_refl eq_refl eq_refl eq_refl
                ltac:(discriminate)
                ltac:(repeat constructor) ltac:(constructor)
                ltac:(rewrite Hu; vm_compute; lia)) as H.
  cbv zeta in H.
  destruct (handle_fetching _ _ _ ∅ fetching_state) as [[s'|e] fs']; [|exact H].
  destruct H as (_ & Hm & _ & p' & Hp & Hurls & _).
  rewrite Hu in Hm, Hurls. split; [exact Hm|]. exists p'. split; assumption.
Defined.

(** ** Opening a tab *)

Lemma escape_applescript_string_cons (c : char) (value : str) :
  escape_applescript_string (c :: value)
  = (if (c =? 92)%N then [92; 92]%N
     else if (c =? 34)%N then [92; 34]%N else [c])
    ++ escape_applescript_string value.
Proof.
  unfold escape_applescript_string, replace_char. cbn [flat_map].
  rewrite flat_map_app.
  destruct (N.eqb_spec c 92) as [->|H92]; [reflexivity|].
  cbn [flat_map]. destruct (N.eqb_spec c 34) as [->|H34]; reflexivity.
Qed.

Lemma read_quoted_escaped (value rest : str) :
  read_quoted (escape_applescript_string value ++ 34%N :: rest) = Some (value, rest).
Proof.
  induction value as [|c value IH]; [reflexivity|].
  rewrite escape_applescript_string_cons.
  destruct (N.eqb_spec c 92) as [->|H92].
  - cbn [app read_quoted N.eqb Pos.eqb orb]. rewrite IH. reflexivity.
  - destruct (N.eqb_spec c 34) as [->|H34].
    + cbn [app read_quoted N.eqb Pos.eqb orb]. rewrite IH. reflexivity.
    + cbn [app read_quoted].
      destruct (N.eqb_spec c 34); [contradiction|].
      destruct (N.eqb_spec c 92); [contradiction|].
      rewrite IH. reflexivity.
Qed.

(** X25. The URL reaches the script whole. In the script that
    [open_in_chrome] runs, the URL stands escaped between two quotes at the
    end; read back from behind the opening quote, the escaped text gives
    the URL itself and ends at the quote that the code has put behind it,
    whatever backslashes and quotes the URL holds. Two URLs never give the
    same escaped text. *)
Theorem escape_applescript_string_reads_back (url : str) :
  open_in_chrome_script url
  = lit "tell application " ++ [34%N] ++ lit "Google Chrome" ++ [34%N]
    ++ lit " to open location " ++ [34%N] ++ escape_applescript_string url ++ [34%N] /\
  read_quoted (escape_applescript_string url ++ [34%N]) = Some (url, []) /\
  forall other, escape_applescript_string other = escape_applescript_string url ->
                other = url.
Proof.
  split; [reflexivity|]. split; [apply read_quoted_escaped|].
  intros other H.
  pose proof (read_quoted_escaped other []) as Ho.
  rewrite H, read_quoted_escaped in Ho. congruence.
Qed.

Lemma scripts_run_app (a b : list BrowserCall) :
  scripts_run (a ++ b) = scripts_run a ++ scripts_run b.
Proof. apply flat_map_app. Qed.

Lemma scripts_run_pause (d : Q) :
  scripts_run (if Qeq_bool d 0 then [] else [Sleep d]) = [].
Proof. destruct (Qeq_bool d 0); reflexivity. Qed.

(** When no call raises another exception the loop runs to its end: one
    script for each URL, in order, with the pause behind each. *)
Lemma open_tabs_all (osascript : nat -> str -> CallOutcome) (d : Q) (urls : list str) :
  osascript_starts osascript ->
  forall i,
    open_tabs osascript d i urls
    = (None,
       flat_map (fun url => Osascript (open_in_chrome_script url)
                            :: (if Qeq_bool d 0 then [] else [Sleep d])) urls).
Proof.
  intros Hos. induction urls as [|url urls IH]; intros i; cbn [open_tabs flat_map];
    [reflexivity|].
  unfold open_in_chrome. pose proof (Hos i (open_in_chrome_script url)) as Hi.
  destruct (osascript i (open_in_chrome_script url)); [| |contradiction];
    rewrite IH; reflexivity.
Qed.

(** Whatever the calls do, the scripts run are those of the first URLs, in
    order, and a script is run for every URL when no exception ends the
    loop. *)
Lemma open_tabs_prefix (osascript : nat -> str -> CallOutcome) (d : Q) (urls : list str) :
  forall i,
    exists k, (k <= length urls)%nat /\
      scripts_run (snd (open_tabs osascript d i urls))
      = map open_in_chrome_script (firstn k urls) /\
      (fst (open_tabs osascript d i urls) = None -> k = length urls).
Proof.
  induction urls as [|url urls IH]; intros i; cbn [open_tabs].
  - exists 0%nat. auto.
  - unfold open_in_chrome.
    destruct (IH (S i)) as (k & Hk & Hs & Hn).
    destruct (open_tabs osascript d (S i) urls) as [r calls] eqn:E.
    cbn [fst snd] in Hs, Hn.
    destruct (osascript i (open_in_chrome_script url)).
    + exists (S k). cbn [snd fst length firstn map]. split; [lia|]. split.
      * change (Osascript (open_in_chrome_script url) :: ?l)
          with ([Osascript (open_in_chrome_script url)] ++ l).
        rewrite !scripts_run_app, scripts_run_pause, Hs. reflexivity.
      * intros H. rewrite (Hn H). reflexivity.
    + exists (S k). cbn [snd fst length firstn map]. split; [lia|]. split.
      * change (Osascript (open_in_chrome_script url) :: ?l)
          with ([Osascript (open_in_chrome_script url)] ++ l).
        rewrite !scripts_run_app, scripts_run_pause, Hs. reflexivity.
      * intros H. rewrite (Hn H). reflexivity.
    + exists 1%nat. cbn [snd fst length firstn map]. split; [lia|]. split.
      * reflexivity.
      * discriminate.
Qed.

(** What [handle_opening_run] does on a record with a profile. *)
Lemma handle_opening_run_cases (open_chrome : option exn)
    (osascript : nat -> str -> CallOutcome) (s : AppState) (p : Profile) :
  current_profile s = Ok (Some p) ->
  let run := handle_opening_run open_chrome osascript s in
  (exists k, (k <= length (opening_urls s p))%nat /\
     scripts_run (snd run) = map open_in_chrome_script (firstn k (opening_urls s p)) /\
     forall s2, fst run = Ok s2 ->
       k = length (opening_urls s p) /\ handle_opening s = Ok s2) /\
  (open_chrome = None -> osascript_starts osascript ->
   run = (handle_opening s,
          OpenChrome
          :: flat_map (fun url => Osascript (open_in_chrome_script url)
                                  :: (if Qeq_bool (delay s) 0 then [] else [Sleep (delay s)]))
               (opening_urls s p))).
Proof.
  intros Hp run. subst run. unfold handle_opening_run, handle_opening. rewrite Hp.
  cbn [bind]. split.
  - destruct open_chrome as [e|].
    + exists 0%nat. cbn [fst snd]. split; [lia|]. split; [reflexivity | discriminate].
    + destruct (open_tabs_prefix osascript (delay s) (opening_urls s p) 0)
        as (k & Hk & Hs & Hn).
      destruct (open_tabs osascript (delay s) 0 (opening_urls s p)) as [r calls].
      cbn [fst snd] in Hs, Hn. exists k. split; [exact Hk|].
      destruct r as [e|]; cbn [fst snd]; (split; [exact Hs|]).
      * discriminate.
      * intros s2 H. split; [exact (Hn eq_refl) | exact H].
  - intros -> Hos. rewrite (open_tabs_all osascript (delay s) (opening_urls s p) Hos 0).
    reflexivity.
Qed.

Section TabOpening.

Variable isdigit_other : char -> bool.
Variable int_other : str -> option Z.

(** The number prompt on the digits of a number and Enter. *)
Lemma read_number_digits_enter (default max_val : Z) (n : nat) (rest : list str) :
  (length (str_of_nat n) <= 4300)%nat ->
  read_number isdigit_other int_other default max_val
    (map (fun c => [c]) (str_of_nat n) ++ lit "enter" :: rest)
  = Some (Z.min (Z.max 1 (Z.of_nat n)) max_val, rest).
Proof.
  intros Hlen. destruct (str_of_nat_digits n) as [Hd Hne].
  unfold read_number. rewrite read_number_loop_digits by exact Hd.
  cbn [app read_number_loop].
  replace (str_eqb (lit "enter") (lit "enter")) with true by reflexivity.
  rewrite Hne. unfold int. rewrite Hne, Hd. cbn [negb andb].
  destruct (Nat.leb_spec (length (str_of_nat n)) 4300); [|lia].
  rewrite decimal_value_str_of_nat. reflexivity.
Qed.

(** X26. From the number typed to the tabs opened. On the tab-opening
    screen, typing a number [n] between 1 and the number of URLs of the
    profile, Enter, and Enter again for the default delay, leads to the
    opening screen with the limit [n] and the delay of 150 ms. There,
    whatever the commands do, the scripts handed to [osascript] are those
    of the first URLs of the profile, in order and at most [n] of them, and
    when the handler returns they are those of all the first [n], the
    message counts [n] tabs and the main menu is next. When the browser
    starts and no call of [osascript] raises anything but
    [CalledProcessError], the handler returns, after one script and one
    pause of 150 ms for each of the first [n] URLs. *)
Theorem tabs_opened (s : AppState) (p : Profile) (n : nat) (rest : list str)
    (open_chrome : option exn) (osascript : nat -> str -> CallOutcome) :
  current_profile s = Ok (Some p) ->
  (1 <= n <= length (urls p))%nat ->
  (length (str_of_nat n) <= 4300)%nat ->
  match handle_open_settings isdigit_other int_other s
          (map (fun c => [c]) (str_of_nat n) ++ lit "enter" :: lit "enter" :: rest) with
  | Next s1 rest1 =>
      rest1 = rest /\ screen s1 = OPENING /\
      tab_limit s1 = Z.of_nat n /\ delay s1 = 150 # 1000 /\
      (exists k, (k <= n)%nat /\
         scripts_run (snd (handle_opening_run open_chrome osascript s1))
         = map open_in_chrome_script (firstn k (urls p)) /\
         forall s2, fst (handle_opening_run open_chrome osascript s1) = Ok s2 ->
           k = n /\ screen s2 = MAIN_MENU /\
           message s2 = lit "Opened " ++ str_of_nat n ++ lit " tabs") /\
      (open_chrome = None -> osascript_starts osascript ->
       exists s2,
         handle_opening_run open_chrome osascript s1
         = (Ok s2,
            OpenChrome
            :: flat_map (fun url => [Osascript (open_in_chrome_script url);
                                     Sleep (150 # 1000)])
                 (firstn n (urls p))))
  | _ => False
  end.
Proof.
  intros Hp Hn Hlen. unfold handle_open_settings. rewrite Hp.
  rewrite (read_number_digits_enter _ _ n _ Hlen).
  replace (Z.min (Z.max 1 (Z.of_nat n)) (len (urls p))) with (Z.of_nat n)
    by (unfold len; lia).
  destruct (Z.eqb_spec (Z.of_nat n) (-1)); [lia|].
  replace (read_number isdigit_other int_other 150 5000 (lit "enter" :: rest))
    with (Some (150, rest)) by reflexivity.
  cbn [Z.eqb].
  set (s1 := set_screen OPENING (set_delay (150 # 1000) (set_tab_limit (Z.of_nat n) s))).
  assert (Hopen : opening_urls s1 p = firstn n (urls p)).
  { unfold opening_urls, slice_to. cbn.
    destruct (Z.leb_spec 0 (Z.of_nat n)); [|lia]. rewrite Nat2Z.id. reflexivity. }
  assert (Hp1 : current_profile s1 = Ok (Some p))
    by (rewrite <- Hp; apply current_profile_ext; reflexivity).
  assert (Hlen1 : length (firstn n (urls p)) = n) by (rewrite length_firstn; lia).
  assert (Hcoarse : handle_opening s1
                    = Ok (set_screen MAIN_MENU
                            (set_message (lit "Opened " ++ str_of_nat n ++ lit " tabs") s1))).
  { unfold handle_opening. rewrite Hp1. cbn [bind]. rewrite Hopen, Hlen1. reflexivity. }
  destruct (handle_opening_run_cases open_chrome osascript s1 p Hp1) as [Hany Hall].
  rewrite Hopen in Hany, Hall. rewrite Hlen1 in Hany.
  change (delay s1) with (150 # 1000) in Hall.
  change (Qeq_bool (150 # 1000) 0) with false in Hall. cbv iota in Hall.
  split; [reflexivity|]. split; [reflexivity|]. split; [reflexivity|].
  split; [reflexivity|]. split.
  - destruct Hany as (k & Hk & Hs & Hret). exists k. split; [exact Hk|]. split.
    + rewrite Hs, firstn_firstn. replace (Nat.min k n) with k by lia. reflexivity.
    + intros s2 H2. destruct (Hret s2 H2) as [-> H]. rewrite Hcoarse in H.
      injection H as <-. auto.
  - intros Ho Hos. eexists. rewrite (Hall Ho Hos), Hcoarse. reflexivity.
Qed.

End TabOpening.

(** X26 on the profile with two URLs, where the first script fails. *)
Lemma tabs_opened_witness :
  match handle_open_settings (fun _ => false) (fun _ => None) (sample_state two_urls)
          (map lit ["2"; "enter"; "enter"]%string) with
  | Next s1 _ =>
      exists s2,
        handle_opening_run None first_call_fails s1
        = (Ok s2,
           [OpenChrome;
            Osascript (open_in_chrome_script (lit "https://a.com/job/1"));
            Sleep (150 # 1000);
            Osascript (open_in_chrome_script (lit "https://b.org/2"));
            Sleep (150 # 1000)])
  | _ => False
  end.
Proof.
  assert (Hos : osascript_starts first_call_fails) by (intros [|i] script; exact I).
  pose proof (tabs_opened (fun _ => false) (fun _ => None) (sample_state two_urls)
                (sample_profile two_urls) 2 [] None first_call_fails eq_refl
                ltac:(simpl; lia) ltac:(vm_compute; lia)) as H.
  change (map (fun c => [c]) (str_of_nat 2) ++ [lit "enter"; lit "enter"])
    with (map lit ["2"; "enter"; "enter"]%string) in H.
  destruct (handle_open_settings _ _ _ _) as [s1 rest1|e|]; [|exact H|exact H].
  destruct H as (_ & _ & _ & _ & _ & Hall).
  exact (Hall eq_refl Hos).
Defined.
